(** * Page-layout analysis of [scripts/pdfParsingIRCCodeBook.py]

    A shallow embedding of the parts of the IRC code-book extractor that its
    specification makes claims about, followed by the theorems that settle
    those claims.

    Modelling conventions.
    - A Python [str] is a [string]; the development is about ASCII text, the
      character classes ([\s], [\d], [\w], [[A-Z]]) and [upper] are the ASCII
      restrictions of Python's.
    - A Python [float] coordinate is a rational [Q]; comparisons and
      arithmetic are exact.  A Python [int] is a [Z].
    - A [raise RuntimeError(...)] is the [Raise] result; [format_error] builds
      the structured message.
    - A dict used as a map is a [gmap]; a list of dicts is a list of records.
    - A Python list used as a stack ([append]/[pop]/[[-1]]) is a list whose
      head is the top of the stack. *)

From Stdlib Require Import ZArith QArith Qabs Qminmax Qround String Ascii List Bool Lia.
From Stdlib Require Import Decimal DecimalString Sorting.Sorted Lqa.
From stdpp Require Import gmap strings.
Import ListNotations.
Open Scope string_scope.
#[global] Arguments String.append !s1 s2 : simpl nomatch.

(* ===================================================================== *)
(** * Part I: the embedding *)
(* ===================================================================== *)

(** ** Failures *)

(** [format_error(rule, page_num, detail)]: the message
    [RULE=<rule> PDF_PAGE=<page|UNKNOWN> detail=<detail>], kept structured.
    [Plain] is a [RuntimeError] raised with a bare string. *)
Inductive RuntimeError : Type :=
| format_error (rule : string) (page_num : option Z) (detail : string)
| Plain (message : string).

Inductive result (A : Type) : Type :=
| Return (a : A)
| Raise (e : RuntimeError).
Arguments Return {A} a.
Arguments Raise {A} e.

#[global] Instance result_ret : MRet result := fun A a => Return a.
#[global] Instance result_bind : MBind result := fun A B f m =>
  match m with
  | Return a => f a
  | Raise e => Raise e
  end.

(** The rule name a failure is reported under. *)
Definition rule_of (e : RuntimeError) : option string :=
  match e with
  | format_error rule _ _ => Some rule
  | Plain _ => None
  end.

Definition page_of (e : RuntimeError) : option Z :=
  match e with
  | format_error _ page_num _ => page_num
  | Plain _ => None
  end.

(** ** Characters and strings *)

Module Py.

Definition code (c : ascii) : nat := nat_of_ascii c.

Definition between (lo hi : nat) (c : ascii) : bool :=
  (lo <=? code c)%nat && (code c <=? hi)%nat.

(** [str.isspace] on ASCII: tab, LF, VT, FF, CR, FS, GS, RS, US, space. *)
Definition isspace (c : ascii) : bool := between 9 13 c || between 28 32 c.
Definition isdigit (c : ascii) : bool := between 48 57 c.
Definition isupper (c : ascii) : bool := between 65 90 c.
Definition islower (c : ascii) : bool := between 97 122 c.
Definition isalpha (c : ascii) : bool := isupper c || islower c.
(** [\w] on ASCII text: letters, digits and the underscore.  (On a [str]
    pattern Python's [\w] also holds the letters and digits outside ASCII;
    see [isascii] below.) *)
Definition isword (c : ascii) : bool :=
  isalpha c || isdigit c || (code c =? 95)%nat.

Definition upper_char (c : ascii) : ascii :=
  if islower c then ascii_of_nat (code c - 32) else c.

Fixpoint upper (s : string) : string :=
  match s with
  | EmptyString => EmptyString
  | String c s' => String (upper_char c) (upper s')
  end.

Definition lower_char (c : ascii) : ascii :=
  if isupper c then ascii_of_nat (code c + 32) else c.

Fixpoint lower (s : string) : string :=
  match s with
  | EmptyString => EmptyString
  | String c s' => String (lower_char c) (lower s')
  end.

Fixpoint lstrip (s : string) : string :=
  match s with
  | EmptyString => EmptyString
  | String c s' => if isspace c then lstrip s' else s
  end.

(** [rstrip] drops the trailing white space: a character is kept when
    something that is kept follows it or it is not white space itself. *)
Fixpoint rstrip (s : string) : string :=
  match s with
  | EmptyString => EmptyString
  | String c s' =>
      match rstrip s' with
      | EmptyString => if isspace c then EmptyString else String c EmptyString
      | t => String c t
      end
  end.

Definition strip (s : string) : string := rstrip (lstrip s).

(** [sub in s]. *)
Fixpoint contains (sub s : string) : bool :=
  String.prefix sub s ||
  match s with
  | EmptyString => false
  | String _ s' => contains sub s'
  end.

(** [s.startswith(p)]. *)
Definition startswith (p s : string) : bool := String.prefix p s.

(** [sep.join(parts)]. *)
Fixpoint join (sep : string) (parts : list string) : string :=
  match parts with
  | [] => ""
  | [p] => p
  | p :: ps => p ++ sep ++ join sep ps
  end.

(** [str(n)] for an [int]. *)
Definition str_of_int (n : Z) : string :=
  NilZero.string_of_int (Z.to_int n).

(** [" " * count]. *)
Fixpoint spaces (count : nat) : string :=
  match count with
  | O => ""
  | S n => String " "%char (spaces n)
  end.

(** A text is the string of the bytes of its UTF-8 encoding.

    [str.isascii()]: every character is below U+0080.  On such a text the
    classes above ([isspace], [isupper], [isword], ...), [upper], [lower]
    and [strip] are Python's; the classes and the case of a character
    outside ASCII are not modelled, and the properties that depend on them
    are stated for ASCII text. *)
Fixpoint isascii (s : string) : bool :=
  match s with
  | EmptyString => true
  | String c s' => (code c <? 128)%nat && isascii s'
  end.

(** [len(s)], the number of characters: every byte of the encoding but the
    continuation bytes [10xxxxxx] starts one. *)
Fixpoint len (s : string) : nat :=
  match s with
  | EmptyString => O
  | String c s' => ((if between 128 191 c then 0 else 1) + len s')%nat
  end.

Fixpoint of_bytes (bytes : list nat) : string :=
  match bytes with
  | [] => EmptyString
  | b :: rest => String (ascii_of_nat b) (of_bytes rest)
  end.

(** The white space outside ASCII ([str.isspace], which [str.strip] goes
    by): U+0085, U+00A0, U+1680, U+2000 to U+200A, U+2028, U+2029, U+202F,
    U+205F and U+3000, encoded. *)
Definition unicode_spaces : list string :=
  map of_bytes
    [[194; 133]; [194; 160]; [225; 154; 128];
     [226; 128; 128]; [226; 128; 129]; [226; 128; 130]; [226; 128; 131];
     [226; 128; 132]; [226; 128; 133]; [226; 128; 134]; [226; 128; 135];
     [226; 128; 136]; [226; 128; 137]; [226; 128; 138];
     [226; 128; 168]; [226; 128; 169]; [226; 128; 175]; [226; 129; 159];
     [227; 128; 128]]%nat.

(** The white space of [s], if any, is ASCII: [strip] above is then
    [str.strip] on [s]. *)
Definition ascii_spaces_only (s : string) : bool :=
  forallb (fun ws => negb (contains ws s)) unicode_spaces.

End Py.

(** ** Regular expressions

    A backtracking matcher in continuation-passing style: alternatives are
    tried in the order Python's [re] tries them and repetition is greedy, so
    the first successful path is Python's match.  Groups record the span
    [(start, end)] they matched. *)

Module Re.

Inductive regex : Type :=
| Eps
| Chr (p : ascii -> bool)          (* one character of a class *)
| Seq (r1 r2 : regex)
| Alt (r1 r2 : regex)              (* r1|r2, r1 first *)
| Star (r : regex)                 (* r*, greedy *)
| WordB                            (* \b *)
| Bos                              (* ^ *)
| Eos                              (* $ *)
| Group (n : nat) (r : regex).     (* the n-th capturing group *)

Record mstate : Type := {
  m_prev : option ascii;           (* the character before the position *)
  m_pos : nat;                     (* the position *)
  m_rest : string;                 (* the text from the position on *)
  m_caps : list (nat * (nat * nat))(* group spans, most recent first *)
}.

Definition advance (c : ascii) (rest' : string) (st : mstate) : mstate :=
  {| m_prev := Some c; m_pos := S (m_pos st); m_rest := rest';
     m_caps := m_caps st |}.

Definition set_cap (n start : nat) (st : mstate) : mstate :=
  {| m_prev := m_prev st; m_pos := m_pos st; m_rest := m_rest st;
     m_caps := (n, (start, m_pos st)) :: m_caps st |}.

Definition opt_word (o : option ascii) : bool :=
  match o with
  | Some c => Py.isword c
  | None => false
  end.

Definition next_char (s : string) : option ascii :=
  match s with
  | EmptyString => None
  | String c _ => Some c
  end.

(** [\b] on ASCII text: exactly one side of the position is a word
    character ([Py.isword]). *)
Definition at_word_boundary (st : mstate) : bool :=
  xorb (opt_word (m_prev st)) (opt_word (next_char (m_rest st))).

(** [$] without MULTILINE: the end, or just before a final newline. *)
Definition at_end (st : mstate) : bool :=
  match m_rest st with
  | EmptyString => true
  | String c EmptyString => (Py.code c =? 10)%nat
  | _ => false
  end.

(** The loop of a greedy star: one more iteration of the body where it
    consumes something, else the continuation.  An iteration consumes at
    least one character, so [fuel] = remaining length + 1 never runs out. *)
Fixpoint star_loop (body : mstate -> (mstate -> option mstate) -> option mstate)
    (fuel : nat) (st : mstate) (k : mstate -> option mstate) : option mstate :=
  match fuel with
  | O => k st
  | S fuel' =>
      match body st (fun st' =>
              if (String.length (m_rest st') <? String.length (m_rest st))%nat
              then star_loop body fuel' st' k
              else None) with
      | Some r => Some r
      | None => k st
      end
  end.

Fixpoint rmatch (r : regex) (st : mstate) (k : mstate -> option mstate)
    {struct r} : option mstate :=
  match r with
  | Eps => k st
  | Chr p =>
      match m_rest st with
      | String c rest' => if p c then k (advance c rest' st) else None
      | EmptyString => None
      end
  | Seq r1 r2 => rmatch r1 st (fun st' => rmatch r2 st' k)
  | Alt r1 r2 =>
      match rmatch r1 st k with
      | Some res => Some res
      | None => rmatch r2 st k
      end
  | Star r' => star_loop (rmatch r') (S (String.length (m_rest st))) st k
  | WordB => if at_word_boundary st then k st else None
  | Bos => match m_prev st with None => k st | Some _ => None end
  | Eos => if at_end st then k st else None
  | Group n r' => rmatch r' st (fun st' => k (set_cap n (m_pos st) st'))
  end.

(** The last character of [d.s] read left to right, [d] when [s] is empty. *)
Fixpoint last_of (d : option ascii) (s : string) : option ascii :=
  match s with
  | EmptyString => d
  | String c s' => last_of (Some c) s'
  end.

(** The state after the matcher has consumed [mid] and [post] remains. *)
Definition skip (mid post : string) (st : mstate) : mstate :=
  {| m_prev := last_of (m_prev st) mid;
     m_pos := m_pos st + String.length mid;
     m_rest := post;
     m_caps := m_caps st |}.

Definition start_state (prev : option ascii) (pos : nat) (rest : string) : mstate :=
  {| m_prev := prev; m_pos := pos; m_rest := rest; m_caps := [] |}.

(** A match object: where the match starts and the state at its end. *)
Definition match_obj : Type := (nat * mstate)%type.

(** [re.match(r, text)]. *)
Definition re_match (r : regex) (text : string) : option match_obj :=
  match rmatch r (start_state None 0 text) Some with
  | Some st => Some (0%nat, st)
  | None => None
  end.

Fixpoint search_from (r : regex) (prev : option ascii) (pos : nat) (rest : string)
    : option match_obj :=
  match rmatch r (start_state prev pos rest) Some with
  | Some st => Some (pos, st)
  | None =>
      match rest with
      | EmptyString => None
      | String c rest' => search_from r (Some c) (S pos) rest'
      end
  end.

(** [re.search(r, text)]: the leftmost match. *)
Definition re_search (r : regex) (text : string) : option match_obj :=
  search_from r None 0 text.

Fixpoint lookup_cap (n : nat) (caps : list (nat * (nat * nat))) : option (nat * nat) :=
  match caps with
  | [] => None
  | (m, span) :: caps' => if (m =? n)%nat then Some span else lookup_cap n caps'
  end.

(** [m.group(n)] for [n >= 1]; [None] when the group took no part. *)
Definition group (text : string) (m : match_obj) (n : nat) : option string :=
  match lookup_cap n (m_caps (snd m)) with
  | Some (s, e) => Some (String.substring s (e - s) text)
  | None => None
  end.

(** [m.group(0)]. *)
Definition group0 (text : string) (m : match_obj) : string :=
  String.substring (fst m) (m_pos (snd m) - fst m) text.

(** [m.end(n)]. *)
Definition group_end (m : match_obj) (n : nat) : option nat :=
  match lookup_cap n (m_caps (snd m)) with
  | Some (_, e) => Some e
  | None => None
  end.

(** Pattern builders. *)
Fixpoint seqs (rs : list regex) : regex :=
  match rs with
  | [] => Eps
  | [r] => r
  | r :: rs' => Seq r (seqs rs')
  end.

Fixpoint alts (r : regex) (rs : list regex) : regex :=
  match rs with
  | [] => r
  | r' :: rs' => Alt r (alts r' rs')
  end.

Definition Opt (r : regex) : regex := Alt r Eps.          (* r? *)
Definition Plus (r : regex) : regex := Seq r (Star r).    (* r+ *)

Fixpoint exactly (n : nat) (r : regex) : regex :=         (* r{n} *)
  match n with
  | O => Eps
  | S n' => Seq r (exactly n' r)
  end.

Fixpoint upto (n : nat) (r : regex) : regex :=            (* r{0,n} *)
  match n with
  | O => Eps
  | S n' => Opt (Seq r (upto n' r))
  end.

Definition repeat (lo hi : nat) (r : regex) : regex :=    (* r{lo,hi} *)
  Seq (exactly lo r) (upto (hi - lo) r).

(** A literal character under [re.IGNORECASE]. *)
Definition chr_i (c : ascii) : regex :=
  Chr (fun x => Ascii.eqb (Py.upper_char x) (Py.upper_char c)).

(** A literal character, case-sensitive. *)
Definition chr (c : ascii) : regex := Chr (Ascii.eqb c).

(** A literal word under [re.IGNORECASE]. *)
Fixpoint lit_i (s : string) : regex :=
  match s with
  | EmptyString => Eps
  | String c s' => Seq (chr_i c) (lit_i s')
  end.

Definition space : regex := Chr Py.isspace.               (* \s *)
Definition digit : regex := Chr Py.isdigit.               (* \d *)
Definition letter_i : regex := Chr Py.isalpha.            (* [A-Z], IGNORECASE *)
Definition capital : regex := Chr Py.isupper.             (* [A-Z] *)
Definition any : regex :=                                 (* . *)
  Chr (fun c => negb (Py.code c =? 10)%nat).

End Re.

(** ** Constants *)

Definition RULING_EPS : Q := 1.
Definition TABLE_LABEL_SEARCH_WINDOW : Q := 60.
Definition TABLE_LABEL_TOP_BAND_RATIO : Q := 15 # 100.
Definition TABLE_EMPTY_CELL_RATIO_MAX : Q := 8 # 10.
Definition LINE_Y_TOLERANCE : Q := 3.
Definition COLUMN_MARGIN_TOLERANCE : Q := 3.
Definition WORD_GAP_MULTIPLIER : Q := 1 # 2.
Definition HEADER_SIZE_DELTA : Q := 1.
Definition SPLIT_CENTER_TOLERANCE_RATIO : Q := 15 # 100.
Definition GUTTER_TOLERANCE : Q := 2.

(** [AMENDMENT_RE = \b(?:UTAH|STATE|AMENDED|MODIFIED|AMENDMENTS)\b],
    IGNORECASE. *)
Definition AMENDMENT_KEYWORDS : list string :=
  ["UTAH"; "STATE"; "AMENDED"; "MODIFIED"; "AMENDMENTS"].

Definition AMENDMENT_RE : Re.regex :=
  Re.seqs [Re.WordB;
           Re.alts (Re.lit_i "UTAH")
             [Re.lit_i "STATE"; Re.lit_i "AMENDED"; Re.lit_i "MODIFIED";
              Re.lit_i "AMENDMENTS"];
           Re.WordB].

(** ** Provenance guard *)

(** [scan_for_amendment_indicators(page_num, header_text, footer_text)]. *)
Definition scan_for_amendment_indicators
    (page_num : Z) (header_text footer_text : string) : result unit :=
  let combined := header_text ++ " " ++ footer_text in
  match Re.re_search AMENDMENT_RE combined with
  | Some m =>
      Raise (format_error "AMENDMENT_SCAN" (Some page_num)
               ("Keyword '" ++ Re.group0 combined m ++ "' detected in header/footer."))
  | None => Return tt
  end.

(** The spec's words: a whole-word, case-insensitive occurrence of [kw] (an
    upper-case keyword) in [text]: [text = pre.mid.post] where [mid] is [kw]
    up to case, no word character ends [pre] and none starts [post]. *)
Definition whole_word_match (kw text : string) : Prop :=
  exists pre mid post,
    text = pre ++ mid ++ post /\ Py.upper mid = kw /\
    Re.opt_word (Re.last_of None pre) = false /\
    Re.opt_word (Re.next_char post) = false.

Fixpoint all_caps (s : string) : bool :=
  match s with
  | EmptyString => true
  | String c s' => Py.isupper c && all_caps s'
  end.

(** ** Lines *)

Inductive Column : Type :=
| left | right | spanning | center_structural | single.

Inductive Role : Type :=
| spanning_header | spanning_reference | role_center_structural.

Definition Column_eqb (a b : Column) : bool :=
  match a, b with
  | left, left | right, right | spanning, spanning
  | center_structural, center_structural | single, single => true
  | _, _ => false
  end.

Definition is_spanning_reference (r : option Role) : bool :=
  match r with
  | Some spanning_reference => true
  | _ => false
  end.

(** A reconstructed line (the dicts built by [words_to_lines]). *)
Record Line : Type := {
  text : string;
  x0 : Q;
  x1 : Q;
  top : Q;
  bottom : Q;
  size_median : option Q;
  bold : bool;
  column : option Column;
  role : option Role
}.

(** ** Header position and style *)

(** The keys of [column_bounds] the header tests read. *)
Record ColumnBounds : Type := {
  left_x0 : Q;
  right_x0_p5 : option Q;
  right_x0_min : option Q;
  page_median_char_width : option Q
}.

(** [header_position_tolerance(column_bounds)]. *)
Definition header_position_tolerance (column_bounds : ColumnBounds) : Q :=
  let tolerance := COLUMN_MARGIN_TOLERANCE in
  match page_median_char_width column_bounds with
  | Some char_width => Qmax tolerance (char_width * 3)
  | None => tolerance
  end.

(** [a or b] on optional floats: [None] and [0.0] are falsy. *)
Definition or_else (a b : option Q) : option Q :=
  match a with
  | Some v => if Qeq_bool v 0 then b else a
  | None => b
  end.

(** [is_header_position_any(line, column_bounds)]. *)
Definition is_header_position_any (line : Line) (column_bounds : ColumnBounds) : bool :=
  let tolerance := header_position_tolerance column_bounds in
  match column line with
  | Some right =>
      match or_else (right_x0_p5 column_bounds) (right_x0_min column_bounds) with
      | None => false
      | Some right_x0 => Qle_bool (Qabs (x0 line - right_x0)) tolerance
      end
  | _ => Qle_bool (Qabs (x0 line - left_x0 column_bounds)) tolerance
  end.

(** [is_header_style(line, body_median_size)]. *)
Definition is_header_style (line : Line) (body_median_size : Q) : bool :=
  match size_median line with
  | None => false
  | Some line_size =>
      if bold line then true
      else Qle_bool (body_median_size + HEADER_SIZE_DELTA) line_size
  end.

(** [passes_header_position_style(line, column_bounds, body_median_size)]. *)
Definition passes_header_position_style
    (line : Line) (column_bounds : ColumnBounds) (body_median_size : Q) : bool :=
  is_header_position_any line column_bounds && is_header_style line body_median_size.

(** ** Section recognizer *)

(** [[A-Z]{1,3}\d{3,4}(?:\.\d+){0,6}], IGNORECASE. *)
Definition HEADING_ID_RE : Re.regex :=
  Re.seqs [Re.repeat 1 3 Re.letter_i;
           Re.repeat 3 4 Re.digit;
           Re.repeat 0 6 (Re.Seq (Re.chr ".") (Re.Plus Re.digit))].

(** [^\s*([A-Z]{1,3}\d{3,4}(?:\.\d+){0,6})\b( .* )$] (group 2 is [.*]),
    IGNORECASE. *)
Definition TRUE_HEADING_RE : Re.regex :=
  Re.seqs [Re.Bos; Re.Star Re.space; Re.Group 1 HEADING_ID_RE; Re.WordB;
           Re.Group 2 (Re.Star Re.any); Re.Eos].

(** [^\s*SECTION\s+([A-Z]{1,3}\d{3,4}(?:\.\d+){0,6})\b], IGNORECASE. *)
Definition SECTION_MARKER_RE : Re.regex :=
  Re.seqs [Re.Bos; Re.Star Re.space; Re.lit_i "SECTION"; Re.Plus Re.space;
           Re.Group 1 HEADING_ID_RE; Re.WordB].

(** [parse_true_section_heading(line_text)]. *)
Definition parse_true_section_heading (line_text : string) : option string :=
  match Re.re_match TRUE_HEADING_RE line_text with
  | None => None
  | Some m =>
      match Re.group_end m 1, Re.group line_text m 1, Re.group line_text m 2 with
      | Some end_idx, Some g1, Some g2 =>
          if match String.get end_idx line_text with
             | Some c => Ascii.eqb c "("
             | None => false
             end
          then None
          else
            match Py.lstrip g2 with
            | EmptyString => None
            | String c _ =>
                if negb (Py.isalpha c) || negb (Py.isupper c) then None
                else Some g1
            end
      | _, _, _ => None
      end
  end.

(** [parse_section_marker_line(line_text)]. *)
Definition parse_section_marker_line (line_text : string) : option string :=
  match Re.re_match SECTION_MARKER_RE line_text with
  | None => None
  | Some m => Re.group line_text m 1
  end.

(** The number of maximal runs of digits of [s]: [len(re.findall(r"\d+", s))].
    [in_run] says whether the previous character was a digit. *)
Fixpoint count_digit_runs (in_run : bool) (s : string) : Z :=
  match s with
  | EmptyString => 0%Z
  | String c s' =>
      if Py.isdigit c
      then ((if in_run then 0 else 1) + count_digit_runs true s')%Z
      else count_digit_runs false s'
  end.

(** [section_id_depth(section_id)]. *)
Definition section_id_depth (section_id : string) : Z :=
  count_digit_runs false section_id.

(** ** Output of sections *)

(** [list(range(a, b))]. *)
Definition py_range (a b : Z) : list Z :=
  map (fun i => (a + Z.of_nat i)%Z) (seq 0 (Z.to_nat (b - a))).

Definition list_Z_eqb (l1 l2 : list Z) : bool :=
  bool_decide (l1 = l2).

Definition en_dash : string :=
  String (ascii_of_nat 226) (String (ascii_of_nat 128) (String (ascii_of_nat 147) "")).

(** [format_pdf_pages(pages)]. *)
Definition format_pdf_pages (pages : list Z) : result string :=
  match pages with
  | [] => Raise (format_error "PDF_PAGE_RANGE" None "No PDF pages provided.")
  | first :: _ =>
      let last_page := List.last pages first in
      if negb (list_Z_eqb pages (py_range first (last_page + 1)%Z))
      then Raise (format_error "PDF_PAGE_RANGE" (Some first)
                    "Non-contiguous PDF page range.")
      else if (List.length pages =? 1)%nat then Return (Py.str_of_int first)
      else Return (Py.str_of_int first ++ en_dash ++ Py.str_of_int last_page)
  end.

(** An open section: an entry of [section_stack]. *)
Record SectionStackEntry : Type := {
  id : string;
  depth : Z;
  lines : list string;
  start_page : Z;
  end_page : Z;
  chapter : string
}.

(** What [write_section] puts into [section_<id>.txt]. *)
Record SectionFile : Type := {
  sf_section_id : string;
  sf_chapter : string;
  sf_pdf_page : string;
  sf_body : list string
}.

(** [write_section(section_id, chapter, pdf_pages, lines)]: the file is
    appended to the files written so far. *)
Definition write_section (section_id chapter : string) (pdf_pages : list Z)
    (body : list string) (files : list SectionFile) : result (list SectionFile) :=
  pages ← format_pdf_pages pdf_pages;
  Return (files ++ [{| sf_section_id := section_id; sf_chapter := chapter;
                       sf_pdf_page := pages; sf_body := body |}])%list.

(** The section variables of [main]: the stack of open sections (head = top,
    [section_stack[-1]]), the ids accepted so far with the page of their
    heading, the counter and the files written. *)
Record SectionState : Type := {
  section_stack : list SectionStackEntry;
  section_occurrences : gmap string Z;
  sections_extracted : Z;
  section_files : list SectionFile
}.

Definition initial_sections : SectionState :=
  {| section_stack := []; section_occurrences := ∅;
     sections_extracted := 0%Z; section_files := [] |}.

(** [entry = section_stack.pop()] followed by [write_section(...)] and the
    increment of the counter. *)
Definition flush_entry (entry : SectionStackEntry) (rest : list SectionStackEntry)
    (st : SectionState) : result SectionState :=
  let pdf_pages := py_range (start_page entry) (end_page entry + 1)%Z in
  files ← write_section (id entry) (chapter entry) pdf_pages (lines entry)
            (section_files st);
  Return {| section_stack := rest;
            section_occurrences := section_occurrences st;
            sections_extracted := (sections_extracted st + 1)%Z;
            section_files := files |}.

(** The loop [while section_stack and new_depth <= section_stack[-1]["depth"]
    and candidate_id != section_stack[-1]["id"]], by recursion on the stack
    that is left. *)
Fixpoint flush_deeper (candidate_id : string) (new_depth : Z)
    (stack : list SectionStackEntry) (st : SectionState) : result SectionState :=
  match stack with
  | [] => Return st
  | entry :: rest =>
      if (new_depth <=? depth entry)%Z && negb (String.eqb candidate_id (id entry))
      then st' ← flush_entry entry rest st; flush_deeper candidate_id new_depth rest st'
      else Return st
  end.

(** A page as the section loop sees it. *)
Record SectionPage : Type := {
  sp_page_num : Z;
  sp_is_toc_page : bool;
  sp_current_chapter : string;
  sp_table_label_entries : list (Q * string);
  sp_table_footnote_tops : list Q
}.

(** [any(abs(line["top"] - label_top) <= LINE_Y_TOLERANCE and
    line["text"] == label_text for label_top, label_text in table_label_entries)]. *)
Definition is_label_line (pg : SectionPage) (line : Line) : bool :=
  existsb (fun e : Q * string =>
             Qle_bool (Qabs (top line - fst e)) LINE_Y_TOLERANCE
             && String.eqb (text line) (snd e))
          (sp_table_label_entries pg).

(** [line["top"] in table_footnote_tops]. *)
Definition in_footnote_tops (pg : SectionPage) (line : Line) : bool :=
  existsb (Qeq_bool (top line)) (sp_table_footnote_tops pg).

(** The body of the loop [for idx, line in enumerate(ordered_lines)] that
    builds the section text. *)
Definition section_line (pg : SectionPage) (st : SectionState) (line : Line)
    : result SectionState :=
  if sp_is_toc_page pg then Return st else
  let candidate_id := parse_true_section_heading (text line) in
  let marker_id := parse_section_marker_line (text line) in
  match marker_id with
  | Some _ =>
      match section_stack st with
      | entry :: rest => flush_entry entry rest st
      | [] => Return st
      end
  | None =>
      match candidate_id with
      | Some candidate_id =>
          if is_spanning_reference (role line) || is_label_line pg line
             || in_footnote_tops pg line
          then Raise (format_error "SECTION_HEADER_SKIPPED" (Some (sp_page_num pg))
                        "Section header line excluded from section text.")
          else if match section_stack st with
                  | entry :: _ => String.eqb candidate_id (id entry)
                  | [] => false
                  end
          then Raise (Plain
                 "SECTION_APPEND_VIOLATION: header text appended to previous section")
          else
            let new_depth := section_id_depth candidate_id in
            st1 ← flush_deeper candidate_id new_depth (section_stack st) st;
            match section_occurrences st1 !! candidate_id with
            | Some prev_pdf =>
                Raise (format_error "SECTION_DUPLICATE" (Some (sp_page_num pg))
                         ("Duplicate section id " ++ candidate_id ++ "."))
            | None =>
                Return {| section_stack :=
                            {| id := candidate_id; depth := new_depth;
                               lines := [text line];
                               start_page := sp_page_num pg;
                               end_page := sp_page_num pg;
                               chapter := sp_current_chapter pg |}
                            :: section_stack st1;
                          section_occurrences :=
                            <[candidate_id := sp_page_num pg]> (section_occurrences st1);
                          sections_extracted := sections_extracted st1;
                          section_files := section_files st1 |}
            end
      | None =>
          if is_spanning_reference (role line) then Return st
          else if is_label_line pg line || in_footnote_tops pg line then Return st
          else
            match section_stack st with
            | entry :: rest =>
                Return {| section_stack :=
                            {| id := id entry; depth := depth entry;
                               lines := (lines entry ++ [text line])%list;
                               start_page := start_page entry;
                               end_page := sp_page_num pg;
                               chapter := chapter entry |} :: rest;
                          section_occurrences := section_occurrences st;
                          sections_extracted := sections_extracted st;
                          section_files := section_files st |}
            | [] => Return st
            end
      end
  end.

(** The whole loop over [ordered_lines]; the first failure ends it. *)
Fixpoint section_lines (pg : SectionPage) (st : SectionState) (ordered_lines : list Line)
    : result SectionState :=
  match ordered_lines with
  | [] => Return st
  | line :: rest => st' ← section_line pg st line; section_lines pg st' rest
  end.

(** After the last page: [while section_stack: entry = section_stack.pop(); ...]. *)
Fixpoint flush_all (stack : list SectionStackEntry) (st : SectionState)
    : result SectionState :=
  match stack with
  | [] => Return st
  | entry :: rest => st' ← flush_entry entry rest st; flush_all rest st'
  end.

(** The states of the section variables that document traversal goes
    through: the initial one, the state after the loop body has handled a
    line, and the state after each single pop-and-write (the steps of the
    flush loops, during a page and after the last one). *)
Inductive section_reachable : SectionState -> Prop :=
| reach_initial : section_reachable initial_sections
| reach_line pg st line st' :
    section_reachable st ->
    section_line pg st line = Return st' ->
    section_reachable st'
| reach_flush entry rest st st' :
    section_reachable st ->
    section_stack st = entry :: rest ->
    flush_entry entry rest st = Return st' ->
    section_reachable st'.

(** The open sections from the bottom of the stack to its top. *)
Definition bottom_to_top (st : SectionState) : list SectionStackEntry :=
  reverse (section_stack st).

(** The spec's words: every entry carries the depth of its id, and of any
    two entries the one nearer the top is strictly deeper. *)
Definition strictly_increasing_depth (st : SectionState) : Prop :=
  (forall i a, bottom_to_top st !! i = Some a -> depth a = section_id_depth (id a)) /\
  (forall i j a b, (i < j)%nat ->
     bottom_to_top st !! i = Some a -> bottom_to_top st !! j = Some b ->
     (depth a < depth b)%Z).

(** The invariant on the stack as stored (head = top): depths decrease from
    the top down, every entry carries the depth of its id, and every id on
    the stack is registered in [section_occurrences]. *)
Definition deeper (a b : SectionStackEntry) : Prop := (depth b < depth a)%Z.

Definition stack_inv (st : SectionState) : Prop :=
  StronglySorted deeper (section_stack st) /\
  Forall (fun e => depth e = section_id_depth (id e)) (section_stack st) /\
  Forall (fun e => is_Some (section_occurrences st !! id e)) (section_stack st).

(** ** Sample inputs for the section loop *)

Definition unwrap {A} (default : A) (m : result A) : A :=
  match m with
  | Return a => a
  | Raise _ => default
  end.

Definition sample_page : SectionPage :=
  {| sp_page_num := 12; sp_is_toc_page := false;
     sp_current_chapter := "Chapter 3";
     sp_table_label_entries := []; sp_table_footnote_tops := [] |}.

Definition body_line (t : string) (x y : Q) : Line :=
  {| text := t; x0 := x; x1 := x + 200; top := y; bottom := y + 10;
     size_median := Some 10%Q; bold := false; column := Some left; role := None |}.

(** Column bounds of a page whose left column starts at 72 pt and whose
    median character width is 5 pt. *)
Definition sample_bounds : ColumnBounds :=
  {| left_x0 := 72; right_x0_p5 := Some 320%Q; right_x0_min := Some 320%Q;
     page_median_char_width := Some 5%Q |}.

(** A line of body size, not bold, indented 128 pt into the left column. *)
Definition indented_plain_line : Line := body_line "R301.1 General." 200 100.

Definition sample_lines : list Line :=
  [body_line "R301 Design criteria." 72 100;
   body_line "Buildings shall be constructed safely." 72 112;
   body_line "R301.1 Application." 72 124;
   body_line "R301.1.1 Alternative provisions." 72 136;
   body_line "R301.2 Climatic criteria." 72 148].

Definition sample_sections : SectionState :=
  unwrap initial_sections (section_lines sample_page initial_sections sample_lines).

(** ** Sorting

    [sorted(xs, key=...)] and [xs.sort(key=...)] are stable: elements with
    equal keys keep their order.  [lt x y] is the strict comparison of the
    keys of [x] and [y]. *)

Section Sorting.
Context {A : Type} (lt : A -> A -> bool).

Fixpoint insert_sorted (x : A) (l : list A) : list A :=
  match l with
  | [] => [x]
  | y :: l' => if lt y x then y :: insert_sorted x l' else x :: l
  end.

Definition sorted_by (l : list A) : list A := foldr insert_sorted [] l.

(** [x] is ranked no higher than [y]. *)
Definition not_above (x y : A) : Prop := lt y x = false.

End Sorting.

(** ** Geometry *)

(** A bounding box [(x0, y0, x1, y1)]. *)
Record BBox : Type := { bx0 : Q; by0 : Q; bx1 : Q; by1 : Q }.

(** A ruling segment. *)
Record Ruling : Type := { r_x0 : Q; r_top : Q; r_x1 : Q; r_bottom : Q }.

(** A word (or a character) of the page. *)
Module Word.
Record t : Type := {
  text : string;
  x0 : Q;
  x1 : Q;
  top : Q;
  bottom : Q;
  size : option Q;
  fontname : option string
}.
End Word.

(** A table candidate as [detect_ruled_tables] returns it. *)
Record TableCandidate : Type := {
  bbox_rotated : BBox;
  h_lines : list Ruling;
  v_lines : list Ruling;
  intersection_count : Z;
  rotation : Z;
  confidence_reason : string
}.

(** ** Table rotation *)

(** An entry of [rotation_results]. *)
Record RotationResult : Type := {
  rr_rotation : Z;
  rr_candidates : list TableCandidate;
  rr_total_intersections : Z;
  rr_total_area : Q;
  rr_orientation_score : Z
}.

Definition bbox_area (b : BBox) : Q :=
  Qmax 0 ((bx1 b - bx0 b) * (by1 b - by0 b)).

(** The entry the loop [for rotation in rotations] appends: the totals are
    computed from the candidates found in that rotation; the orientation
    score is the number of characters of the target angle inside them. *)
Definition rotation_result (rot : Z) (cands : list TableCandidate)
    (orientation_score : Z) : RotationResult :=
  {| rr_rotation := rot;
     rr_candidates := cands;
     rr_total_intersections := fold_left Z.add (map intersection_count cands) 0%Z;
     rr_total_area := fold_left Qplus (map (fun c => bbox_area (bbox_rotated c)) cands) 0%Q;
     rr_orientation_score := orientation_score |}.

(** The strict order of the sort keys
    [(orientation_score, total_intersections, total_area, -rotation)]:
    tuples compare by their first differing component. *)
Definition rotation_key_lt (a b : RotationResult) : bool :=
  if negb (rr_orientation_score a =? rr_orientation_score b)%Z
  then (rr_orientation_score a <? rr_orientation_score b)%Z
  else if negb (rr_total_intersections a =? rr_total_intersections b)%Z
  then (rr_total_intersections a <? rr_total_intersections b)%Z
  else if negb (Qeq_bool (rr_total_area a) (rr_total_area b))
  then negb (Qle_bool (rr_total_area b) (rr_total_area a))
  else (- rr_rotation a <? - rr_rotation b)%Z.

(** The test of a tie between the two best rotations. *)
Definition rotation_tie (best second : RotationResult) : bool :=
  (rr_orientation_score best =? rr_orientation_score second)%Z
  && (rr_total_intersections best =? rr_total_intersections second)%Z
  && Qeq_bool (rr_total_area best) (rr_total_area second).

(** What the selection returns: the debug record's [chosen_rotation] and
    [tie_breaker], the sorted results and the candidates of the chosen
    rotation (none when it has no intersection). *)
Record RotationDecision : Type := {
  rd_rotation_results : list RotationResult;
  rd_chosen_rotation : option Z;
  rd_tie_breaker : option string;
  rd_candidates : list TableCandidate
}.

(** [rotation_results.sort(key=...)]. *)
Definition ranked (rotation_results : list RotationResult) : list RotationResult :=
  sorted_by rotation_key_lt rotation_results.
#[global] Arguments ranked : simpl never.

(** [rotation_results[-1]] and [rotation_results[-2]] after the sort. *)
Definition best_of (rotation_results : list RotationResult) : option RotationResult :=
  head (reverse (ranked rotation_results)).

Definition second_of (rotation_results : list RotationResult) : option RotationResult :=
  head (tail (reverse (ranked rotation_results))).

(** The part of [extract_tables_with_rotation] from the sort of
    [rotation_results] to the choice of the rotation. *)
Definition select_rotation (page_num : Z) (rotation_results : list RotationResult)
    : result RotationDecision :=
  let sorted := ranked rotation_results in
  match best_of rotation_results with
  | None => Raise (Plain "list index out of range")
  | Some best0 =>
      let second := second_of rotation_results in
      best_tie ←
        match second with
        | Some second =>
            if (0 <? rr_total_intersections best0)%Z && rotation_tie best0 second
            then
              if (rr_orientation_score best0 =? 0)%Z
                 && (rr_orientation_score second =? 0)%Z
              then
                Return (match List.find (fun c => (rr_rotation c =? 0)%Z) sorted with
                        | Some candidate => candidate
                        | None => best0
                        end, Some "default_rotation_0")
              else Raise (format_error "TABLE_ROTATION_AMBIGUOUS" (Some page_num)
                            "Multiple rotations yield equal table evidence.")
            else Return (best0, None)
        | None => Return (best0, None)
        end;
      let best := fst best_tie in
      let tie_breaker := snd best_tie in
      if (rr_total_intersections best <=? 0)%Z
      then Return {| rd_rotation_results := sorted; rd_chosen_rotation := None;
                     rd_tie_breaker := tie_breaker; rd_candidates := [] |}
      else Return {| rd_rotation_results := sorted;
                     rd_chosen_rotation := Some (rr_rotation best);
                     rd_tie_breaker := tie_breaker;
                     rd_candidates := rr_candidates best |}
  end.

(** [rotations = [0, 90, 270]]: the three entries in the order the loop
    builds them, from the candidates and the orientation score of each. *)
Definition rotation_results_for
    (at0 at90 at270 : list TableCandidate * Z) : list RotationResult :=
  [rotation_result 0 (fst at0) (snd at0);
   rotation_result 90 (fst at90) (snd at90);
   rotation_result 270 (fst at270) (snd at270)].

(** [main]: [if chosen_rotation is None: chosen_rotation = 0]. *)
Definition effective_rotation (d : RotationDecision) : Z :=
  match rd_chosen_rotation d with
  | Some r => r
  | None => 0
  end.

(** [main]: the warning TABLE_ROTATION_TIE_DEFAULT is recorded when the
    debug record has a tie breaker. *)
Definition rotation_warning (d : RotationDecision) : bool :=
  match rd_tie_breaker d with
  | Some s => negb (String.eqb s "")
  | None => false
  end.

(** Two rotations are tied when they agree on the orientation score, the
    intersection count and the area. *)
Definition tied (best second : RotationResult) : Prop :=
  rr_orientation_score best = rr_orientation_score second /\
  rr_total_intersections best = rr_total_intersections second /\
  rr_total_area best == rr_total_area second.

(** The spec's words on ties: whenever the two best rotations are tied, the
    run defaults to rotation 0 with a warning if both orientation scores
    are 0, and fails with TABLE_ROTATION_AMBIGUOUS otherwise. *)
Definition tie_rule_as_specified (page_num : Z) (rotation_results : list RotationResult)
    : Prop :=
  forall best second,
    best_of rotation_results = Some best ->
    second_of rotation_results = Some second ->
    tied best second ->
    (rr_orientation_score best = 0%Z /\ rr_orientation_score second = 0%Z ->
       exists d, select_rotation page_num rotation_results = Return d /\
                 rotation_warning d = true /\ effective_rotation d = 0%Z) /\
    (~ (rr_orientation_score best = 0%Z /\ rr_orientation_score second = 0%Z) ->
       exists detail, select_rotation page_num rotation_results
                      = Raise (format_error "TABLE_ROTATION_AMBIGUOUS" (Some page_num) detail)).

(** A page without rulings: no rotation has a candidate. *)
Definition no_tables_anywhere : list RotationResult :=
  rotation_results_for ([], 0%Z) ([], 0%Z) ([], 0%Z).

(** ** Numbers *)

Definition Qlt_bool (a b : Q) : bool := negb (Qle_bool b a).

(** [sorted(values)] on floats. *)
Definition sorted_floats (values : list Q) : list Q := sorted_by Qlt_bool values.

(** [median(values)]. *)
Definition median (values : list Q) : result Q :=
  match values with
  | [] => Raise (format_error "MEDIAN_EMPTY" None "Cannot compute median of empty list.")
  | _ =>
      let values_sorted := sorted_floats values in
      let mid := (List.length values_sorted / 2)%nat in
      if (List.length values_sorted mod 2 =? 1)%nat
      then Return (nth mid values_sorted 0%Q)
      else Return ((nth (mid - 1) values_sorted 0%Q + nth mid values_sorted 0%Q) / 2)%Q
  end.

(** [int(round(x))]: Python rounds halves to the even neighbour. *)
Definition py_round (x : Q) : Z :=
  let f := Qfloor x in
  let d := (x - inject_Z f)%Q in
  if Qlt_bool d (1 # 2) then f
  else if Qlt_bool (1 # 2) d then (f + 1)%Z
  else if Z.even f then f else (f + 1)%Z.

(** ** Line reconstruction *)

(** [join_words_with_spacing(words, gap_threshold, median_char_width)];
    [prev_x1] is [None] before the first word. *)
Fixpoint join_words_from (prev_x1 : option Q) (words : list Word.t)
    (gap_threshold median_char_width : Q) : string :=
  match words with
  | [] => ""
  | w :: rest =>
      let gap_text :=
        match prev_x1 with
        | Some p =>
            let gap := (Word.x0 w - p)%Q in
            if Qlt_bool gap_threshold gap
            then Py.spaces (Z.to_nat (Z.max 1 (py_round (gap / median_char_width))))
            else ""
        | None => ""
        end in
      gap_text ++ Word.text w
        ++ join_words_from (Some (Word.x1 w)) rest gap_threshold median_char_width
  end.

Definition join_words_with_spacing (words : list Word.t)
    (gap_threshold median_char_width : Q) : string :=
  join_words_from None words gap_threshold median_char_width.

(** A line under construction: the first word's top, the running bounds
    and the words in the order they were added. *)
Record RawLine : Type := {
  rl_top : Q; rl_bottom : Q; rl_x0 : Q; rl_x1 : Q; rl_words : list Word.t
}.

(** The grouping loop of [words_to_lines]; [acc] holds the lines built so
    far, the most recent first ([lines[-1]] is its head). *)
Fixpoint group_lines (y_tolerance : Q) (acc : list RawLine) (words : list Word.t)
    : list RawLine :=
  match words with
  | [] => reverse acc
  | w :: rest =>
      match acc with
      | cur :: older =>
          if Qlt_bool y_tolerance (Qabs (Word.top w - rl_top cur))
          then group_lines y_tolerance
                 ({| rl_top := Word.top w; rl_bottom := Word.bottom w;
                     rl_x0 := Word.x0 w; rl_x1 := Word.x1 w; rl_words := [w] |}
                  :: acc) rest
          else group_lines y_tolerance
                 ({| rl_top := rl_top cur;
                     rl_bottom := Qmax (rl_bottom cur) (Word.bottom w);
                     rl_x0 := Qmin (rl_x0 cur) (Word.x0 w);
                     rl_x1 := Qmax (rl_x1 cur) (Word.x1 w);
                     rl_words := (rl_words cur ++ [w])%list |}
                  :: older) rest
      | [] =>
          group_lines y_tolerance
            [{| rl_top := Word.top w; rl_bottom := Word.bottom w;
                rl_x0 := Word.x0 w; rl_x1 := Word.x1 w; rl_words := [w] |}] rest
      end
  end.

(** The key [(w["top"], w["x0"])]. *)
Definition word_top_x0_lt (a b : Word.t) : bool :=
  if negb (Qeq_bool (Word.top a) (Word.top b))
  then Qlt_bool (Word.top a) (Word.top b)
  else Qlt_bool (Word.x0 a) (Word.x0 b).

Definition word_x0_lt (a b : Word.t) : bool := Qlt_bool (Word.x0 a) (Word.x0 b).

Definition option_list {A} (o : option A) : list A :=
  match o with
  | Some a => [a]
  | None => []
  end.

Definition is_bold (w : Word.t) : bool :=
  match Word.fontname w with
  | Some f => Py.contains "bold" (Py.lower f)
  | None => false
  end.

(** The second loop of [words_to_lines]: text, median size and bold flag. *)
Definition finish_line (gap_threshold median_char_width : Q) (l : RawLine) : Line :=
  let ws := sorted_by word_x0_lt (rl_words l) in
  let sizes := flat_map (fun w => option_list (Word.size w)) ws in
  {| text := join_words_with_spacing ws gap_threshold median_char_width;
     x0 := rl_x0 l; x1 := rl_x1 l; top := rl_top l; bottom := rl_bottom l;
     size_median := match median sizes with Return m => Some m | Raise _ => None end;
     bold := existsb is_bold ws;
     column := None; role := None |}.

(** [words_to_lines(words, y_tolerance, gap_threshold, median_char_width)]. *)
Definition words_to_lines (words : list Word.t)
    (y_tolerance gap_threshold median_char_width : Q) : list Line :=
  let words_sorted := sorted_by word_top_x0_lt words in
  let lines := group_lines y_tolerance [] words_sorted in
  List.filter (fun l => negb (String.eqb (text l) ""))
    (map (finish_line gap_threshold median_char_width) lines).

(** ** Cell extraction *)

(** The loop of [unique_sorted_positions]: [last] is [merged[-1]]. *)
Fixpoint merge_positions (tolerance last : Q) (values : list Q) : list Q :=
  match values with
  | [] => []
  | value :: rest =>
      if Qlt_bool tolerance (Qabs (value - last))
      then value :: merge_positions tolerance value rest
      else merge_positions tolerance last rest
  end.

(** [unique_sorted_positions(values, tolerance)]. *)
Definition unique_sorted_positions (values : list Q) (tolerance : Q) : list Q :=
  match sorted_floats values with
  | [] => []
  | first :: rest => first :: merge_positions tolerance first rest
  end.

(** [median_char_width_for_words(words)]. *)
Definition median_char_width_for_words (words : list Word.t) : Q :=
  let widths :=
    flat_map (fun w =>
      match Word.text w with
      | EmptyString => []
      | t =>
          let width := ((Word.x1 w - Word.x0 w)
                        / inject_Z (Z.max (Z.of_nat (Py.len t)) 1))%Q in
          if Qlt_bool 0 width then [width] else []
      end) words in
  match median widths with
  | Return m => m
  | Raise _ => 1%Q
  end.

Definition center_x (w : Word.t) : Q := ((Word.x0 w + Word.x1 w) / 2)%Q.
Definition center_y (w : Word.t) : Q := ((Word.top w + Word.bottom w) / 2)%Q.

(** [lo <= x <= hi]. *)
Definition within (lo x hi : Q) : bool := Qle_bool lo x && Qle_bool x hi.

(** The result dict of [extract_table_cells_from_grid]. *)
Record Extraction : Type := {
  ok : bool;
  rows : list (list string);
  columns : list string;
  empty_ratio : Q;
  row_count : Z;
  col_count : Z;
  reason : string
}.

(** The positions of the grid: merged, clipped to the bbox widened by
    [RULING_EPS] and sorted. *)
Definition grid_positions (values : list Q) (lo hi : Q) : list Q :=
  sorted_floats
    (List.filter (fun p => within (lo - RULING_EPS) p (hi + RULING_EPS))
       (unique_sorted_positions values RULING_EPS)).

Definition v_positions (candidate : TableCandidate) : list Q :=
  grid_positions (map r_x0 (v_lines candidate))
    (bx0 (bbox_rotated candidate)) (bx1 (bbox_rotated candidate)).

Definition h_positions (candidate : TableCandidate) : list Q :=
  grid_positions (map r_top (h_lines candidate))
    (by0 (bbox_rotated candidate)) (by1 (bbox_rotated candidate)).

(** The cells [(positions[i], positions[i + 1])] for [i] in
    [range(len(positions) - 1)]. *)
Fixpoint intervals (positions : list Q) : list (Q * Q) :=
  match positions with
  | a :: (b :: _) as rest => (a, b) :: intervals rest
  | _ => []
  end.

Definition words_in_bbox (words : list Word.t) (bbox : BBox) : list Word.t :=
  List.filter (fun w => within (bx0 bbox) (center_x w) (bx1 bbox)
                        && within (by0 bbox) (center_y w) (by1 bbox)) words.

(** The words of one cell. *)
Definition cell_words (words : list Word.t) (xs ys : Q * Q) : list Word.t :=
  List.filter (fun w => within (fst xs) (center_x w) (snd xs)
                        && within (fst ys) (center_y w) (snd ys)) words.

Definition newline : string := String (ascii_of_nat 10) "".

(** The text of one cell. *)
Definition cell_text (cell : list Word.t) : string :=
  match cell with
  | [] => ""
  | _ =>
      let median_width := median_char_width_for_words cell in
      let gap_threshold := (median_width * WORD_GAP_MULTIPLIER)%Q in
      Py.join newline
        (map text (words_to_lines cell LINE_Y_TOLERANCE gap_threshold median_width))
  end.

Definition is_empty_cell (cell : string) : bool :=
  String.eqb (Py.strip cell) "".

(** [extract_table_cells_from_grid(words, candidate, page_num)]. *)
Definition extract_table_cells_from_grid (words : list Word.t)
    (candidate : TableCandidate) (page_num : Z) : Extraction :=
  let bbox := bbox_rotated candidate in
  let vs := v_positions candidate in
  let hs := h_positions candidate in
  if (List.length vs <? 2)%nat || (List.length hs <? 2)%nat
  then {| ok := false; rows := []; columns := []; empty_ratio := 1;
          row_count := 0; col_count := 0; reason := "grid_insufficient" |}
  else
    let inside := words_in_bbox words bbox in
    let all_rows :=
      map (fun ys => map (fun xs => cell_text (cell_words inside xs ys)) (intervals vs))
          (intervals hs) in
    let total_cells := fold_left Z.add (map (fun r => Z.of_nat (List.length r)) all_rows) 0%Z in
    let empty_cells :=
      Z.of_nat (List.length (List.filter is_empty_cell (concat all_rows))) in
    let ratio := if (total_cells =? 0)%Z then 1%Q
                 else (inject_Z empty_cells / inject_Z total_cells)%Q in
    let cols := match all_rows with r :: _ => Z.of_nat (List.length r) | [] => 0%Z end in
    let nrows := Z.of_nat (List.length all_rows) in
    let good := (2 <=? nrows)%Z && (2 <=? cols)%Z
                && Qle_bool ratio TABLE_EMPTY_CELL_RATIO_MAX in
    {| ok := good;
       rows := match all_rows with _ :: _ :: _ => tail all_rows | _ => [] end;
       columns := match all_rows with r :: _ => r | [] => [] end;
       empty_ratio := ratio;
       row_count := nrows;
       col_count := cols;
       reason := if good then "ok" else "degenerate" |}.

(** [merged] holds the positions of [values] merged within [tolerance]:
    positions of [values], in increasing order and more than [tolerance]
    apart, such that every value lies at most [tolerance] above one of them. *)
Definition merged_within (tolerance : Q) (values merged : list Q) : Prop :=
  StronglySorted (fun a b => (a + tolerance < b)%Q) merged /\
  (forall p, In p merged -> In p values) /\
  (forall v, In v values ->
     exists p, In p merged /\ (p <= v)%Q /\ (v <= p + tolerance)%Q).

(** The spec's words on the grid: unique ruling positions with a 0.5 pt
    tolerance, clipped to the bbox. *)
Definition grid_as_specified (candidate : TableCandidate) : Prop :=
  let bbox := bbox_rotated candidate in
  v_positions candidate
  = List.filter (fun p => within (bx0 bbox) p (bx1 bbox))
      (unique_sorted_positions (map r_x0 (v_lines candidate)) (1 # 2)) /\
  h_positions candidate
  = List.filter (fun p => within (by0 bbox) p (by1 bbox))
      (unique_sorted_positions (map r_top (h_lines candidate)) (1 # 2)).

(** ** Sample table grid *)

Definition vertical_at (x : Q) : Ruling :=
  {| r_x0 := x; r_top := 0; r_x1 := x; r_bottom := 40 |}.
Definition horizontal_at (y : Q) : Ruling :=
  {| r_x0 := 0; r_top := y; r_x1 := 100; r_bottom := y |}.

(** A grid 100 pt wide and 40 pt high with vertical rulings at 0, 50, 51
    and 100 pt (a double rule in the middle) and horizontal ones at 0, 20
    and 40 pt. *)
Definition double_rule_candidate : TableCandidate :=
  {| bbox_rotated := {| bx0 := 0; by0 := 0; bx1 := 100; by1 := 40 |};
     h_lines := [horizontal_at 0; horizontal_at 20; horizontal_at 40];
     v_lines := [vertical_at 0; vertical_at 50; vertical_at 51; vertical_at 100];
     intersection_count := 12;
     rotation := 0;
     confidence_reason := "ruled_grid" |}.

Definition word_at (t : string) (x y : Q) : Word.t :=
  {| Word.text := t; Word.x0 := x; Word.x1 := x + 20; Word.top := y;
     Word.bottom := y + 8; Word.size := Some 9%Q; Word.fontname := Some "Arial" |}.

Definition sample_grid_words : list Word.t :=
  [word_at "Zone" 10 5; word_at "Load" 60 5; word_at "A" 10 25; word_at "30" 60 25].

(** ** Column split *)

(** [max(...)] and [min(...)] over a list of floats that the code has
    checked to be non-empty ([0] stands for the empty case, which is not
    reached). *)
Definition max_of (l : list Q) : Q :=
  match l with
  | [] => 0
  | x :: rest => fold_left Qmax rest x
  end.

Definition min_of (l : list Q) : Q :=
  match l with
  | [] => 0
  | x :: rest => fold_left Qmin rest x
  end.

Definition is_nil {A} (l : list A) : bool :=
  match l with
  | [] => true
  | _ => false
  end.

(** [inside_any_table(word, table_bboxes)]. *)
Definition inside_any_table (word : Word.t) (table_bboxes : list BBox) : bool :=
  existsb (fun b => within (bx0 b) (center_x word) (bx1 b)
                    && within (by0 b) (center_y word) (by1 b)) table_bboxes.

(** [^[A-Z]$], case-sensitive. *)
Definition SINGLE_CAPITAL_RE : Re.regex := Re.seqs [Re.Bos; Re.capital; Re.Eos].

Definition is_single_capital (t : string) : bool :=
  match Re.re_match SINGLE_CAPITAL_RE t with
  | Some _ => true
  | None => false
  end.

Definition word_height (w : Word.t) : Q := (Word.bottom w - Word.top w)%Q.

(** [x0 < split_x < x1]. *)
Definition straddles (w : Word.t) (split_x : Q) : bool :=
  Qlt_bool (Word.x0 w) split_x && Qlt_bool split_x (Word.x1 w).

(** [is_center_spanning_token(word, split_x, gutter_left, gutter_right,
    page_width, page_median_word_height, table_bboxes, eps=2.0)]. *)
Definition is_center_spanning_token (word : Word.t)
    (split_x gutter_left gutter_right page_median_word_height : Q)
    (table_bboxes : list BBox) : bool :=
  let eps := 2%Q in
  if negb (is_single_capital (Py.strip (Word.text word))) then false
  else if negb (straddles word split_x) then false
  else if negb (Qle_bool (gutter_left - eps) (Word.x0 word)
                && Qle_bool (Word.x1 word) (gutter_right + eps)) then false
  else if Qlt_bool (word_height word) ((9 # 10) * page_median_word_height) then false
  else if inside_any_table word table_bboxes then false
  else true.

(** The state of the gap scan over [words_sorted[1:]]. *)
Record GapScan : Type := {
  gs_max_x1 : Q;
  gs_best_gap : Q;
  gs_best_left : option Q;
  gs_best_right : option Q;
  gs_gaps : list (Q * Q * Q)
}.

Fixpoint scan_gaps (ws : list Word.t) (s : GapScan) : GapScan :=
  match ws with
  | [] => s
  | w :: rest =>
      let gap := (Word.x0 w - gs_max_x1 s)%Q in
      let better := Qlt_bool (gs_best_gap s) gap in
      scan_gaps rest
        {| gs_max_x1 := Qmax (gs_max_x1 s) (Word.x1 w);
           gs_best_gap := if better then gap else gs_best_gap s;
           gs_best_left := if better then Some (gs_max_x1 s) else gs_best_left s;
           gs_best_right := if better then Some (Word.x0 w) else gs_best_right s;
           gs_gaps := (gs_gaps s ++ [(gap, gs_max_x1 s, Word.x0 w)])%list |}
  end.

Inductive Side : Type := side_left | side_right.

(** [best_left is None or best_right is None or best_gap <= 0.0]. *)
Definition no_gap (best_left best_right : option Q) (best_gap : Q) : bool :=
  match best_left, best_right with
  | Some _, Some _ => Qle_bool best_gap 0
  | _, _ => true
  end.

(** What the function knows before the cross-split check. *)
Record SplitGeometry : Type := {
  sg_split_x : Q;
  sg_best_left : Q;
  sg_best_right : Q;
  sg_relax_cross_check : bool;
  sg_page_median_word_height : Q
}.

(** [detect_column_split] up to the cross-split check. *)
Definition column_split_geometry (words : list Word.t) (page_width : Q)
    (page_num : Z) (table_bboxes : list BBox) : result SplitGeometry :=
  if is_nil words
  then Raise (format_error "COLUMN_SPLIT_MISSING" (Some page_num)
                "No body words available to detect column split.")
  else
  let center := (page_width / 2)%Q in
  let filtered_words :=
    List.filter (fun w => negb (Qlt_bool (Word.x0 w) (center + GUTTER_TOLERANCE)
                                && Qlt_bool (center - GUTTER_TOLERANCE) (Word.x1 w)))
                words in
  let words_for_gap :=
    if (2 <=? List.length filtered_words)%nat then filtered_words else words in
  let words_sorted := sorted_by word_x0_lt words_for_gap in
  let scan :=
    match words_sorted with
    | first :: rest =>
        scan_gaps rest {| gs_max_x1 := Word.x1 first; gs_best_gap := 0;
                          gs_best_left := None; gs_best_right := None;
                          gs_gaps := [] |}
    | [] => {| gs_max_x1 := 0; gs_best_gap := 0; gs_best_left := None;
               gs_best_right := None; gs_gaps := [] |}
    end in
  let gaps := gs_gaps scan in
  let left_cluster := List.filter (fun w => Qlt_bool (Word.x0 w) center) words in
  let right_cluster := List.filter (fun w => Qlt_bool center (Word.x0 w)) words in
  let left_max := max_of (map Word.x1 left_cluster) in
  let right_min := min_of (map Word.x0 right_cluster) in
  (* the single-sided page *)
  let '(best_left, best_right, best_gap, single_side) :=
    if negb (is_nil left_cluster) && is_nil right_cluster
    then (Some left_max, Some center, (center - left_max)%Q, Some side_left)
    else if negb (is_nil right_cluster) && is_nil left_cluster
    then (Some center, Some right_min, (right_min - center)%Q, Some side_right)
    else (gs_best_left scan, gs_best_right scan, gs_best_gap scan, None) in
  (* no gap found by the scan: fall back on the clusters *)
  let '(best_left, best_right, best_gap, single_side) :=
    if no_gap best_left best_right best_gap
    then
      if negb (is_nil left_cluster) && negb (is_nil right_cluster)
      then (Some left_max, Some right_min, (right_min - left_max)%Q, single_side)
      else if negb (is_nil left_cluster) && is_nil right_cluster
      then (Some left_max, Some center, (center - left_max)%Q, Some side_left)
      else if negb (is_nil right_cluster) && is_nil left_cluster
      then (Some center, Some right_min, (right_min - center)%Q, Some side_right)
      else (best_left, best_right, best_gap, single_side)
    else (best_left, best_right, best_gap, single_side) in
  match best_left, best_right with
  | Some best_left, Some best_right =>
      if Qle_bool best_gap 0
      then Raise (format_error "COLUMN_SPLIT_MISSING" (Some page_num)
                    "No candidate gutter gap found.")
      else
      let competing :=
        List.filter (fun g : Q * Q * Q =>
                       let '(gap, l, r) := g in
                       Qeq_bool gap best_gap
                       && negb (Qeq_bool l best_left && Qeq_bool r best_right)) gaps in
      if negb (is_nil competing) && match single_side with None => true | Some _ => false end
      then Raise (format_error "COLUMN_SPLIT_COMPETING" (Some page_num)
                    "Multiple competing gutter gaps of equal width.")
      else
      let split_x := ((best_left + best_right) / 2)%Q in
      let off_center (x : Q) :=
        Qlt_bool (page_width * SPLIT_CENTER_TOLERANCE_RATIO) (Qabs (x - center)) in
      (* the off-center split: recompute from the clusters *)
      recentred ←
        (if match single_side with None => true | Some _ => false end && off_center split_x
         then
           let '(split_x', best_left', best_right', relax) :=
             if negb (is_nil left_cluster) && negb (is_nil right_cluster)
             then
               if Qlt_bool left_max right_min
               then (((left_max + right_min) / 2)%Q, left_max, right_min, false)
               else
                 let left_words := List.filter (fun w => Qle_bool (Word.x1 w) center) words in
                 let right_words := List.filter (fun w => Qle_bool center (Word.x0 w)) words in
                 let left_max_x1 := max_of (map Word.x1 left_words) in
                 let right_min_x0 := min_of (map Word.x0 right_words) in
                 if negb (is_nil left_words) && negb (is_nil right_words)
                    && Qlt_bool left_max_x1 right_min_x0
                 then (center, left_max_x1, right_min_x0, false)
                 else (center, (center - GUTTER_TOLERANCE)%Q,
                       (center + GUTTER_TOLERANCE)%Q, true)
             else (split_x, best_left, best_right, false) in
           if off_center split_x'
           then Raise (format_error "COLUMN_SPLIT_OFFCENTER" (Some page_num)
                         "Split too far from center.")
           else Return (split_x', best_left', best_right', relax)
         else Return (split_x, best_left, best_right, false));
      let '(split_x, best_left, best_right, relax_cross_check) := recentred in
      let left_words := List.filter (fun w => Qlt_bool (Word.x1 w) split_x) words in
      let right_words := List.filter (fun w => Qlt_bool split_x (Word.x0 w)) words in
      let cluster_missing :=
        Raise (format_error "COLUMN_SPLIT_CLUSTER_MISSING" (Some page_num)
                 "Column split does not yield two word clusters.") in
      if is_nil left_words && is_nil right_words then cluster_missing
      else if is_nil right_words
              && Qlt_bool (split_x + GUTTER_TOLERANCE) (max_of (map Word.x1 words))
      then cluster_missing
      else if is_nil left_words
              && Qlt_bool (min_of (map Word.x0 words)) (split_x - GUTTER_TOLERANCE)
      then cluster_missing
      else if negb (is_nil left_words) && negb (is_nil right_words)
              && negb (Qlt_bool (max_of (map Word.x1 left_words)) split_x
                       && Qlt_bool split_x (min_of (map Word.x0 right_words)))
      then Raise (format_error "COLUMN_SPLIT_OVERLAP" (Some page_num)
                    "Column split overlaps body text clusters.")
      else
      let page_median_word_height :=
        match median (map word_height words) with
        | Return m => m
        | Raise _ => 0%Q
        end in
      let center_token_candidates :=
        if Qlt_bool 0 page_median_word_height
        then List.filter (fun w =>
               is_single_capital (Py.strip (Word.text w))
               && straddles w split_x
               && negb (Qlt_bool (word_height w) ((9 # 10) * page_median_word_height))
               && negb (inside_any_table w table_bboxes)) words
        else [] in
      let min_x0 := min_of (map Word.x0 center_token_candidates) in
      let max_x1 := max_of (map Word.x1 center_token_candidates) in
      let widen := negb (is_nil center_token_candidates) in
      Return {| sg_split_x := split_x;
                sg_best_left :=
                  if widen && Qlt_bool min_x0 best_left then min_x0 else best_left;
                sg_best_right :=
                  if widen && Qlt_bool best_right max_x1 then max_x1 else best_right;
                sg_relax_cross_check := relax_cross_check;
                sg_page_median_word_height := page_median_word_height |}
  | _, _ => Raise (format_error "COLUMN_SPLIT_MISSING" (Some page_num)
                     "No candidate gutter gap found.")
  end.

(** The center of a straddling word may be this far from the split. *)
Definition allowed_center_delta (g : SplitGeometry) : Q :=
  (GUTTER_TOLERANCE * (if sg_relax_cross_check g then 2 else 1))%Q.

(** The tests of the cross-split loop that let a straddling word pass. *)
Definition narrow_word (median_char_width : Q) (w : Word.t) : bool :=
  Qle_bool (Word.x1 w - Word.x0 w) (median_char_width * 4).

Definition short_word (median_char_width : Q) (w : Word.t) : bool :=
  (Py.len (Py.strip (Word.text w)) <=? 2)%nat
  && Qle_bool (Word.x1 w - Word.x0 w) (median_char_width * 12).

Definition center_near_split (g : SplitGeometry) (w : Word.t) : bool :=
  Qle_bool (Qabs (center_x w - sg_split_x g)) (allowed_center_delta g).

(** The loop [for w in words] that ends [detect_column_split]. *)
Fixpoint cross_split_check (g : SplitGeometry) (median_char_width : Q)
    (table_bboxes : list BBox) (page_num : Z) (words : list Word.t) : result unit :=
  match words with
  | [] => Return tt
  | w :: rest =>
      if straddles w (sg_split_x g)
         && negb (narrow_word median_char_width w)
         && negb (short_word median_char_width w)
         && negb (is_center_spanning_token w (sg_split_x g) (sg_best_left g)
                    (sg_best_right g) (sg_page_median_word_height g) table_bboxes)
         && negb (center_near_split g w)
      then Raise (format_error "COLUMN_SPLIT_CROSS" (Some page_num)
                    "Body word crosses split position.")
      else cross_split_check g median_char_width table_bboxes page_num rest
  end.

(** [detect_column_split(words, page_width, page_num, median_char_width,
    table_bboxes)]. *)
Definition detect_column_split (words : list Word.t) (page_width : Q) (page_num : Z)
    (median_char_width : Q) (table_bboxes : list BBox) : result (Q * Q * Q) :=
  g ← column_split_geometry words page_width page_num table_bboxes;
  _ ← cross_split_check g median_char_width table_bboxes page_num words;
  Return (sg_split_x g, sg_best_left g, sg_best_right g).



(** ** Sample page for the column split *)

Definition body_word (t : string) (a b : Q) : Word.t :=
  {| Word.text := t; Word.x0 := a; Word.x1 := b; Word.top := 100;
     Word.bottom := 110; Word.size := Some 10%Q; Word.fontname := Some "Times" |}.

(** A page 600 pt wide: a left column ending at 280 pt, a right column
    starting at 320 pt and the word "of" from 296 to 310 pt, 14 pt wide,
    whose center (303 pt) is 3 pt to the right of the split at 300 pt. *)
Definition small_word : Word.t := body_word "of" 296 310.

Definition crossing_words : list Word.t :=
  [body_word "Buildings" 72 280; small_word; body_word "constructed" 320 560].


(** A page where the middle word is 36 pt wide and its center (303 pt) is
    7 pt to the left of the split at 310 pt. *)
Definition wide_crossing_words : list Word.t :=
  [body_word "Buildings" 72 280; body_word "exterior" 285 321;
   body_word "constructed" 340 560].


(** ** Table labels *)

(** A character of [[0-9A-Z]] under IGNORECASE. *)
Definition alnum_i : Re.regex := Re.Chr (fun c => Py.isdigit c || Py.isalpha c).

(** [^TABLE\s+([A-Z]{1,3}\d{3,4}(?:\.\d+)*(?:\([0-9A-Z]+\))?)\b\.?\s*( .* )?$]
    (group 2 is [.*]), IGNORECASE. *)
Definition TABLE_LABEL_RE : Re.regex :=
  Re.seqs [Re.Bos; Re.lit_i "TABLE"; Re.Plus Re.space;
           Re.Group 1
             (Re.seqs [Re.repeat 1 3 Re.letter_i;
                       Re.repeat 3 4 Re.digit;
                       Re.Star (Re.Seq (Re.chr ".") (Re.Plus Re.digit));
                       Re.Opt (Re.seqs [Re.chr "("; Re.Plus alnum_i; Re.chr ")"])]);
           Re.WordB; Re.Opt (Re.chr "."); Re.Star Re.space;
           Re.Opt (Re.Group 2 (Re.Star Re.any)); Re.Eos].

(** [TABLE_LABEL_RE.match(text)]: groups 1 and 2 ([(match.group(2) or "")])
    of the match. *)
Definition table_label_match (t : string) : option (string * string) :=
  match Re.re_match TABLE_LABEL_RE t with
  | None => None
  | Some m =>
      match Re.group t m 1 with
      | Some g1 =>
          Some (g1, match Re.group t m 2 with Some g2 => g2 | None => "" end)
      | None => None
      end
  end.

(** [TABLE_LABEL_RE.match(line["text"].strip())] as a truth value. *)
Definition is_table_label (line : Line) : bool :=
  match table_label_match (Py.strip (text line)) with
  | Some _ => true
  | None => false
  end.

(** [has_continued_marker(label_lines, table_id)]. *)
Definition has_continued_marker (label_lines : list Line) (table_id : string) : bool :=
  let target := Py.upper table_id in
  existsb (fun line =>
             let t := Py.upper (text line) in
             Py.contains "TABLE" t && Py.contains target t
             && Py.contains "CONTINUED" t) label_lines.

(** The carryover test of [main]:
    [any(TABLE_LABEL_RE.match(line["text"].strip()) and
         pending_table["table_id"] in line["text"].upper()
         for line in label_lines_original)]. *)
Definition carryover_label_present (label_lines : list Line) (table_id : string) : bool :=
  existsb (fun line => is_table_label line
                       && Py.contains table_id (Py.upper (text line))) label_lines.

(** ** Label binder *)

(** A label line with the groups of its match. *)
Record Label : Type := {
  label_line : Line;
  label_id : string;       (* match.group(1) *)
  label_title : string     (* match.group(2) or "" *)
}.

(** [overlaps(line)]: [not (line_x1 < x0 or line_x0 > x1)]. *)
Definition overlaps (bbox : BBox) (line : Line) : bool :=
  negb (Qlt_bool (x1 line) (bx0 bbox) || Qlt_bool (bx1 bbox) (x0 line)).

(** The list [labels]. *)
Definition labels_of (label_lines : list Line) (bbox : BBox) : list Label :=
  flat_map (fun line =>
              match table_label_match (Py.strip (text line)) with
              | Some (g1, g2) =>
                  if overlaps bbox line
                  then [{| label_line := line; label_id := g1; label_title := g2 |}]
                  else []
              | None => []
              end) label_lines.

(** [bottom <= y0 and y0 - bottom <= TABLE_LABEL_SEARCH_WINDOW]. *)
Definition is_above (bbox : BBox) (l : Label) : bool :=
  Qle_bool (bottom (label_line l)) (by0 bbox)
  && Qle_bool (by0 bbox - bottom (label_line l)) TABLE_LABEL_SEARCH_WINDOW.

(** [y0 <= top <= y0 + band_height]. *)
Definition in_top_band (bbox : BBox) (l : Label) : bool :=
  let band_height := ((by1 bbox - by0 bbox) * TABLE_LABEL_TOP_BAND_RATIO)%Q in
  within (by0 bbox) (top (label_line l)) (by0 bbox + band_height).

Definition label_bottom_lt (a b : Label) : bool :=
  Qlt_bool (bottom (label_line a)) (bottom (label_line b)).

Definition label_top_lt (a b : Label) : bool :=
  Qlt_bool (top (label_line a)) (top (label_line b)).

Inductive SearchRegion : Type := region_above | region_inside_top_band.

(** The label [chosen] for a bbox, with the region it was found in. *)
Definition choose_label (label_lines : list Line) (bbox : BBox)
    : option (Label * SearchRegion) :=
  let labels := labels_of label_lines bbox in
  let above := List.filter (is_above bbox) labels in
  match above with
  | _ :: _ =>
      match head (reverse (sorted_by label_bottom_lt above)) with
      | Some chosen => Some (chosen, region_above)
      | None => None
      end
  | [] =>
      let inside_band := List.filter (in_top_band bbox) labels in
      match head (sorted_by label_top_lt inside_band) with
      | Some chosen => Some (chosen, region_inside_top_band)
      | None => None
      end
  end.

(** What [find_table_label_for_bbox] returns. *)
Record LabelBinding : Type := {
  lb_table_id : option string;
  lb_title : option string;
  lb_line : option Line;
  lb_continued : bool
}.

(** [find_table_label_for_bbox(label_lines, bbox, page_num)]. *)
Definition find_table_label_for_bbox (label_lines : list Line) (bbox : BBox)
    (page_num : Z) : LabelBinding :=
  match choose_label label_lines bbox with
  | None => {| lb_table_id := None; lb_title := None; lb_line := None;
               lb_continued := false |}
  | Some (chosen, _) =>
      let line := label_line chosen in
      {| lb_table_id := Some (Py.strip (label_id chosen));
         lb_title := Some (Py.strip (label_title chosen));
         lb_line := Some line;
         lb_continued := Py.contains "CONTINUED" (Py.upper (text line)) |}
  end.

(** ** Rotation of boxes *)

(** [rotation_dimensions(width, height, rotation)]. *)
Definition rotation_dimensions (width height : Q) (rot : Z) : Q * Q :=
  if (rot =? 90)%Z || (rot =? 270)%Z then (height, width) else (width, height).

(** [rotate_point(x, y, width, height, rotation)] for the rotations 0, 90
    and 270; [None] is the ROTATION_INVALID failure. *)
Definition rotate_point (x y width height : Q) (rot : Z) : option (Q * Q) :=
  if (rot =? 0)%Z then Some (x, y)
  else if (rot =? 90)%Z then Some ((height - y)%Q, x)
  else if (rot =? 270)%Z then Some (y, (width - x)%Q)
  else None.

(** [rotate_bbox(bbox, width, height, rotation)]. *)
Definition rotate_bbox (bbox : BBox) (width height : Q) (rot : Z) : option BBox :=
  match rotate_point (bx0 bbox) (by0 bbox) width height rot,
        rotate_point (bx1 bbox) (by0 bbox) width height rot,
        rotate_point (bx1 bbox) (by1 bbox) width height rot,
        rotate_point (bx0 bbox) (by1 bbox) width height rot with
  | Some p1, Some p2, Some p3, Some p4 =>
      let xs := [fst p1; fst p2; fst p3; fst p4] in
      let ys := [snd p1; snd p2; snd p3; snd p4] in
      Some {| bx0 := min_of xs; by0 := min_of ys; bx1 := max_of xs; by1 := max_of ys |}
  | _, _, _, _ => None
  end.

(** [unrotate_bbox(bbox, width, height, rotation)]: the inverse rotation is
    90 or 270, which [rotate_point] handles. *)
Definition unrotate_bbox (bbox : BBox) (width height : Q) (rot : Z) : BBox :=
  if (rot =? 0)%Z then bbox
  else
    let '(rot_width, rot_height) := rotation_dimensions width height rot in
    let inverse := if (rot =? 90)%Z then 270%Z else 90%Z in
    match rotate_bbox bbox rot_width rot_height inverse with
    | Some b => b
    | None => bbox
    end.

(** ** Tables of a page and their output *)

(** A retained candidate with its extraction ([tables] in [main]). *)
Record ExtractedTable : Type := {
  table_index : Z;
  candidate : TableCandidate;
  bbox : BBox;                        (* in page coordinates *)
  extraction : Extraction
}.

(** The [metadata] dict of an entry ([md_bbox]) or of a pending table
    ([md_bboxes]). *)
Record TableMetadata : Type := {
  md_bbox : option BBox;
  md_bboxes : option (list BBox);
  md_rotation : Z;
  md_intersection_count : Z;
  md_confidence_reason : string;
  md_continued : bool;
  md_continued_from : option string
}.

(** An element of [table_entries]. *)
Module Entry.
Record t : Type := {
  table_id : string;
  title : string;
  columns : list string;
  rows : list (list string);
  footnotes : list string;
  touches_bottom : bool;
  unlabeled : bool;
  bbox : BBox;
  rotation : Z;
  intersection_count : Z;
  confidence_reason : string;
  continued : bool;
  continued_from : option string
}.
End Entry.

(** [entry["metadata"]]. *)
Definition entry_metadata (e : Entry.t) : TableMetadata :=
  {| md_bbox := Some (Entry.bbox e); md_bboxes := None;
     md_rotation := Entry.rotation e;
     md_intersection_count := Entry.intersection_count e;
     md_confidence_reason := Entry.confidence_reason e;
     md_continued := Entry.continued e;
     md_continued_from := Entry.continued_from e |}.

(** The table carried to the next page. *)
Module Pending.
Record t : Type := {
  table_id : string;
  title : string;
  columns : list string;
  rows : list (list string);
  footnotes : list string;
  pdf_pages : list Z;
  metadata : TableMetadata
}.
End Pending.

(** What [write_table] writes: the lines of [table_<id>.txt], the rows
    handed to [csv.writer] for [table_<id>.csv] and the fields of
    [table_<id>.json]. *)
Record TableFiles : Type := {
  tf_table_id : string;
  tf_txt : list string;
  tf_csv : list (list string);
  tf_json_pdf_pages : list Z;
  tf_json_table_id : string;
  tf_json_title : string;
  tf_json_columns : list string;
  tf_json_rows : list (list string);
  tf_json_footnotes : list string;
  tf_json_metadata : option TableMetadata
}.

(** The lines of the text file. *)
Definition pdf_page_line (pages : string) : string := "PDF_PAGE: " ++ pages.
Definition table_id_line (table_id : string) : string := "TABLE_ID: " ++ table_id.
Definition title_line (title : string) : string := "TITLE: " ++ title.
Definition item_line (item : string) : string := "- " ++ item.
Definition row_line (row : list string) : string := "- " ++ Py.join " | " row.

(** [write_table(table_id, title, pdf_pages, columns, rows, footnotes,
    metadata)]. *)
Definition write_table (table_id title : string) (pdf_pages : list Z)
    (columns : list string) (rows : list (list string)) (footnotes : list string)
    (metadata : option TableMetadata) : result TableFiles :=
  pages ← format_pdf_pages pdf_pages;
  let lines :=
    ([pdf_page_line pages; table_id_line table_id; title_line title; ""; "COLUMNS:"]
     ++ map item_line columns
     ++ [""; "ROWS:"]
     ++ map row_line rows
     ++ [""; "FOOTNOTES:"]
     ++ map item_line footnotes)%list in
  Return {| tf_table_id := table_id;
            tf_txt := lines;
            tf_csv := columns :: rows;
            tf_json_pdf_pages := pdf_pages;
            tf_json_table_id := table_id;
            tf_json_title := title;
            tf_json_columns := columns;
            tf_json_rows := rows;
            tf_json_footnotes := footnotes;
            tf_json_metadata := metadata |}.

(** Warnings added to the page entry by the table block. *)
Inductive Warning : Type :=
| TABLE_LABEL_MISSING (page_num : Z) (bbox : BBox)
| TABLE_CONTINUED_WITHOUT_PRIOR (page_num : Z) (table_id : string)
| TABLE_TITLE_MISSING (page_num : Z) (table_id : string).

(** The table variables of [main]. *)
Record TableState : Type := {
  pending_table : option Pending.t;
  last_table_id_by_base : gmap string string;
  tables_extracted : Z;
  table_files : list TableFiles
}.

Definition initial_tables : TableState :=
  {| pending_table := None; last_table_id_by_base := ∅;
     tables_extracted := 0%Z; table_files := [] |}.

(** A page as the table block sees it. *)
Record TablePage : Type := {
  tp_page_num : Z;
  tp_page_width : Q;
  tp_page_height : Q;
  tp_chosen_rotation : Z;
  tp_tables : list ExtractedTable;
  tp_label_lines_original : list Line;
  tp_rotated_label_lines : list Line;
  tp_ordered_lines : list Line
}.

(** [write_table(pending...)], [tables_extracted += 1],
    [pending_table = None]. *)
Definition finalize_pending (p : Pending.t) (st : TableState) : result TableState :=
  files ← write_table (Pending.table_id p) (Pending.title p) (Pending.pdf_pages p)
            (Pending.columns p) (Pending.rows p) (Pending.footnotes p)
            (Some (Pending.metadata p));
  Return {| pending_table := None;
            last_table_id_by_base := last_table_id_by_base st;
            tables_extracted := (tables_extracted st + 1)%Z;
            table_files := (table_files st ++ [files])%list |}.

Definition continuation_error (page_num : Z) (detail : string) : RuntimeError :=
  format_error "TABLE_CONTINUATION" (Some page_num) detail.

(** The block [if pending_table and not tables] of [main]: a page without
    table grids while a table is pending. *)
Definition page_without_grids (pg : TablePage) (p : Pending.t) (st : TableState)
    : result TableState :=
  let continued_marker_present :=
    has_continued_marker (tp_label_lines_original pg) (Pending.table_id p) in
  let carryover :=
    carryover_label_present (tp_label_lines_original pg) (Pending.table_id p) in
  if continued_marker_present
  then Raise (continuation_error (tp_page_num pg)
                ("Continuation label found without table grid for TABLE "
                 ++ Pending.table_id p ++ "."))
  else if carryover
  then Raise (continuation_error (tp_page_num pg)
                ("Carryover TABLE label found without grid for TABLE "
                 ++ Pending.table_id p ++ "."))
  else finalize_pending p st.

(** [\( .* \)$] (an opening parenthesis, [.*], a closing one, the end). *)
Definition VARIANT_RE : Re.regex :=
  Re.seqs [Re.chr "("; Re.Star Re.any; Re.chr ")"; Re.Eos].

(** [re.sub(r"\(...\)$", "", table_id).strip()]: a match runs to the end of
    the id, so there is at most one. *)
Definition base_id_of (table_id : string) : string :=
  match Re.re_search VARIANT_RE table_id with
  | Some m =>
      Py.strip (String.substring 0 (fst m) table_id ++ Re.m_rest (snd m))
  | None => Py.strip table_id
  end.

(** What the loop [for t in tables] accumulates. *)
Record Binding : Type := {
  bd_last_table_id_by_base : gmap string string;
  bd_warnings : list Warning;
  bd_table_label_entries : list (Q * string);
  bd_table_footnote_tops : list Q;
  bd_table_entries : list Entry.t
}.

Definition footnote_prefixes : list string := ["*"; "a."; "b."; "c."; "For SI:"].

(** The footnote lines below a table: [bbox[3] < top <= bbox[3] + 60] and a
    footnote prefix. *)
Definition footnote_lines (b : BBox) (ordered_lines : list Line) : list Line :=
  List.filter (fun line =>
                 Qlt_bool (by1 b) (top line) && Qle_bool (top line) (by1 b + 60)
                 && existsb (fun p => Py.startswith p (text line)) footnote_prefixes)
              ordered_lines.

(** [clean_cell(cell)]: cells are never [None] here. *)
Definition clean_cell (cell : string) : string := cell.

(** One iteration of the loop [for t in tables]. *)
Definition bind_table (pg : TablePage) (acc : Binding) (t : ExtractedTable) : Binding :=
  let found := find_table_label_for_bbox (tp_rotated_label_lines pg)
                 (bbox_rotated (candidate t)) (tp_page_num pg) in
  let is_unlabeled := match lb_table_id found with None => true | Some _ => false end in
  let table_id0 :=
    match lb_table_id found with
    | Some i => i
    | None => "UNLABELED_P" ++ Py.str_of_int (tp_page_num pg)
              ++ "_T" ++ Py.str_of_int (table_index t)
    end in
  let title := match lb_table_id found, lb_title found with
               | Some _, Some s => s
               | _, _ => ""
               end in
  let warnings1 :=
    if is_unlabeled
    then (bd_warnings acc ++ [TABLE_LABEL_MISSING (tp_page_num pg) (bbox t)])%list
    else bd_warnings acc in
  let base_id := base_id_of table_id0 in
  let prior := bd_last_table_id_by_base acc !! base_id in
  let prior := match prior with
               | Some i => if String.eqb i "" then None else Some i
               | None => None
               end in
  let '(table_id, continued_from, warnings2, last_ids) :=
    if lb_continued found
    then match prior with
         | Some prior_id => (prior_id, Some prior_id, warnings1, bd_last_table_id_by_base acc)
         | None => (table_id0, None,
                    (warnings1 ++ [TABLE_CONTINUED_WITHOUT_PRIOR (tp_page_num pg) table_id0])%list,
                    bd_last_table_id_by_base acc)
         end
    else (table_id0, None, warnings1,
          <[base_id := table_id0]> (bd_last_table_id_by_base acc)) in
  let label_entries :=
    match lb_line found with
    | Some line =>
        let label_bbox_rot := {| bx0 := x0 line; by0 := top line;
                                 bx1 := x1 line; by1 := bottom line |} in
        let label_bbox_orig :=
          unrotate_bbox label_bbox_rot (tp_page_width pg) (tp_page_height pg)
            (tp_chosen_rotation pg) in
        (bd_table_label_entries acc ++ [(by0 label_bbox_orig, text line)])%list
    | None => bd_table_label_entries acc
    end in
  let notes := footnote_lines (bbox t) (tp_ordered_lines pg) in
  {| bd_last_table_id_by_base := last_ids;
     bd_warnings := warnings2;
     bd_table_label_entries := label_entries;
     bd_table_footnote_tops := (bd_table_footnote_tops acc ++ map top notes)%list;
     bd_table_entries :=
       (bd_table_entries acc ++
        [{| Entry.table_id := table_id;
            Entry.title := title;
            Entry.columns := map clean_cell (columns (extraction t));
            Entry.rows := map (map clean_cell) (rows (extraction t));
            Entry.footnotes := map text notes;
            Entry.touches_bottom :=
              Qle_bool (tp_page_height pg - 15) (by1 (bbox t));
            Entry.unlabeled := is_unlabeled;
            Entry.bbox := bbox t;
            Entry.rotation := rotation (candidate t);
            Entry.intersection_count := intersection_count (candidate t);
            Entry.confidence_reason := confidence_reason (candidate t);
            Entry.continued := lb_continued found;
            Entry.continued_from := continued_from |}])%list |}.

(** The loop [for t in tables]. *)
Definition bind_tables (pg : TablePage) (last_ids : gmap string string) : Binding :=
  fold_left (bind_table pg) (tp_tables pg)
    {| bd_last_table_id_by_base := last_ids; bd_warnings := [];
       bd_table_label_entries := []; bd_table_footnote_tops := [];
       bd_table_entries := [] |}.

Definition list_string_eqb (a b : list string) : bool := bool_decide (a = b).

(** [entry] is a continuation match of the pending table [p]. *)
Definition is_continuation_match (p : Pending.t) (continued_marker carryover_label : bool)
    (entry : Entry.t) : bool :=
  String.eqb (Entry.table_id entry) (Pending.table_id p)
  && (continued_marker
      || (list_string_eqb (Entry.columns entry) (Pending.columns p) && carryover_label)).

(** [table_entries.remove(entry)] for the first continuation match. *)
Fixpoint remove_first (f : Entry.t -> bool) (entries : list Entry.t) : list Entry.t :=
  match entries with
  | [] => []
  | e :: rest => if f e then rest else e :: remove_first f rest
  end.

(** The block [if pending_table and table_entries] of [main]: returns the
    state and the entries that are left. *)
Definition continue_pending (pg : TablePage) (p : Pending.t) (st : TableState)
    (table_entries : list Entry.t) : result (TableState * list Entry.t) :=
  let page_num := tp_page_num pg in
  let continued_marker :=
    has_continued_marker (tp_label_lines_original pg) (Pending.table_id p) in
  let carryover_label :=
    carryover_label_present (tp_label_lines_original pg) (Pending.table_id p) in
  let is_match := is_continuation_match p continued_marker carryover_label in
  let continuation_matches := List.filter is_match table_entries in
  if continued_marker && is_nil continuation_matches
  then Raise (continuation_error page_num
                ("Continuation label found without matching grid for TABLE "
                 ++ Pending.table_id p ++ "."))
  else if (1 <? List.length continuation_matches)%nat
  then Raise (continuation_error page_num
                ("Multiple continuation matches for TABLE " ++ Pending.table_id p ++ "."))
  else
    match continuation_matches with
    | entry :: _ =>
        if negb (md_rotation (Pending.metadata p) =? Entry.rotation entry)%Z
        then Raise (continuation_error page_num "Continuation rotation mismatch.")
        else
          let md := Pending.metadata p in
          let merged :=
            {| Pending.table_id := Pending.table_id p;
               Pending.title := Pending.title p;
               Pending.columns := Pending.columns p;
               Pending.rows := (Pending.rows p ++ Entry.rows entry)%list;
               Pending.footnotes := (Pending.footnotes p ++ Entry.footnotes entry)%list;
               Pending.pdf_pages := (Pending.pdf_pages p ++ [page_num])%list;
               Pending.metadata :=
                 {| md_bbox := md_bbox md;
                    md_bboxes := match md_bboxes md with
                                 | Some bs => Some (bs ++ [Entry.bbox entry])%list
                                 | None => None
                                 end;
                    md_rotation := md_rotation md;
                    md_intersection_count := md_intersection_count md;
                    md_confidence_reason := md_confidence_reason md;
                    md_continued := md_continued md;
                    md_continued_from := md_continued_from md |} |} in
          let remaining := remove_first is_match table_entries in
          if negb (Entry.touches_bottom entry)
          then st' ← finalize_pending merged st; Return (st', remaining)
          else Return ({| pending_table := Some merged;
                          last_table_id_by_base := last_table_id_by_base st;
                          tables_extracted := tables_extracted st;
                          table_files := table_files st |}, remaining)
    | [] =>
        if existsb (fun entry => String.eqb (Entry.table_id entry) (Pending.table_id p))
             table_entries
        then Raise (continuation_error page_num
                      ("Table id " ++ Pending.table_id p
                       ++ " reappears without proven continuation."))
        else st' ← finalize_pending p st; Return (st', table_entries)
    end.

(** The loop [for entry in table_entries] that ends the table block: the
    entries that touch the bottom become pending, the others are written. *)
Fixpoint emit_entries (page_num : Z) (table_entries : list Entry.t)
    (st : TableState) (warnings : list Warning) : result (TableState * list Warning) :=
  match table_entries with
  | [] => Return (st, warnings)
  | entry :: rest =>
      let warnings' :=
        if String.eqb (Entry.title entry) "" && negb (Entry.unlabeled entry)
        then (warnings ++ [TABLE_TITLE_MISSING page_num (Entry.table_id entry)])%list
        else warnings in
      if Entry.touches_bottom entry
      then
        match pending_table st with
        | Some _ => Raise (continuation_error page_num
                             "Multiple pending tables on same page.")
        | None =>
            emit_entries page_num rest
              {| pending_table :=
                   Some {| Pending.table_id := Entry.table_id entry;
                           Pending.title := Entry.title entry;
                           Pending.columns := Entry.columns entry;
                           Pending.rows := Entry.rows entry;
                           Pending.footnotes := Entry.footnotes entry;
                           Pending.pdf_pages := [page_num];
                           Pending.metadata :=
                             {| md_bbox := None;
                                md_bboxes := Some [Entry.bbox entry];
                                md_rotation := Entry.rotation entry;
                                md_intersection_count := Entry.intersection_count entry;
                                md_confidence_reason := Entry.confidence_reason entry;
                                md_continued := Entry.continued entry;
                                md_continued_from := Entry.continued_from entry |} |};
                 last_table_id_by_base := last_table_id_by_base st;
                 tables_extracted := tables_extracted st;
                 table_files := table_files st |} warnings'
        end
      else
        files ← write_table (Entry.table_id entry) (Entry.title entry) [page_num]
                  (Entry.columns entry) (Entry.rows entry) (Entry.footnotes entry)
                  (Some (entry_metadata entry));
        emit_entries page_num rest
          {| pending_table := pending_table st;
             last_table_id_by_base := last_table_id_by_base st;
             tables_extracted := (tables_extracted st + 1)%Z;
             table_files := (table_files st ++ [files])%list |} warnings'
  end.

(** What the table block hands to the rest of the page. *)
Record TableBlock : Type := {
  tb_state : TableState;
  tb_warnings : list Warning;
  tb_table_label_entries : list (Q * string);
  tb_table_footnote_tops : list Q
}.

(** The table block of a page in [main]: continuation of the pending table,
    label binding, merging, and output. *)
Definition table_block (pg : TablePage) (st : TableState) : result TableBlock :=
  st1 ←
    match pending_table st, tp_tables pg with
    | Some p, [] => page_without_grids pg p st
    | _, _ => Return st
    end;
  let bound := bind_tables pg (last_table_id_by_base st1) in
  let st2 := {| pending_table := pending_table st1;
                last_table_id_by_base := bd_last_table_id_by_base bound;
                tables_extracted := tables_extracted st1;
                table_files := table_files st1 |} in
  st3_entries ←
    match pending_table st2, bd_table_entries bound with
    | Some p, _ :: _ => continue_pending pg p st2 (bd_table_entries bound)
    | _, _ => Return (st2, bd_table_entries bound)
    end;
  out ← emit_entries (tp_page_num pg) (snd st3_entries) (fst st3_entries)
          (bd_warnings bound);
  Return {| tb_state := fst out; tb_warnings := snd out;
            tb_table_label_entries := bd_table_label_entries bound;
            tb_table_footnote_tops := bd_table_footnote_tops bound |}.

(** After the last page: [if pending_table: raise ...]. *)
Definition end_of_document (st : TableState) : result unit :=
  match pending_table st with
  | Some p =>
      Raise (format_error "TABLE_CONTINUATION"
               (match reverse (Pending.pdf_pages p) with
                | last_page :: _ => Some last_page
                | [] => None
                end)
               ("Unterminated TABLE " ++ Pending.table_id p ++ " at end of document."))
  | None => Return tt
  end.

(** ** Predicates on pages and runs of the table block *)

(** [sub] occurs in [s]. *)
Definition occurs_in (sub s : string) : Prop :=
  exists pre post, s = pre ++ sub ++ post.

(** The page carries a CONTINUED marker for the table: a line whose
    upper-cased text holds TABLE, the upper-cased id and CONTINUED. *)
Definition carries_continued_marker (label_lines : list Line) (table_id : string) : Prop :=
  exists line, In line label_lines /\
    occurs_in "TABLE" (Py.upper (text line)) /\
    occurs_in (Py.upper table_id) (Py.upper (text line)) /\
    occurs_in "CONTINUED" (Py.upper (text line)).

(** The page carries a carryover label for the table: a line that matches
    the TABLE-label pattern and whose upper-cased text holds the id. *)
Definition carries_carryover_label (label_lines : list Line) (table_id : string) : Prop :=
  exists line, In line label_lines /\
    is_table_label line = true /\
    occurs_in table_id (Py.upper (text line)).

(** The number of column headers equals the number of cells of every body
    row. *)
Definition rectangular (cols : list string) (body : list (list string)) : Prop :=
  Forall (fun row => List.length row = List.length cols) body.

(** The three outputs of a table hold the same cells: the CSV rows are the
    header followed by the body rows of the JSON, and the text file lists
    them in the same order. *)
Definition same_cells (f : TableFiles) : Prop :=
  tf_csv f = tf_json_columns f :: tf_json_rows f /\
  exists head_lines notes,
    tf_txt f = (head_lines ++ map item_line (tf_json_columns f)
                ++ [""; "ROWS:"]
                ++ map row_line (tf_json_rows f)
                ++ notes)%list.

(** The tables of a page are the accepted results of
    [extract_table_cells_from_grid]. *)
Definition extracted_page (pg : TablePage) : Prop :=
  forall t, In t (tp_tables pg) ->
    ok (extraction t) = true /\
    exists words,
      extraction t = extract_table_cells_from_grid words (candidate t) (tp_page_num pg).

(** No page line is a CONTINUED marker for the table that is pending. *)
Definition no_continued_marker (pg : TablePage) (st : TableState) : Prop :=
  match pending_table st with
  | Some p => has_continued_marker (tp_label_lines_original pg) (Pending.table_id p) = false
  | None => True
  end.

(** The states of the table variables in a run over consecutive pages whose
    pages satisfy [allowed]: [table_run allowed n st] says that [st] is the
    state before page [n]. *)
Inductive table_run (allowed : TablePage -> TableState -> Prop)
    : Z -> TableState -> Prop :=
| run_start page_start : table_run allowed page_start initial_tables
| run_page n pg st tb :
    table_run allowed n st ->
    tp_page_num pg = n ->
    allowed pg st ->
    table_block pg st = Return tb ->
    table_run allowed (n + 1)%Z (tb_state tb).

(** The spec's words on emitted tables: in every run, every table written
    has the same cells in its three outputs and as many column headers as
    cells in every body row. *)
Definition round_trip_as_specified : Prop :=
  forall n st, table_run (fun pg _ => extracted_page pg) n st ->
    Forall (fun f => same_cells f /\ rectangular (tf_json_columns f) (tf_json_rows f))
           (table_files st).

(** The pages of the pending table are the consecutive pages up to the one
    before page [n]. *)
Definition pending_pages_contiguous (n : Z) (st : TableState) : Prop :=
  match pending_table st with
  | Some p => exists a, (a < n)%Z /\ Pending.pdf_pages p = py_range a n
  | None => True
  end.

(** ** Sample pages for the table block *)

(** A ruled grid of two rows, 40 pt high, whose top is at [y] and whose
    vertical rulings are at [xs]. *)
Definition grid_candidate (y : Q) (xs : list Q) : TableCandidate :=
  {| bbox_rotated := {| bx0 := 0; by0 := y; bx1 := 100; by1 := y + 40 |};
     h_lines := map (fun d => {| r_x0 := 0; r_top := y + d; r_x1 := 100;
                                 r_bottom := y + d |}) [0; 20; 40]%Q;
     v_lines := map (fun x => {| r_x0 := x; r_top := y; r_x1 := x;
                                 r_bottom := y + 40 |}) xs;
     intersection_count := 3 * Z.of_nat (List.length xs);
     rotation := 0;
     confidence_reason := "ruled_grid" |}.

Definition cell_word (t : string) (x y : Q) : Word.t :=
  {| Word.text := t; Word.x0 := x; Word.x1 := x + 10; Word.top := y;
     Word.bottom := y + 8; Word.size := Some 9%Q; Word.fontname := Some "Arial" |}.

(** An unrotated table with its extraction. *)
Definition extracted (idx : Z) (cand : TableCandidate) (words : list Word.t)
    (page_num : Z) : ExtractedTable :=
  {| table_index := idx; candidate := cand; bbox := bbox_rotated cand;
     extraction := extract_table_cells_from_grid words cand page_num |}.

Definition label_at (t : string) (y : Q) : Line :=
  {| text := t; x0 := 0; x1 := 100; top := y; bottom := y + 10;
     size_median := Some 10%Q; bold := true; column := Some single; role := None |}.

(** A page 612 by 792 pt, unrotated. *)
Definition table_page (page_num : Z) (tables : list ExtractedTable)
    (label_lines : list Line) : TablePage :=
  {| tp_page_num := page_num; tp_page_width := 612; tp_page_height := 792;
     tp_chosen_rotation := 0; tp_tables := tables;
     tp_label_lines_original := label_lines;
     tp_rotated_label_lines := label_lines;
     tp_ordered_lines := label_lines |}.

Definition empty_block : TableBlock :=
  {| tb_state := initial_tables; tb_warnings := [];
     tb_table_label_entries := []; tb_table_footnote_tops := [] |}.

(** Page 7: a two-column grid labelled TABLE R302.1 that reaches the bottom
    of the page. *)
Definition two_columns_at_bottom : ExtractedTable :=
  extracted 1 (grid_candidate 740 [0; 50; 100]%Q)
    [cell_word "Wall" 10 745; cell_word "Rating" 60 745;
     cell_word "Exterior" 10 765; cell_word "1h" 60 765] 7.

Definition page7 : TablePage :=
  table_page 7 [two_columns_at_bottom] [label_at "TABLE R302.1 FIRE SEPARATION" 725].

Definition block7 : TableBlock := unwrap empty_block (table_block page7 initial_tables).

(** Page 8 without grids and without a label for the pending table. *)
Definition page8_plain : TablePage :=
  table_page 8 [] [label_at "R302.2 Townhouses." 100].

(** Page 8 with a three-column grid in the middle of the page, labelled as
    the continuation of TABLE R302.1. *)
Definition three_columns : ExtractedTable :=
  extracted 1 (grid_candidate 100 [0; 30; 60; 100]%Q)
    [cell_word "Wall" 10 105; cell_word "Rating" 40 105; cell_word "Distance" 70 105;
     cell_word "Interior" 10 125; cell_word "2h" 40 125; cell_word "5ft" 70 125] 8.

Definition page8_continued : TablePage :=
  table_page 8 [three_columns] [label_at "TABLE R302.1 (CONTINUED)" 85].

Definition block8_continued : TableBlock :=
  unwrap empty_block (table_block page8_continued (tb_state block7)).

(** Page 7 where the caption is written in mixed case, and a page 8 without
    grids that repeats the caption. *)
Definition page7_mixed_case : TablePage :=
  table_page 7 [two_columns_at_bottom] [label_at "Table r302.1 Loads" 725].

Definition block7_mixed_case : TableBlock :=
  unwrap empty_block (table_block page7_mixed_case initial_tables).

Definition page8_mixed_case : TablePage :=
  table_page 8 [] [label_at "Table r302.1 Loads" 100].

(** A page 8 without grids that carries the label of another variant. *)
Definition page8_other_variant : TablePage :=
  table_page 8 [] [label_at "TABLE R302.1(2)" 100].

(** A property of a table: of its id, its pages, its column headers and its
    body rows. *)
Definition TableProperty : Type :=
  string -> list Z -> list string -> list (list string) -> Prop.

(** Invariants of the table variables, for a property [Q] of a table: every
    file written has the same cells in its three outputs and satisfies [Q],
    and so does the pending table.  An entry of page [page_num] is a table of
    that one page. *)
Definition good_file (Q : TableProperty) (f : TableFiles) : Prop :=
  same_cells f /\
  Q (tf_table_id f) (tf_json_pdf_pages f) (tf_json_columns f) (tf_json_rows f).

Definition good_entry (Q : TableProperty) (page_num : Z) (e : Entry.t) : Prop :=
  Q (Entry.table_id e) [page_num] (Entry.columns e) (Entry.rows e).

Definition good_tables (Q : TableProperty) (st : TableState) : Prop :=
  Forall (good_file Q) (table_files st) /\
  match pending_table st with
  | Some p => Q (Pending.table_id p) (Pending.pdf_pages p)
                (Pending.columns p) (Pending.rows p)
  | None => True
  end.

(** Merging a continuation into the pending table keeps [Q] on this page. *)
Definition merge_keeps (Q : TableProperty) (pg : TablePage) (st : TableState) : Prop :=
  forall p e,
    pending_table st = Some p ->
    Q (Pending.table_id p) (Pending.pdf_pages p) (Pending.columns p) (Pending.rows p) ->
    good_entry Q (tp_page_num pg) e ->
    is_continuation_match p
      (has_continued_marker (tp_label_lines_original pg) (Pending.table_id p))
      (carryover_label_present (tp_label_lines_original pg) (Pending.table_id p)) e
    = true ->
    Q (Pending.table_id p) (Pending.pdf_pages p ++ [tp_page_num pg])%list
      (Pending.columns p) (Pending.rows p ++ Entry.rows e)%list.

(** The header count equals the cell count of every body row, whatever the
    id and the pages of the table. *)
Definition always_rectangular : TableProperty :=
  fun _ _ cols body => rectangular cols body.

(** A run with the pages it went over: [table_history allowed pages n st]
    says that [st] is the state before page [n], after the consecutive pages
    [pages]. *)
Inductive table_history (allowed : TablePage -> TableState -> Prop)
    : list TablePage -> Z -> TableState -> Prop :=
| history_start page_start : table_history allowed [] page_start initial_tables
| history_page pages n pg st tb :
    table_history allowed pages n st ->
    tp_page_num pg = n ->
    allowed pg st ->
    table_block pg st = Return tb ->
    table_history allowed (pages ++ [pg])%list (n + 1)%Z (tb_state tb).

(** The continuation pages of the table [table_id] (its pages after the
    first) carry no CONTINUED marker for it. *)
Definition continued_without_marker (pages : list TablePage) (table_id : string)
    (pdf_pages : list Z) : Prop :=
  forall pg, In pg pages -> In (tp_page_num pg) (tail pdf_pages) ->
    has_continued_marker (tp_label_lines_original pg) table_id = false.

(** A table has a page, and it is rectangular when its continuation pages
    carry no CONTINUED marker for it. *)
Definition rectangular_unless_marked (pages : list TablePage) : TableProperty :=
  fun table_id pdf_pages cols body =>
    pdf_pages <> [] /\
    (continued_without_marker pages table_id pdf_pages -> rectangular cols body).

(** Every table on the page is an accepted extraction and no line is a
    CONTINUED marker for the pending table. *)
Definition extracted_unmarked (pg : TablePage) (st : TableState) : Prop :=
  extracted_page pg /\ no_continued_marker pg st.

(** ** The page loop *)

(** The message of a failure: [str(exc)]. *)
Definition page_text (page_num : option Z) : string :=
  match page_num with
  | Some n => Py.str_of_int n
  | None => "UNKNOWN"
  end.

Definition message (e : RuntimeError) : string :=
  match e with
  | format_error rule page_num detail =>
      "RULE=" ++ rule ++ " PDF_PAGE=" ++ page_text page_num ++ " detail=" ++ detail
  | Plain m => m
  end.

(** [ensure_error_context(message, page_num)]: a formatted message that
    names the page is kept, another formatted message is wrapped under its
    rule, a bare message becomes UNHANDLED_EXCEPTION. *)
Definition ensure_error_context (e : RuntimeError) (page_num : Z) : RuntimeError :=
  match e with
  | format_error rule _ _ =>
      if Py.contains ("PDF_PAGE=" ++ Py.str_of_int page_num) (message e)
      then e
      else format_error rule (Some page_num) ("wrapped=" ++ message e)
  | Plain m => format_error "UNHANDLED_EXCEPTION" (Some page_num) ("exception=" ++ m)
  end.

(** [is_table_of_contents_header(text)]. *)
Fixpoint remove_spaces (s : string) : string :=
  match s with
  | EmptyString => EmptyString
  | String c s' => if Py.isspace c then remove_spaces s' else String c (remove_spaces s')
  end.

Definition is_table_of_contents_header (t : string) : bool :=
  Py.contains "TABLEOFCONTENTS" (Py.upper (remove_spaces t)).

(** [CHAPTER_RE = ^CHAPTER\s+([A-Z0-9]+)\b], IGNORECASE. *)
Definition CHAPTER_RE : Re.regex :=
  Re.seqs [Re.Bos; Re.lit_i "CHAPTER"; Re.Plus Re.space;
           Re.Group 1 (Re.Plus alnum_i); Re.WordB].

(** The loop that identifies a chapter change: the first line that matches
    sets [current_chapter]. *)
Fixpoint chapter_of (ordered_lines : list Line) (current_chapter : string) : string :=
  match ordered_lines with
  | [] => current_chapter
  | line :: rest =>
      match Re.re_match CHAPTER_RE (text line) with
      | Some m =>
          match Re.group (text line) m 1 with
          | Some g => "Chapter " ++ g
          | None => chapter_of rest current_chapter
          end
      | None => chapter_of rest current_chapter
      end
  end.

(** A page as the loop of [main] sees it.  The extraction of the primitives,
    the table detector and the line reconstructor are represented by their
    results. *)
Record PageInput : Type := {
  pi_header_text_snippet : string;
  pi_footer_text_snippet : string;
  pi_tables : TablePage
}.

(** The variables of [main] that live across pages. *)
Record DocState : Type := {
  ds_sections : SectionState;
  ds_tables : TableState;
  ds_current_chapter : string
}.

Definition initial_document : DocState :=
  {| ds_sections := initial_sections; ds_tables := initial_tables;
     ds_current_chapter := "Chapter Unknown" |}.

(** The body of the [try] of a page. *)
Definition page_body (pg : PageInput) (st : DocState) : result DocState :=
  let page_num := tp_page_num (pi_tables pg) in
  let ordered_lines := tp_ordered_lines (pi_tables pg) in
  _ ← scan_for_amendment_indicators page_num (pi_header_text_snippet pg)
        (pi_footer_text_snippet pg);
  let is_toc_page := is_table_of_contents_header (pi_header_text_snippet pg) in
  let current_chapter := chapter_of ordered_lines (ds_current_chapter st) in
  tb ← table_block (pi_tables pg) (ds_tables st);
  sections ←
    section_lines
      {| sp_page_num := page_num; sp_is_toc_page := is_toc_page;
         sp_current_chapter := current_chapter;
         sp_table_label_entries := tb_table_label_entries tb;
         sp_table_footnote_tops := tb_table_footnote_tops tb |}
      (ds_sections st) ordered_lines;
  Return {| ds_sections := sections; ds_tables := tb_state tb;
            ds_current_chapter := current_chapter |}.

(** A page of the loop: a failure of the body is re-raised through
    [ensure_error_context]. *)
Definition process_page (pg : PageInput) (st : DocState) : result DocState :=
  match page_body pg st with
  | Return st' => Return st'
  | Raise e => Raise (ensure_error_context e (tp_page_num (pi_tables pg)))
  end.

(** The loop over the pages. *)
Fixpoint process_pages (pages : list PageInput) (st : DocState) : result DocState :=
  match pages with
  | [] => Return st
  | pg :: rest => st' ← process_page pg st; process_pages rest st'
  end.

(** The run: the pages, the check of the pending table and the flush of the
    section stack. *)
Definition run_document (pages : list PageInput) : result DocState :=
  st ← process_pages pages initial_document;
  _ ← end_of_document (ds_tables st);
  sections ← flush_all (section_stack (ds_sections st)) (ds_sections st);
  Return {| ds_sections := sections; ds_tables := ds_tables st;
            ds_current_chapter := ds_current_chapter st |}.

(** The failure is reported under another rule than AMENDMENT_SCAN. *)
Definition other_than_amendment (e : RuntimeError) : Prop :=
  rule_of e <> Some "AMENDMENT_SCAN".

(** The pages are numbered consecutively from [n]. *)
Fixpoint numbered_from (n : Z) (pages : list PageInput) : Prop :=
  match pages with
  | [] => True
  | pg :: rest => tp_page_num (pi_tables pg) = n /\ numbered_from (n + 1) rest
  end.

(** ** Further numeric helpers *)




(** [compute_char_metrics(words, page_num)]: the median character width and
    the gap threshold derived from it. *)
Definition char_widths (words : list Word.t) : list Q :=
  flat_map (fun w =>
    match Word.text w with
    | EmptyString => []
    | t =>
        let width := ((Word.x1 w - Word.x0 w)
                      / inject_Z (Z.max (Z.of_nat (Py.len t)) 1))%Q in
        if Qlt_bool 0 width then [width] else []
    end) words.

Definition compute_char_metrics (words : list Word.t) (page_num : Z) : result (Q * Q) :=
  match char_widths words with
  | [] => Raise (format_error "CHAR_WIDTH_MISSING" (Some page_num)
                   "Cannot derive median char width (no widths).")
  | widths =>
      median_width ← median widths;
      Return (median_width, (median_width * WORD_GAP_MULTIPLIER)%Q)
  end.

Definition RULING_SNAP_GRID : Q := 1 # 2.

(** [snap_value(value)]. *)
Definition snap_value (value : Q) : Q :=
  (inject_Z (py_round (value / RULING_SNAP_GRID)) * RULING_SNAP_GRID)%Q.

(** [x % 360.0] on floats: the result has the sign of the modulus. *)
Definition mod_360 (x : Q) : Q := (x - 360 * inject_Z (Qfloor (x / 360)))%Q.

(** [angle_diff(a, b)]. *)
Definition angle_diff (a b : Q) : Q :=
  let diff := mod_360 (Qabs (a - b)) in
  Qmin diff (360 - diff).

(** [point_in_bbox(x, y, bbox)]. *)
Definition point_in_bbox (x y : Q) (bbox : BBox) : bool :=
  within (bx0 bbox) x (bx1 bbox) && within (by0 bbox) y (by1 bbox).

(** The inner loop of [count_points_in_bboxes]: the first box that holds the
    point ends it. *)
Fixpoint point_in_some_bbox (x y : Q) (bboxes : list BBox) : bool :=
  match bboxes with
  | [] => false
  | bbox :: rest => if point_in_bbox x y bbox then true else point_in_some_bbox x y rest
  end.

Fixpoint count_points_from (count : Z) (points : list (Q * Q)) (bboxes : list BBox) : Z :=
  match points with
  | [] => count
  | (x, y) :: rest =>
      count_points_from (if point_in_some_bbox x y bboxes then count + 1 else count)%Z
        rest bboxes
  end.

(** [count_points_in_bboxes(points, bboxes)]. *)
Definition count_points_in_bboxes (points : list (Q * Q)) (bboxes : list BBox) : Z :=
  if is_nil points || is_nil bboxes then 0%Z
  else count_points_from 0 points bboxes.

(** Two boxes with the same coordinates. *)
Definition same_box (a b : BBox) : Prop :=
  bx0 a == bx0 b /\ by0 a == by0 b /\ bx1 a == bx1 b /\ by1 a == by1 b.

(** The box lies on a page of the given size. *)
Definition box_on_page (b : BBox) (width height : Q) : Prop :=
  (0 <= bx0 b)%Q /\ (bx0 b <= bx1 b)%Q /\ (bx1 b <= width)%Q /\
  (0 <= by0 b)%Q /\ (by0 b <= by1 b)%Q /\ (by1 b <= height)%Q.

(** The lines of the first loop of [words_to_lines], before text, size and
    bold flag are computed. *)
Definition raw_lines (words : list Word.t) (y_tolerance : Q) : list RawLine :=
  group_lines y_tolerance [] (sorted_by word_top_x0_lt words).

(** A raw line is the hull of its words: it has at least one word, its top is
    the top of its first word, every word starts within the tolerance below
    that top, and its sides and bottom are the extremes of its words. *)
Definition line_hull (y_tolerance : Q) (l : RawLine) : Prop :=
  (exists first rest, rl_words l = first :: rest /\ rl_top l = Word.top first) /\
  Forall (fun w => (rl_top l <= Word.top w)%Q /\
                   (Word.top w <= rl_top l + y_tolerance)%Q) (rl_words l) /\
  rl_x0 l = min_of (map Word.x0 (rl_words l)) /\
  rl_x1 l = max_of (map Word.x1 (rl_words l)) /\
  rl_bottom l = max_of (map Word.bottom (rl_words l)).

(** ** The stages of [column_split_geometry]

    The function is one long body; the stages below are its parts, cut at the
    comments of the definition above, so that each can be reasoned about on
    its own ([column_split_geometry_staged] puts them together again). *)

(** [best_left], [best_right], [best_gap] and [single_side]. *)
Definition GapChoice : Type := (option Q * option Q * Q * option Side)%type.

(** The scan of the gaps between the words sorted by [x0]. *)
Definition gap_scan (words : list Word.t) (center : Q) : GapScan :=
  let filtered_words :=
    List.filter (fun w => negb (Qlt_bool (Word.x0 w) (center + GUTTER_TOLERANCE)
                                && Qlt_bool (center - GUTTER_TOLERANCE) (Word.x1 w)))
                words in
  let words_for_gap :=
    if (2 <=? List.length filtered_words)%nat then filtered_words else words in
  match sorted_by word_x0_lt words_for_gap with
  | first :: rest =>
      scan_gaps rest {| gs_max_x1 := Word.x1 first; gs_best_gap := 0;
                        gs_best_left := None; gs_best_right := None;
                        gs_gaps := [] |}
  | [] => {| gs_max_x1 := 0; gs_best_gap := 0; gs_best_left := None;
             gs_best_right := None; gs_gaps := [] |}
  end.

Definition left_cluster_of (words : list Word.t) (center : Q) : list Word.t :=
  List.filter (fun w => Qlt_bool (Word.x0 w) center) words.

Definition right_cluster_of (words : list Word.t) (center : Q) : list Word.t :=
  List.filter (fun w => Qlt_bool center (Word.x0 w)) words.

(** The choice after the scan: a single-sided page overrides the scan. *)
Definition initial_gap (words : list Word.t) (center : Q) (scan : GapScan) : GapChoice :=
  let left_cluster := left_cluster_of words center in
  let right_cluster := right_cluster_of words center in
  let left_max := max_of (map Word.x1 left_cluster) in
  let right_min := min_of (map Word.x0 right_cluster) in
  if negb (is_nil left_cluster) && is_nil right_cluster
  then (Some left_max, Some center, (center - left_max)%Q, Some side_left)
  else if negb (is_nil right_cluster) && is_nil left_cluster
  then (Some center, Some right_min, (right_min - center)%Q, Some side_right)
  else (gs_best_left scan, gs_best_right scan, gs_best_gap scan, None).

(** The fall-back on the clusters when the choice has no gap. *)
Definition fallback_gap (words : list Word.t) (center : Q) (choice : GapChoice)
    : GapChoice :=
  let left_cluster := left_cluster_of words center in
  let right_cluster := right_cluster_of words center in
  let left_max := max_of (map Word.x1 left_cluster) in
  let right_min := min_of (map Word.x0 right_cluster) in
  let '(best_left, best_right, best_gap, single_side) := choice in
  if no_gap best_left best_right best_gap
  then
    if negb (is_nil left_cluster) && negb (is_nil right_cluster)
    then (Some left_max, Some right_min, (right_min - left_max)%Q, single_side)
    else if negb (is_nil left_cluster) && is_nil right_cluster
    then (Some left_max, Some center, (center - left_max)%Q, Some side_left)
    else if negb (is_nil right_cluster) && is_nil left_cluster
    then (Some center, Some right_min, (right_min - center)%Q, Some side_right)
    else (best_left, best_right, best_gap, single_side)
  else (best_left, best_right, best_gap, single_side).

(** The split is farther from the center of the page than the tolerance. *)
Definition off_center (page_width x : Q) : bool :=
  Qlt_bool (page_width * SPLIT_CENTER_TOLERANCE_RATIO) (Qabs (x - page_width / 2)).

(** The off-center split of a two-sided page is recomputed from the
    clusters. *)
Definition recentre (words : list Word.t) (page_width : Q) (page_num : Z)
    (best_left best_right : Q) (single_side : option Side)
    : result (Q * Q * Q * bool) :=
  let center := (page_width / 2)%Q in
  let left_cluster := left_cluster_of words center in
  let right_cluster := right_cluster_of words center in
  let left_max := max_of (map Word.x1 left_cluster) in
  let right_min := min_of (map Word.x0 right_cluster) in
  let split_x := ((best_left + best_right) / 2)%Q in
  if match single_side with None => true | Some _ => false end
     && off_center page_width split_x
  then
    let '(split_x', best_left', best_right', relax) :=
      if negb (is_nil left_cluster) && negb (is_nil right_cluster)
      then
        if Qlt_bool left_max right_min
        then (((left_max + right_min) / 2)%Q, left_max, right_min, false)
        else
          let left_words := List.filter (fun w => Qle_bool (Word.x1 w) center) words in
          let right_words := List.filter (fun w => Qle_bool center (Word.x0 w)) words in
          let left_max_x1 := max_of (map Word.x1 left_words) in
          let right_min_x0 := min_of (map Word.x0 right_words) in
          if negb (is_nil left_words) && negb (is_nil right_words)
             && Qlt_bool left_max_x1 right_min_x0
          then (center, left_max_x1, right_min_x0, false)
          else (center, (center - GUTTER_TOLERANCE)%Q,
                (center + GUTTER_TOLERANCE)%Q, true)
      else (split_x, best_left, best_right, false) in
    if off_center page_width split_x'
    then Raise (format_error "COLUMN_SPLIT_OFFCENTER" (Some page_num)
                  "Split too far from center.")
    else Return (split_x', best_left', best_right', relax)
  else Return (split_x, best_left, best_right, false).

(** The checks of the two clusters and the widening of the gutter by the
    center tokens. *)
Definition split_clusters (words : list Word.t) (page_num : Z)
    (table_bboxes : list BBox) (split_x best_left best_right : Q)
    (relax_cross_check : bool) : result SplitGeometry :=
  let left_words := List.filter (fun w => Qlt_bool (Word.x1 w) split_x) words in
  let right_words := List.filter (fun w => Qlt_bool split_x (Word.x0 w)) words in
  let cluster_missing :=
    Raise (format_error "COLUMN_SPLIT_CLUSTER_MISSING" (Some page_num)
             "Column split does not yield two word clusters.") in
  if is_nil left_words && is_nil right_words then cluster_missing
  else if is_nil right_words
          && Qlt_bool (split_x + GUTTER_TOLERANCE) (max_of (map Word.x1 words))
  then cluster_missing
  else if is_nil left_words
          && Qlt_bool (min_of (map Word.x0 words)) (split_x - GUTTER_TOLERANCE)
  then cluster_missing
  else if negb (is_nil left_words) && negb (is_nil right_words)
          && negb (Qlt_bool (max_of (map Word.x1 left_words)) split_x
                   && Qlt_bool split_x (min_of (map Word.x0 right_words)))
  then Raise (format_error "COLUMN_SPLIT_OVERLAP" (Some page_num)
                "Column split overlaps body text clusters.")
  else
  let page_median_word_height :=
    match median (map word_height words) with
    | Return m => m
    | Raise _ => 0%Q
    end in
  let center_token_candidates :=
    if Qlt_bool 0 page_median_word_height
    then List.filter (fun w =>
           is_single_capital (Py.strip (Word.text w))
           && straddles w split_x
           && negb (Qlt_bool (word_height w) ((9 # 10) * page_median_word_height))
           && negb (inside_any_table w table_bboxes)) words
    else [] in
  let min_x0 := min_of (map Word.x0 center_token_candidates) in
  let max_x1 := max_of (map Word.x1 center_token_candidates) in
  let widen := negb (is_nil center_token_candidates) in
  Return {| sg_split_x := split_x;
            sg_best_left :=
              if widen && Qlt_bool min_x0 best_left then min_x0 else best_left;
            sg_best_right :=
              if widen && Qlt_bool best_right max_x1 then max_x1 else best_right;
            sg_relax_cross_check := relax_cross_check;
            sg_page_median_word_height := page_median_word_height |}.

(** The stages put together. *)
Definition column_split_stages (words : list Word.t) (page_width : Q)
    (page_num : Z) (table_bboxes : list BBox) : result SplitGeometry :=
  if is_nil words
  then Raise (format_error "COLUMN_SPLIT_MISSING" (Some page_num)
                "No body words available to detect column split.")
  else
  let center := (page_width / 2)%Q in
  let scan := gap_scan words center in
  let '(best_left, best_right, best_gap, single_side) :=
    fallback_gap words center (initial_gap words center scan) in
  match best_left, best_right with
  | Some best_left, Some best_right =>
      if Qle_bool best_gap 0
      then Raise (format_error "COLUMN_SPLIT_MISSING" (Some page_num)
                    "No candidate gutter gap found.")
      else
      let competing :=
        List.filter (fun g : Q * Q * Q =>
                       let '(gap, l, r) := g in
                       Qeq_bool gap best_gap
                       && negb (Qeq_bool l best_left && Qeq_bool r best_right))
                    (gs_gaps scan) in
      if negb (is_nil competing) && match single_side with None => true | Some _ => false end
      then Raise (format_error "COLUMN_SPLIT_COMPETING" (Some page_num)
                    "Multiple competing gutter gaps of equal width.")
      else
      recentred ← recentre words page_width page_num best_left best_right single_side;
      let '(split_x, best_left, best_right, relax_cross_check) := recentred in
      split_clusters words page_num table_bboxes split_x best_left best_right
        relax_cross_check
  | _, _ => Raise (format_error "COLUMN_SPLIT_MISSING" (Some page_num)
                     "No candidate gutter gap found.")
  end.

(** The best gap of a choice is the distance between its two sides. *)
Definition gap_inv (choice : GapChoice) : Prop :=
  let '(best_left, best_right, best_gap, single_side) := choice in
  match best_left, best_right with
  | Some l, Some r => best_gap = (r - l)%Q
  | None, None => True
  | _, _ => False
  end.

(** A single-sided page has no word that starts on the other side of the
    center. *)
Definition one_sided (words : list Word.t) (center : Q) : Prop :=
  right_cluster_of words center = [] \/ left_cluster_of words center = [].

(** The rules [column_split_geometry] fails under. *)
Definition geometry_rules : list string :=
  ["COLUMN_SPLIT_MISSING"; "COLUMN_SPLIT_COMPETING"; "COLUMN_SPLIT_OFFCENTER";
   "COLUMN_SPLIT_CLUSTER_MISSING"].

(** What holds of a geometry the function returns. *)
Definition split_in_gutter (words : list Word.t) (page_width : Q) (g : SplitGeometry)
    : Prop :=
  (sg_best_left g <= sg_split_x g)%Q /\ (sg_split_x g <= sg_best_right g)%Q /\
  (sg_best_left g < sg_best_right g)%Q /\
  ((Qabs (sg_split_x g - page_width / 2) <= page_width * SPLIT_CENTER_TOLERANCE_RATIO)%Q
   \/ one_sided words (page_width / 2)).

(** ** Invariants of the section output *)

(** The ids of the section files written and of the sections still open. *)
Definition section_ids (st : SectionState) : list string :=
  (map sf_section_id (section_files st) ++ map id (section_stack st))%list.

(** No id occurs twice among the files and the open sections, every one of
    them is registered in [section_occurrences], and the counter is the number
    of files. *)
Definition written_once (st : SectionState) : Prop :=
  NoDup (section_ids st) /\
  Forall (fun i => is_Some (section_occurrences st !! i)) (section_ids st) /\
  sections_extracted st = Z.of_nat (List.length (section_files st)).

(** The text of a section starts with the heading that opened it and holds
    no other line that parses as a section heading. *)
Definition heading_first (section_id : string) (body : list string) : Prop :=
  exists heading rest,
    body = heading :: rest /\
    parse_true_section_heading heading = Some section_id /\
    Forall (fun l => parse_true_section_heading l = None) rest.

Definition bodies_start_with_heading (st : SectionState) : Prop :=
  Forall (fun f => heading_first (sf_section_id f) (sf_body f)) (section_files st) /\
  Forall (fun e => heading_first (id e) (lines e)) (section_stack st).

(** The file that the flush of an open section writes. *)
Definition file_of_entry (entry : SectionStackEntry) : SectionFile :=
  {| sf_section_id := id entry;
     sf_chapter := chapter entry;
     sf_pdf_page :=
       if (start_page entry =? end_page entry)%Z
       then Py.str_of_int (start_page entry)
       else Py.str_of_int (start_page entry) ++ en_dash
            ++ Py.str_of_int (end_page entry);
     sf_body := lines entry |}.

(** What the section loop keeps. *)
Definition sections_inv (st : SectionState) : Prop :=
  written_once st /\ bodies_start_with_heading st.


(** A page whose header names the state. *)
Definition amended_page : PageInput :=
  {| pi_header_text_snippet := "UTAH STATE CODE";
     pi_footer_text_snippet := "R-12";
     pi_tables := {| tp_page_num := 12; tp_page_width := 612; tp_page_height := 792;
                     tp_chosen_rotation := 0; tp_tables := [];
                     tp_label_lines_original := []; tp_rotated_label_lines := [];
                     tp_ordered_lines := [] |} |}.

Definition amended_failure : RuntimeError :=
  format_error "AMENDMENT_SCAN" (Some 12%Z)
    "Keyword 'UTAH' detected in header/footer.".

(** ** Ruling lines *)

Definition RULING_JOIN_TOLERANCE : Q := 2.

(** [grouped.setdefault(key, []).append(line)], the dict being the list of
    its items in the order of insertion. *)
Fixpoint group_append (key : Q) (line : Ruling) (grouped : list (Q * list Ruling))
    : list (Q * list Ruling) :=
  match grouped with
  | [] => [(key, [line])]
  | (k, items) :: rest =>
      if Qeq_bool k key then (k, (items ++ [line])%list) :: rest
      else (k, items) :: group_append key line rest
  end.

(** [grouped[key]]. *)
Fixpoint group_items (key : Q) (grouped : list (Q * list Ruling)) : list Ruling :=
  match grouped with
  | [] => []
  | (k, items) :: rest => if Qeq_bool k key then items else group_items key rest
  end.

(** The loop over the items of a horizontal group once [current] is set:
    a line that starts within [RULING_JOIN_TOLERANCE] of the end of
    [current] extends it, another one closes it. *)
Fixpoint merge_horizontal (current : Ruling) (items : list Ruling) : list Ruling :=
  match items with
  | [] => [current]
  | line :: rest =>
      if Qle_bool (r_x0 line - r_x1 current) RULING_JOIN_TOLERANCE
      then merge_horizontal
             {| r_x0 := r_x0 current; r_top := r_top current;
                r_x1 := Qmax (r_x1 current) (r_x1 line);
                r_bottom := r_bottom current |} rest
      else current :: merge_horizontal line rest
  end.

(** The same loop over the items of a vertical group. *)
Fixpoint merge_vertical (current : Ruling) (items : list Ruling) : list Ruling :=
  match items with
  | [] => [current]
  | line :: rest =>
      if Qle_bool (r_top line - r_bottom current) RULING_JOIN_TOLERANCE
      then merge_vertical
             {| r_x0 := r_x0 current; r_top := r_top current;
                r_x1 := r_x1 current;
                r_bottom := Qmax (r_bottom current) (r_bottom line) |} rest
      else current :: merge_vertical line rest
  end.

(** [merge_collinear_lines(lines, orientation)]. *)
Definition merge_collinear_lines (lines : list Ruling) (orientation : string)
    : list Ruling :=
  let key_field := if String.eqb orientation "h" then r_top else r_x0 in
  let grouped :=
    fold_left (fun g line => group_append (key_field line) line g) lines [] in
  flat_map
    (fun key =>
       let items := group_items key grouped in
       if String.eqb orientation "h"
       then
         match sorted_by (fun a b => Qlt_bool (r_x0 a) (r_x0 b)) items with
         | [] => []
         | first :: rest => merge_horizontal first rest
         end
       else
         match sorted_by (fun a b => Qlt_bool (r_top a) (r_top b)) items with
         | [] => []
         | first :: rest => merge_vertical first rest
         end)
    (sorted_floats (map fst grouped)).

(** [is_header_position(line, column_bounds)]. *)
Definition is_header_position (line : Line) (column_bounds : ColumnBounds) : bool :=
  Qle_bool (Qabs (x0 line - left_x0 column_bounds)) COLUMN_MARGIN_TOLERANCE.

(** [line] is covered by [m] along the axis of a horizontal ruling. *)
Definition covered_h (line m : Ruling) : Prop :=
  (r_top m == r_top line /\ r_x0 m <= r_x0 line /\ r_x1 line <= r_x1 m)%Q.

Definition covered_v (line m : Ruling) : Prop :=
  (r_x0 m == r_x0 line /\ r_top m <= r_top line /\ r_bottom line <= r_bottom m)%Q.

(** [b] comes after [a] among merged horizontal rulings: on a greater
    [top], or on the same [top] and farther than the tolerance behind the
    end of [a]. *)
Definition apart_h (a b : Ruling) : Prop :=
  (r_top a < r_top b \/
   (r_top a == r_top b /\ RULING_JOIN_TOLERANCE < r_x0 b - r_x1 a))%Q.

Definition apart_v (a b : Ruling) : Prop :=
  (r_x0 a < r_x0 b \/
   (r_x0 a == r_x0 b /\ RULING_JOIN_TOLERANCE < r_top b - r_bottom a))%Q.

(** A heading line at the left margin of the left column. *)
Definition margin_line : Line :=
  {| text := "R301.1 Application."; x0 := 73%Q; x1 := 180%Q; top := 100%Q;
     bottom := 110%Q; size_median := Some 10%Q; bold := true; column := Some left; role := None |}.

Definition margin_bounds : ColumnBounds :=
  {| left_x0 := 72%Q; right_x0_p5 := Some 320%Q; right_x0_min := Some 318%Q;
     page_median_char_width := Some 5%Q |}.

(** Two pieces of one horizontal rule, a second rule below them, and a
    vertical rule. *)
Definition sample_ruling : Ruling :=
  {| r_x0 := 99%Q; r_top := 50%Q; r_x1 := 200%Q; r_bottom := 50%Q |}.

Definition sample_rulings : list Ruling :=
  [ {| r_x0 := 10%Q; r_top := 50%Q; r_x1 := 100%Q; r_bottom := 50%Q |};
    sample_ruling;
    {| r_x0 := 10%Q; r_top := 80%Q; r_x1 := 200%Q; r_bottom := 80%Q |};
    {| r_x0 := 10%Q; r_top := 50%Q; r_x1 := 10%Q; r_bottom := 80%Q |} ].

(** Every id registered in [section_occurrences] is the id of a written
    file or of an open section. *)
Definition registered_ids_known (st : SectionState) : Prop :=
  forall i, is_Some (section_occurrences st !! i) -> In i (section_ids st).

(** A page of body text without tables, and the run over it. *)
Definition text_page : PageInput :=
  {| pi_header_text_snippet := "CHAPTER 3 BUILDING PLANNING";
     pi_footer_text_snippet := "R-12";
     pi_tables := {| tp_page_num := 12; tp_page_width := 612; tp_page_height := 792;
                     tp_chosen_rotation := 0; tp_tables := [];
                     tp_label_lines_original := []; tp_rotated_label_lines := [];
                     tp_ordered_lines := sample_lines |} |}.

Definition text_run : DocState := unwrap initial_document (run_document [text_page]).




(* ===================================================================== *)
(** * Part II: the properties *)
(* ===================================================================== *)

Example scan_utah :
  scan_for_amendment_indicators 7 "2021 IRC Utah Amendments" "page 12"
  = Raise (format_error "AMENDMENT_SCAN" (Some 7%Z)
             "Keyword 'Utah' detected in header/footer.").
Proof. vm_compute. reflexivity. Qed.

Example scan_clean :
  scan_for_amendment_indicators 7 "2021 INTERNATIONAL RESIDENTIAL CODE" "statement 12"
  = Return tt.
Proof. vm_compute. reflexivity. Qed.

(** ** Facts about the matcher *)

Section ReFacts.
Import Re.

Lemma skip_nil st : skip "" (m_rest st) st = st.
Proof. destruct st; unfold skip; simpl. f_equal. lia. Qed.

Lemma skip_advance c mid post rest' st :
  skip mid post (advance c rest' st) = skip (String c mid) post st.
Proof. unfold skip, advance; simpl. f_equal. lia. Qed.

Lemma is_Some_alt r1 r2 st k :
  is_Some (rmatch (Alt r1 r2) st k) <->
  is_Some (rmatch r1 st k) \/ is_Some (rmatch r2 st k).
Proof.
  simpl. destruct (rmatch r1 st k) as [res|] eqn:E.
  - split; [left; eauto | eauto].
  - split; [right; assumption | intros [[x Hx]|H]; [discriminate | assumption]].
Qed.

Lemma upper_nil_inv s : Py.upper s = "" -> s = "".
Proof. destruct s; [reflexivity | discriminate]. Qed.

(** A case-insensitive literal consumes exactly the prefixes that equal it
    up to case. *)
Lemma is_Some_lit_i kw : forall st k,
  is_Some (rmatch (lit_i kw) st k) <->
  exists mid post, m_rest st = mid ++ post /\ Py.upper mid = Py.upper kw /\
                   is_Some (k (skip mid post st)).
Proof.
  induction kw as [|c kw IH]; intros st k; simpl.
  - split.
    + intros H. exists "", (m_rest st). rewrite skip_nil. auto.
    + intros (mid & post & Hr & Hu & Hk).
      apply upper_nil_inv in Hu. subst mid. simpl in Hr. subst post.
      now rewrite skip_nil in Hk.
  - destruct (m_rest st) as [|x rest'] eqn:Er.
    + split; [intros [y Hy]; discriminate |].
      intros (mid & post & Hr & Hu & _).
      destruct mid; simpl in *; discriminate.
    + destruct (Ascii.eqb (Py.upper_char x) (Py.upper_char c)) eqn:Ec.
      * apply Ascii.eqb_eq in Ec. rewrite IH. split.
        -- intros (mid & post & Hr & Hu & Hk). simpl in Hr.
           exists (String x mid), post. simpl. rewrite Hr, Hu, Ec.
           rewrite skip_advance in Hk. auto.
        -- intros (mid & post & Hr & Hu & Hk).
           destruct mid as [|y mid]; simpl in *; [discriminate|].
           injection Hr as -> ->. injection Hu as _ Hu.
           exists mid, post. rewrite skip_advance. auto.
      * split; [intros [y Hy]; discriminate |].
        intros (mid & post & Hr & Hu & _).
        destruct mid as [|y mid]; simpl in *; [discriminate|].
        injection Hr as -> ->. injection Hu as Hc _.
        rewrite Hc, Ascii.eqb_refl in Ec. discriminate.
Qed.

(** Searching tries every split of the text, left to right. *)
Lemma is_Some_search_from r : forall rest prev pos,
  is_Some (search_from r prev pos rest) <->
  exists pre post, rest = pre ++ post /\
    is_Some (rmatch r (start_state (last_of prev pre) (pos + String.length pre) post) Some).
Proof.
  induction rest as [|c rest IH]; intros prev pos; simpl.
  - destruct (rmatch r (start_state prev pos "") Some) as [st|] eqn:E.
    + split; [|eauto]. intros _. exists "", "". simpl.
      rewrite Nat.add_0_r, E. eauto.
    + split; [intros [y Hy]; discriminate|].
      intros (pre & post & Hr & Hm).
      destruct pre; simpl in Hr; [|discriminate]. subst post. simpl in Hm.
      rewrite Nat.add_0_r, E in Hm. destruct Hm; discriminate.
  - destruct (rmatch r (start_state prev pos (String c rest)) Some) as [st|] eqn:E.
    + split; [|eauto]. intros _. exists "", (String c rest). simpl.
      rewrite Nat.add_0_r, E. eauto.
    + rewrite IH. split.
      * intros (pre & post & Hr & Hm). exists (String c pre), post. simpl.
        rewrite Hr. split; [reflexivity|].
        rewrite Nat.add_succ_r. exact Hm.
      * intros (pre & post & Hr & Hm). destruct pre as [|x pre]; simpl in *.
        -- subst post. rewrite Nat.add_0_r, E in Hm. destruct Hm; discriminate.
        -- injection Hr as -> ->. exists pre, post. split; [reflexivity|].
           rewrite Nat.add_succ_r in Hm. exact Hm.
Qed.

End ReFacts.

(** ** Substrings *)

Section Substrings.

Lemma append_assoc (a b c : string) : (a ++ b) ++ c = a ++ (b ++ c).
Proof. induction a as [|x a IH]; simpl; [reflexivity | now rewrite IH]. Qed.

Lemma prefix_iff sub : forall s,
  String.prefix sub s = true <-> exists post, s = sub ++ post.
Proof.
  induction sub as [|c sub IH]; intros s.
  - split; [eauto | destruct s; reflexivity].
  - destruct s as [|d s]; simpl.
    + split; [discriminate | intros [post H]; discriminate].
    + destruct (ascii_dec c d) as [->|Hne].
      * rewrite IH. split; intros [post H]; exists post.
        -- now rewrite H.
        -- now injection H.
      * split; [discriminate | intros [post H]]. injection H as H _. congruence.
Qed.

Lemma contains_iff sub : forall s, Py.contains sub s = true <-> occurs_in sub s.
Proof.
  unfold occurs_in. induction s as [|c s IH]; cbn [Py.contains].
  - rewrite orb_false_r, prefix_iff. split.
    + intros [post H]. exists "", post. exact H.
    + intros (pre & post & H). destruct pre; [eauto|discriminate].
  - rewrite orb_true_iff, prefix_iff, IH. split.
    + intros [[post H]|(pre & post & H)].
      * exists "", post. exact H.
      * exists (String c pre), post. simpl. now rewrite H.
    + intros (pre & post & H). destruct pre as [|d pre]; simpl in H.
      * left. eauto.
      * right. injection H as _ H. eauto.
Qed.

Lemma has_continued_marker_iff label_lines table_id :
  has_continued_marker label_lines table_id = true <->
  carries_continued_marker label_lines table_id.
Proof.
  unfold has_continued_marker, carries_continued_marker.
  rewrite existsb_exists. split.
  - intros (line & Hin & H). apply andb_prop in H as [H H3].
    apply andb_prop in H as [H1 H2].
    exists line. now rewrite <- !contains_iff.
  - intros (line & Hin & H1 & H2 & H3). exists line. split; [exact Hin|].
    apply contains_iff in H1, H2, H3. now rewrite H1, H2, H3.
Qed.

Lemma carryover_label_present_iff label_lines table_id :
  carryover_label_present label_lines table_id = true <->
  carries_carryover_label label_lines table_id.
Proof.
  unfold carryover_label_present, carries_carryover_label.
  rewrite existsb_exists. split.
  - intros (line & Hin & H). apply andb_prop in H as [H1 H2].
    exists line. now rewrite <- contains_iff.
  - intros (line & Hin & H1 & H2). exists line. split; [exact Hin|].
    apply contains_iff in H2. now rewrite H1, H2.
Qed.

End Substrings.

(** ** The page loop *)

Section PageLoop.

(** A failure tagged with the page keeps its message. *)
Lemma ensure_error_context_same_page rule n detail :
  ensure_error_context (format_error rule (Some n) detail) n
  = format_error rule (Some n) detail.
Proof.
  unfold ensure_error_context.
  assert (H : Py.contains ("PDF_PAGE=" ++ Py.str_of_int n)
                (message (format_error rule (Some n) detail)) = true).
  { apply contains_iff. exists ("RULE=" ++ rule ++ " "), (" detail=" ++ detail).
    cbn [message page_text]. rewrite !append_assoc. reflexivity. }
  now rewrite H.
Qed.


(** A failure of the table block tagged with the page fails the page when
    the amendment scan has passed. *)
Lemma process_page_table_failure pg st rule detail :
  scan_for_amendment_indicators (tp_page_num (pi_tables pg))
    (pi_header_text_snippet pg) (pi_footer_text_snippet pg) = Return tt ->
  table_block (pi_tables pg) (ds_tables st)
  = Raise (format_error rule (Some (tp_page_num (pi_tables pg))) detail) ->
  process_page pg st
  = Raise (format_error rule (Some (tp_page_num (pi_tables pg))) detail).
Proof.
  intros Hs Ht. unfold process_page, page_body. rewrite Hs. cbn [mbind result_bind].
  rewrite Ht. cbn [mbind result_bind]. now rewrite ensure_error_context_same_page.
Qed.

End PageLoop.

(** ** Failures of the page body *)

Section PageFailures.

Lemma bind_Raise_inv {A B} (m : result A) (f : A -> result B) e :
  (m ≫= f) = Raise e -> m = Raise e \/ exists a, m = Return a /\ f a = Raise e.
Proof.
  destruct m as [a|e']; simpl; intros H; [right; eauto|].
  left. injection H as <-. reflexivity.
Qed.

Ltac other_rule H :=
  injection H as <-; unfold other_than_amendment; simpl; discriminate.

Lemma format_pdf_pages_failure pages e :
  format_pdf_pages pages = Raise e -> other_than_amendment e.
Proof.
  unfold format_pdf_pages. destruct pages as [|first rest]; [intros H; other_rule H|].
  destruct (negb _); [intros H; other_rule H|].
  destruct (_ =? _)%nat; discriminate.
Qed.

Lemma write_section_failure i c pages body files e :
  write_section i c pages body files = Raise e -> other_than_amendment e.
Proof.
  unfold write_section. intros H.
  apply bind_Raise_inv in H as [H|(a & _ & H)]; [|discriminate].
  eapply format_pdf_pages_failure, H.
Qed.

Lemma flush_entry_failure entry rest st e :
  flush_entry entry rest st = Raise e -> other_than_amendment e.
Proof.
  unfold flush_entry. intros H.
  apply bind_Raise_inv in H as [H|(a & _ & H)]; [|discriminate].
  eapply write_section_failure, H.
Qed.

Lemma flush_deeper_failure cid d : forall stack st e,
  flush_deeper cid d stack st = Raise e -> other_than_amendment e.
Proof.
  induction stack as [|entry rest IH]; intros st e H; simpl in H; [discriminate|].
  destruct (_ && _); [|discriminate].
  apply bind_Raise_inv in H as [H|(st1 & _ & H)].
  - eapply flush_entry_failure, H.
  - eapply IH, H.
Qed.

Lemma section_line_failure pg st line e :
  section_line pg st line = Raise e ->
  other_than_amendment (ensure_error_context e (sp_page_num pg)).
Proof.
  unfold section_line. intros H.
  assert (Hkeep : forall e', other_than_amendment e' ->
            other_than_amendment (ensure_error_context e' (sp_page_num pg))).
  { intros [rule p d|m] He'; unfold ensure_error_context.
    - destruct (Py.contains _ _); [exact He'|]. exact He'.
    - unfold other_than_amendment. simpl. discriminate. }
  destruct (sp_is_toc_page pg); [discriminate|].
  destruct (parse_section_marker_line _).
  { destruct (section_stack st); [discriminate|].
    eapply Hkeep, flush_entry_failure, H. }
  destruct (parse_true_section_heading _) as [cid|].
  - destruct (_ || _); [injection H as <-; apply Hkeep; unfold other_than_amendment;
                        simpl; discriminate|].
    destruct (match section_stack st with [] => false | _ => _ end).
    { injection H as <-. unfold other_than_amendment. simpl. discriminate. }
    apply bind_Raise_inv in H as [H|(st1 & _ & H)].
    + eapply Hkeep, flush_deeper_failure, H.
    + destruct (_ !! _); [|discriminate]. injection H as <-.
      apply Hkeep. unfold other_than_amendment. simpl. discriminate.
  - destruct (is_spanning_reference _); [discriminate|].
    destruct (_ || _); [discriminate|].
    destruct (section_stack st); discriminate.
Qed.

Lemma section_lines_failure pg : forall ordered_lines st e,
  section_lines pg st ordered_lines = Raise e ->
  other_than_amendment (ensure_error_context e (sp_page_num pg)).
Proof.
  induction ordered_lines as [|line rest IH]; intros st e H; simpl in H; [discriminate|].
  apply bind_Raise_inv in H as [H|(st1 & _ & H)].
  - eapply section_line_failure, H.
  - eapply IH, H.
Qed.

Lemma write_table_failure i t pages cols body notes md e :
  write_table i t pages cols body notes md = Raise e -> other_than_amendment e.
Proof.
  unfold write_table. intros H.
  apply bind_Raise_inv in H as [H|(a & _ & H)]; [|discriminate].
  eapply format_pdf_pages_failure, H.
Qed.

Lemma finalize_pending_failure p st e :
  finalize_pending p st = Raise e -> other_than_amendment e.
Proof.
  unfold finalize_pending. intros H.
  apply bind_Raise_inv in H as [H|(a & _ & H)]; [|discriminate].
  eapply write_table_failure, H.
Qed.

Lemma page_without_grids_failure pg p st e :
  page_without_grids pg p st = Raise e -> other_than_amendment e.
Proof.
  unfold page_without_grids, continuation_error. intros H.
  destruct (has_continued_marker _ _); [other_rule H|].
  destruct (carryover_label_present _ _); [other_rule H|].
  eapply finalize_pending_failure, H.
Qed.

Lemma continue_pending_failure pg p st entries e :
  continue_pending pg p st entries = Raise e -> other_than_amendment e.
Proof.
  unfold continue_pending, continuation_error. intros H.
  destruct (_ && is_nil _); [other_rule H|].
  destruct (1 <? _)%nat; [other_rule H|].
  destruct (List.filter _ entries) as [|entry others].
  - destruct (existsb _ entries); [other_rule H|].
    apply bind_Raise_inv in H as [H|(a & _ & H)]; [|discriminate].
    eapply finalize_pending_failure, H.
  - destruct (negb (_ =? _)%Z); [other_rule H|].
    destruct (negb (Entry.touches_bottom entry)); [|discriminate].
    apply bind_Raise_inv in H as [H|(a & _ & H)]; [|discriminate].
    eapply finalize_pending_failure, H.
Qed.

Lemma emit_entries_failure n : forall entries st w e,
  emit_entries n entries st w = Raise e -> other_than_amendment e.
Proof.
  induction entries as [|entry rest IH]; intros st w e H; simpl in H; [discriminate|].
  destruct (Entry.touches_bottom entry).
  - destruct (pending_table st); [unfold continuation_error in H; other_rule H|].
    eapply IH, H.
  - apply bind_Raise_inv in H as [H|(a & _ & H)].
    + eapply write_table_failure, H.
    + eapply IH, H.
Qed.

Lemma table_block_failure pg st e :
  table_block pg st = Raise e -> other_than_amendment e.
Proof.
  unfold table_block. intros H.
  apply bind_Raise_inv in H as [H|(st1 & _ & H)].
  { destruct (pending_table st); [|discriminate].
    destruct (tp_tables pg); [|discriminate].
    eapply page_without_grids_failure, H. }
  apply bind_Raise_inv in H as [H|(st3 & _ & H)].
  { cbn [pending_table] in H. destruct (pending_table st1); [|discriminate].
    destruct (bd_table_entries _); [discriminate|].
    eapply continue_pending_failure, H. }
  apply bind_Raise_inv in H as [H|(out & _ & H)]; [|discriminate].
  eapply emit_entries_failure, H.
Qed.

(** When the amendment scan passes, a failure of the page is reported under
    another rule. *)
Lemma process_page_other_failure pg st e :
  scan_for_amendment_indicators (tp_page_num (pi_tables pg))
    (pi_header_text_snippet pg) (pi_footer_text_snippet pg) = Return tt ->
  process_page pg st = Raise e -> other_than_amendment e.
Proof.
  intros Hscan H. unfold process_page in H.
  destruct (page_body pg st) as [st'|e0] eqn:Hbody; [discriminate|].
  injection H as <-. unfold page_body in Hbody. rewrite Hscan in Hbody.
  cbn [mbind result_bind] in Hbody.
  apply bind_Raise_inv in Hbody as [Hb|(tb & _ & Hb)].
  - apply table_block_failure in Hb. destruct e0 as [rule p d|m].
    + unfold ensure_error_context. destruct (Py.contains _ _); exact Hb.
    + unfold other_than_amendment. simpl. discriminate.
  - apply bind_Raise_inv in Hb as [Hb|(s & _ & Hb)]; [|discriminate].
    apply section_lines_failure in Hb. exact Hb.
Qed.

End PageFailures.

(** ** Provenance guard: the amendment scan *)

Section AmendmentScan.
Import Re.

Lemma isupper_upper_char_isword c :
  Py.isupper (Py.upper_char c) = true -> Py.isword c = true.
Proof.
  destruct c as [[] [] [] [] [] [] [] []]; vm_compute; congruence.
Qed.

Lemma caps_last_word : forall mid kw d,
  Py.upper mid = kw -> all_caps kw = true ->
  opt_word d = true \/ kw <> "" -> opt_word (last_of d mid) = true.
Proof.
  induction mid as [|c mid IH]; intros kw d Hu Hc Hd; simpl in *.
  - subst kw. destruct Hd as [Hd|Hd]; [assumption | congruence].
  - subst kw. simpl in Hc. apply andb_prop in Hc as [Hc1 Hc2].
    apply (IH (Py.upper mid)); auto.
    left. simpl. now apply isupper_upper_char_isword.
Qed.

Lemma caps_first_word mid post kw :
  Py.upper mid = kw -> all_caps kw = true -> kw <> "" ->
  opt_word (next_char (mid ++ post)) = true.
Proof.
  intros Hu Hc Hn. destruct mid as [|c mid]; simpl in *; [congruence|].
  subst kw. simpl in Hc. apply andb_prop in Hc as [Hc1 _].
  now apply isupper_upper_char_isword.
Qed.

Lemma keyword_caps kw :
  In kw AMENDMENT_KEYWORDS -> all_caps kw = true /\ kw <> "" /\ Py.upper kw = kw.
Proof.
  unfold AMENDMENT_KEYWORDS. simpl.
  intros [<-|[<-|[<-|[<-|[<-|[]]]]]]; repeat split; discriminate.
Qed.

Lemma rmatch_between_boundaries r st k :
  rmatch (Seq WordB (Seq r WordB)) st k
  = if at_word_boundary st
    then rmatch r st (fun st' => if at_word_boundary st' then k st' else None)
    else None.
Proof. reflexivity. Qed.

(** What [AMENDMENT_RE] matches at one position. *)
Lemma amendment_re_at st :
  is_Some (rmatch AMENDMENT_RE st Some) <->
  at_word_boundary st = true /\
  exists kw mid post, In kw AMENDMENT_KEYWORDS /\ m_rest st = mid ++ post /\
    Py.upper mid = kw /\ at_word_boundary (skip mid post st) = true.
Proof.
  unfold AMENDMENT_RE. cbn [seqs alts]. rewrite rmatch_between_boundaries.
  destruct (at_word_boundary st) eqn:Hb.
  2:{ split; [intros [x Hx]; discriminate | intros [Hf _]; discriminate]. }
  set (k := fun st' : mstate => if at_word_boundary st' then Some st' else None).
  assert (Hk : forall st', is_Some (k st') <-> at_word_boundary st' = true).
  { intros st'. unfold k. destruct (at_word_boundary st'); split; eauto.
    - intros [x Hx]; discriminate.
    - discriminate. }
  assert (Hlit : forall kw, In kw AMENDMENT_KEYWORDS ->
            (is_Some (rmatch (lit_i kw) st k) <->
             exists mid post, m_rest st = mid ++ post /\ Py.upper mid = kw /\
                              at_word_boundary (skip mid post st) = true)).
  { intros kw Hin. rewrite is_Some_lit_i.
    destruct (keyword_caps kw Hin) as (_ & _ & ->).
    split; intros (mid & post & H1 & H2 & H3); exists mid, post;
      (split; [assumption|]); (split; [assumption|]); now apply Hk. }
  fold k.
  rewrite !is_Some_alt.
  rewrite (Hlit "UTAH"), (Hlit "STATE"), (Hlit "AMENDED"), (Hlit "MODIFIED"),
    (Hlit "AMENDMENTS") by (unfold AMENDMENT_KEYWORDS; simpl; tauto).
  split.
  - intros H. split; [reflexivity|].
    destruct H as [H|[H|[H|[H|H]]]]; destruct H as (mid & post & H1 & H2 & H3);
      eexists _, mid, post; (split; [|eauto]); unfold AMENDMENT_KEYWORDS; simpl; tauto.
  - intros (_ & kw & mid & post & Hin & H).
    unfold AMENDMENT_KEYWORDS in Hin. simpl in Hin.
    destruct Hin as [<-|[<-|[<-|[<-|[<-|[]]]]]]; eauto 10.
Qed.

(** The regular expression finds a match exactly where the text has a
    whole-word, case-insensitive occurrence of a keyword. *)
Lemma amendment_search_iff text :
  is_Some (re_search AMENDMENT_RE text) <->
  exists kw, In kw AMENDMENT_KEYWORDS /\ whole_word_match kw text.
Proof.
  unfold re_search. rewrite is_Some_search_from. split.
  - intros (pre & rest & Ht & Hm). apply amendment_re_at in Hm.
    destruct Hm as (Hb & kw & mid & post & Hin & Hr & Hu & He).
    simpl in Hr. subst rest.
    destruct (keyword_caps kw Hin) as (Hc & Hn & _).
    exists kw. split; [assumption|]. exists pre, mid, post.
    repeat split; try assumption.
    + unfold at_word_boundary in Hb. simpl in Hb.
      rewrite (caps_first_word mid post kw Hu Hc Hn) in Hb.
      destruct (opt_word (last_of None pre)); [discriminate | reflexivity].
    + unfold at_word_boundary in He. simpl in He.
      rewrite (caps_last_word mid kw _ Hu Hc (or_intror Hn)) in He.
      destruct (opt_word (next_char post)); [discriminate | reflexivity].
  - intros (kw & Hin & pre & mid & post & Ht & Hu & Hp & Hq).
    destruct (keyword_caps kw Hin) as (Hc & Hn & _).
    exists pre, (mid ++ post). split; [assumption|].
    apply amendment_re_at. split.
    + unfold at_word_boundary. simpl.
      now rewrite (caps_first_word mid post kw Hu Hc Hn), Hp.
    + exists kw, mid, post. repeat split; try assumption.
      unfold at_word_boundary. simpl.
      now rewrite (caps_last_word mid kw _ Hu Hc (or_intror Hn)), Hq.
Qed.

End AmendmentScan.



(** ** Section recognizer: examples *)

Example heading_R301_1 : parse_true_section_heading "R301.1 General." = Some "R301.1".
Proof. vm_compute. reflexivity. Qed.

Example heading_variant : parse_true_section_heading "R302.1(1) Exterior walls" = None.
Proof. vm_compute. reflexivity. Qed.

Example heading_lowercase_rest : parse_true_section_heading "R301.1 general" = None.
Proof. vm_compute. reflexivity. Qed.

Example heading_bare_id : parse_true_section_heading "R301.1" = None.
Proof. vm_compute. reflexivity. Qed.

Example marker_line : parse_section_marker_line "SECTION R301" = Some "R301".
Proof. vm_compute. reflexivity. Qed.

Example marker_is_no_heading : parse_true_section_heading "SECTION R301" = None.
Proof. vm_compute. reflexivity. Qed.

Example depth_R301_2_1_3 : section_id_depth "R301.2.1.3" = 4%Z.
Proof. reflexivity. Qed.

Example pages_3_5 : format_pdf_pages [3; 4; 5]%Z = Return ("3" ++ en_dash ++ "5").
Proof. vm_compute. reflexivity. Qed.

(** ** Section stack: the depth invariant *)

Section SectionStack.

Lemma bind_Return_inv {A B} (m : result A) (f : A -> result B) b :
  (m ≫= f) = Return b -> exists a, m = Return a /\ f a = Return b.
Proof. destruct m as [a|e]; simpl; [eauto | discriminate]. Qed.

Lemma flush_entry_inv entry rest st st' :
  flush_entry entry rest st = Return st' ->
  section_stack st' = rest /\ section_occurrences st' = section_occurrences st.
Proof.
  unfold flush_entry. intros H. apply bind_Return_inv in H as (files & _ & H).
  injection H as <-. auto.
Qed.

Lemma stack_inv_pop entry rest st st' :
  stack_inv st -> section_stack st = entry :: rest ->
  flush_entry entry rest st = Return st' -> stack_inv st'.
Proof.
  intros (Hs & Hd & Ho) Hst Hf. apply flush_entry_inv in Hf as [Hr Hocc].
  unfold stack_inv. rewrite Hr, Hocc. rewrite Hst in *.
  inversion Hs; subst. inversion Hd; subst. inversion Ho; subst. auto.
Qed.

(** The flush loop leaves a stack whose top, if any, no longer satisfies the
    loop condition; it only pops. *)
Lemma flush_deeper_inv candidate_id new_depth : forall stack st st',
  section_stack st = stack -> stack_inv st ->
  flush_deeper candidate_id new_depth stack st = Return st' ->
  stack_inv st' /\
  section_occurrences st' = section_occurrences st /\
  match section_stack st' with
  | [] => True
  | entry :: _ =>
      (depth entry < new_depth)%Z \/ candidate_id = id entry
  end.
Proof.
  induction stack as [|entry rest IH]; intros st st' Hst Hinv H; simpl in H.
  - injection H as <-. rewrite Hst. auto.
  - destruct ((new_depth <=? depth entry)%Z && negb (String.eqb candidate_id (id entry)))
      eqn:Hc.
    + apply bind_Return_inv in H as (st1 & Hf & H).
      pose proof (stack_inv_pop _ _ _ _ Hinv Hst Hf) as Hinv1.
      apply flush_entry_inv in Hf as [Hr Hocc].
      destruct (IH st1 st' Hr Hinv1 H) as (H1 & H2 & H3).
      rewrite <- Hocc. auto.
    + injection H as <-. rewrite Hst.
      split; [exact Hinv|]. split; [reflexivity|].
      apply andb_false_iff in Hc as [Hc|Hc].
      * left. apply Z.leb_gt in Hc. exact Hc.
      * right. apply negb_false_iff, String.eqb_eq in Hc. exact Hc.
Qed.

Lemma stack_inv_line pg st line st' :
  stack_inv st -> section_line pg st line = Return st' -> stack_inv st'.
Proof.
  intros Hinv H. unfold section_line in H.
  destruct (sp_is_toc_page pg); [injection H as <-; exact Hinv|].
  destruct (parse_section_marker_line (text line)) as [marker_id|].
  { destruct (section_stack st) as [|entry rest] eqn:Hst.
    - injection H as <-. exact Hinv.
    - eapply stack_inv_pop; eauto. }
  destruct (parse_true_section_heading (text line)) as [candidate_id|].
  - destruct (is_spanning_reference (role line) || is_label_line pg line
              || in_footnote_tops pg line); [discriminate|].
    destruct (match section_stack st with
              | [] => false
              | entry :: _ => String.eqb candidate_id (id entry)
              end); [discriminate|].
    apply bind_Return_inv in H as (st1 & Hf & H).
    apply flush_deeper_inv in Hf as ((Hs & Hd & Ho) & Hocc & Htop); auto.
    destruct (section_occurrences st1 !! candidate_id) as [prev|] eqn:Hlook;
      [discriminate|].
    injection H as <-. unfold stack_inv. simpl. repeat split.
    + constructor; [exact Hs|].
      destruct (section_stack st1) as [|entry rest] eqn:Hst1; [constructor|].
      destruct Htop as [Hlt|Heq].
      * inversion Hs as [|? ? Hs' Hall]; subst.
        constructor; [exact Hlt|].
        eapply Forall_impl; [exact Hall|]. unfold deeper. simpl.
        intros e He. lia.
      * inversion Ho as [|? ? Hsome _]; subst.
        rewrite Hlook in Hsome. destruct Hsome; discriminate.
    + constructor; [reflexivity | exact Hd].
    + constructor.
      * simpl. rewrite lookup_insert_eq. eauto.
      * eapply Forall_impl; [exact Ho|]. simpl. intros e [v Hv].
        destruct (decide (candidate_id = id e)) as [->|Hne].
        -- rewrite lookup_insert_eq. eauto.
        -- rewrite lookup_insert_ne by exact Hne. eauto.
  - destruct (is_spanning_reference (role line)); [injection H as <-; exact Hinv|].
    destruct (is_label_line pg line || in_footnote_tops pg line);
      [injection H as <-; exact Hinv|].
    destruct (section_stack st) as [|entry rest] eqn:Hst.
    + injection H as <-. exact Hinv.
    + injection H as <-. destruct Hinv as (Hs & Hd & Ho). rewrite Hst in *.
      unfold stack_inv. simpl.
      inversion Hs; subst. inversion Hd; subst. inversion Ho; subst.
      repeat split; constructor; auto.
Qed.

Lemma stack_inv_initial : stack_inv initial_sections.
Proof. unfold stack_inv; simpl. repeat split; constructor. Qed.

Lemma stack_inv_reachable st : section_reachable st -> stack_inv st.
Proof.
  induction 1 as [|pg st line st' _ IH H|entry rest st st' _ IH Hst H].
  - exact stack_inv_initial.
  - eapply stack_inv_line; eauto.
  - eapply stack_inv_pop; eauto.
Qed.

(** Reading a sorted list by index. *)
Lemma StronglySorted_lookup {A} (R : A -> A -> Prop) (l : list A) :
  StronglySorted R l ->
  forall i j a b, (i < j)%nat -> l !! i = Some a -> l !! j = Some b -> R a b.
Proof.
  induction 1 as [|x l Hs IH Hall]; intros i j a b Hij Ha Hb.
  - destruct i; discriminate.
  - destruct j as [|j]; [lia|]. simpl in Hb. destruct i as [|i].
    + injection Ha as <-. rewrite Forall_forall in Hall.
      apply Hall. eapply list_elem_of_lookup_2. exact Hb.
    + simpl in Ha. eapply (IH i j); eauto. lia.
Qed.

Lemma stack_inv_increasing st : stack_inv st -> strictly_increasing_depth st.
Proof.
  intros (Hs & Hd & _). unfold strictly_increasing_depth, bottom_to_top. split.
  - intros i a Ha. rewrite Forall_forall in Hd. apply Hd.
    rewrite <- elem_of_reverse.
    eapply list_elem_of_lookup_2. exact Ha.
  - intros i j a b Hij Ha Hb.
    pose proof (lookup_lt_Some _ _ _ Ha) as Hi.
    pose proof (lookup_lt_Some _ _ _ Hb) as Hj.
    rewrite length_reverse in Hi, Hj.
    rewrite reverse_lookup in Ha by exact Hi.
    rewrite reverse_lookup in Hb by exact Hj.
    change (deeper b a).
    eapply (StronglySorted_lookup deeper _ Hs); [|exact Hb|exact Ha]. lia.
Qed.

End SectionStack.

(** C5. At every moment of document traversal (after each line and after
    each single pop) the stack of open sections has strictly increasing depth
    from bottom to top, the depth of an entry being the number of decimal
    groups of its id. *)
Theorem C5_stack_depth_strictly_increasing (st : SectionState) :
  section_reachable st -> strictly_increasing_depth st.
Proof.
  intros H. apply stack_inv_increasing, stack_inv_reachable, H.
Qed.

Lemma section_lines_reachable pg : forall ordered_lines st st',
  section_reachable st ->
  section_lines pg st ordered_lines = Return st' ->
  section_reachable st'.
Proof.
  induction ordered_lines as [|line rest IH]; intros st st' Hr H; simpl in H.
  - injection H as <-. exact Hr.
  - destruct (section_line pg st line) as [st1|e] eqn:H1; [|discriminate].
    simpl in H. eapply IH; [|exact H]. eapply reach_line; eauto.
Qed.

(** After the five sample lines the stack holds R301 and R301.2: R301.1.1
    and R301.1 were flushed when R301.2 was accepted. *)
Lemma C5_stack_depth_witness :
  map id (bottom_to_top sample_sections) = ["R301"; "R301.2"] /\
  map sf_section_id (section_files sample_sections) = ["R301.1.1"; "R301.1"] /\
  strictly_increasing_depth sample_sections.
Proof.
  split; [vm_compute; reflexivity|].
  split; [vm_compute; reflexivity|].
  apply C5_stack_depth_strictly_increasing.
  apply (section_lines_reachable sample_page sample_lines initial_sections).
  - exact reach_initial.
  - vm_compute. reflexivity.
Defined.

(** ** Section headings and the header tests *)

(** C1 (the traversal does not apply the header tests).  The line
    "R301.1 General." is body-sized, not bold and indented 128 pt: it fails
    the header position test and the header style test, and the traversal
    loop still accepts it as the heading of section R301.1. *)
Theorem C1_heading_accepted_without_header_tests :
  is_header_position_any indented_plain_line sample_bounds = false /\
  is_header_style indented_plain_line 10 = false /\
  passes_header_position_style indented_plain_line sample_bounds 10 = false /\
  exists st',
    section_line sample_page initial_sections indented_plain_line = Return st' /\
    map id (section_stack st') = ["R301.1"] /\
    map lines (section_stack st') = [["R301.1 General."]].
Proof.
  split; [vm_compute; reflexivity|].
  split; [vm_compute; reflexivity|].
  split; [vm_compute; reflexivity|].
  eexists. split; [reflexivity|]. split; vm_compute; reflexivity.
Qed.

(** ** Stable sorting *)

Section SortingFacts.
Context {A : Type} (lt : A -> A -> bool).

Hypothesis lt_asym : forall x y, lt x y = true -> lt y x = false.
Hypothesis not_above_trans : forall x y z, not_above lt x y -> not_above lt y z -> not_above lt x z.

Lemma insert_sorted_perm x l : insert_sorted lt x l ≡ₚ x :: l.
Proof.
  induction l as [|y l IH]; simpl; [reflexivity|].
  destruct (lt y x); [|reflexivity].
  rewrite IH. apply Permutation_swap.
Qed.

Lemma sorted_by_perm l : sorted_by lt l ≡ₚ l.
Proof.
  induction l as [|x l IH]; simpl; [reflexivity|].
  rewrite insert_sorted_perm. now rewrite IH.
Qed.

Lemma insert_sorted_sorted x l :
  StronglySorted (not_above lt) l -> StronglySorted (not_above lt) (insert_sorted lt x l).
Proof.
  induction 1 as [|y l Hs IH Hall]; simpl.
  - repeat constructor.
  - destruct (lt y x) eqn:Hyx.
    + constructor; [exact IH|].
      rewrite insert_sorted_perm. constructor; [|exact Hall].
      unfold not_above. now apply lt_asym.
    + constructor; [constructor; assumption|].
      constructor; [exact Hyx|].
      eapply Forall_impl; [exact Hall|]. intros z Hz.
      eapply not_above_trans; [exact Hyx | exact Hz].
Qed.

Lemma sorted_by_sorted l : StronglySorted (not_above lt) (sorted_by lt l).
Proof.
  induction l as [|x l IH]; simpl; [constructor | now apply insert_sorted_sorted].
Qed.

Hypothesis not_above_refl : forall x, not_above lt x x.

(** The last element of a sorted list is ranked highest. *)
Lemma sorted_last_max l m :
  StronglySorted (not_above lt) l -> head (reverse l) = Some m ->
  forall x, x ∈ l -> not_above lt x m.
Proof.
  induction 1 as [|y l Hs IH Hall]; intros Hm x Hx.
  - inversion Hx.
  - rewrite reverse_cons in Hm. destruct (reverse l) as [|z r] eqn:Hr.
    + simpl in Hm. injection Hm as <-.
      assert (l = []) as -> by (apply (f_equal reverse) in Hr;
        rewrite reverse_involutive in Hr; exact Hr).
      apply list_elem_of_singleton in Hx as ->. apply not_above_refl.
    + simpl in Hm. injection Hm as ->.
      assert (Hin : m ∈ l).
      { rewrite <- elem_of_reverse, Hr. left. }
      apply elem_of_cons in Hx as [->|Hx].
      * rewrite Forall_forall in Hall. now apply Hall.
      * apply IH; [reflexivity | exact Hx].
Qed.

End SortingFacts.

(** ** Table rotation: ranking and ties *)

Section RotationFacts.

Lemma Qle_bool_false x y : Qle_bool x y = false -> (y < x)%Q.
Proof.
  intros H. apply Qnot_le_lt. intros Hle. apply Qle_bool_iff in Hle. congruence.
Qed.

Ltac reflect_keys :=
  unfold not_above, rotation_key_lt in *;
  repeat match goal with
  | H : context [(?x =? ?y)%Z] |- _ => destruct (Z.eqb_spec x y); simpl in H
  | H : context [(?x <? ?y)%Z] |- _ => destruct (Z.ltb_spec x y); simpl in H
  | H : context [Qeq_bool ?x ?y] |- _ =>
      let E := fresh "E" in
      destruct (Qeq_bool x y) eqn:E;
      [apply Qeq_bool_iff in E | apply Qeq_bool_neq in E]; simpl in H
  | H : context [Qle_bool ?x ?y] |- _ =>
      let E := fresh "E" in
      destruct (Qle_bool x y) eqn:E;
      [apply Qle_bool_iff in E | apply Qle_bool_false in E]; simpl in H
  | |- context [(?x =? ?y)%Z] => destruct (Z.eqb_spec x y); simpl
  | |- context [(?x <? ?y)%Z] => destruct (Z.ltb_spec x y); simpl
  | |- context [Qeq_bool ?x ?y] =>
      let E := fresh "E" in
      destruct (Qeq_bool x y) eqn:E;
      [apply Qeq_bool_iff in E | apply Qeq_bool_neq in E]; simpl
  | |- context [Qle_bool ?x ?y] =>
      let E := fresh "E" in
      destruct (Qle_bool x y) eqn:E;
      [apply Qle_bool_iff in E | apply Qle_bool_false in E]; simpl
  end;
  try reflexivity; try discriminate; try lia; try (exfalso; lra).

Lemma rotation_key_irrefl x : rotation_key_lt x x = false.
Proof. reflect_keys. Qed.

Lemma rotation_key_asym x y :
  rotation_key_lt x y = true -> rotation_key_lt y x = false.
Proof. intros H. reflect_keys. Qed.

Lemma rotation_key_trans x y z :
  not_above rotation_key_lt x y -> not_above rotation_key_lt y z ->
  not_above rotation_key_lt x z.
Proof. intros H1 H2. reflect_keys. Qed.

End RotationFacts.

Section RotationSelection.

Lemma rotation_tie_iff best second :
  rotation_tie best second = true <-> tied best second.
Proof.
  unfold rotation_tie, tied. rewrite !andb_true_iff, !Z.eqb_eq, Qeq_bool_iff.
  tauto.
Qed.

Lemma ranked_perm rs : ranked rs ≡ₚ rs.
Proof. apply sorted_by_perm. Qed.

Lemma ranked_sorted rs : StronglySorted (not_above rotation_key_lt) (ranked rs).
Proof.
  apply sorted_by_sorted; [apply rotation_key_asym | apply rotation_key_trans].
Qed.

(** The best rotation is ranked highest. *)
Lemma best_of_max rs best :
  best_of rs = Some best ->
  In best rs /\ forall r, In r rs -> rotation_key_lt best r = false.
Proof.
  unfold best_of. intros Hb. split.
  - apply list_elem_of_In. rewrite <- (ranked_perm rs), <- elem_of_reverse.
    destruct (reverse (ranked rs)); [discriminate|].
    injection Hb as ->. left.
  - intros r Hr. apply list_elem_of_In in Hr. rewrite <- (ranked_perm rs) in Hr.
    exact (sorted_last_max rotation_key_lt rotation_key_irrefl
             (ranked rs) best (ranked_sorted rs) Hb r Hr).
Qed.

(** Three rotations are tried, so a best and a second exist. *)
Lemma best_second_exist at0 at90 at270 :
  exists best second third,
    reverse (ranked (rotation_results_for at0 at90 at270)) = [best; second; third].
Proof.
  pose proof (Permutation_length (ranked_perm (rotation_results_for at0 at90 at270))) as Hl.
  rewrite <- length_reverse in Hl.
  change (length (rotation_results_for at0 at90 at270)) with 3%nat in Hl.
  destruct (reverse (ranked (rotation_results_for at0 at90 at270)))
    as [|b [|s [|t [|]]]]; simpl in Hl; try discriminate Hl.
  eauto.
Qed.

(** The entry of rotation 0 is found among the sorted results. *)
Lemma find_rotation_0 at0 at90 at270 :
  exists c, List.find (fun c => (rr_rotation c =? 0)%Z)
              (ranked (rotation_results_for at0 at90 at270)) = Some c /\
            rr_rotation c = 0%Z.
Proof.
  destruct (List.find _ _) as [c|] eqn:Hf.
  - exists c. split; [reflexivity|]. apply find_some in Hf as [_ Hf].
    now apply Z.eqb_eq in Hf.
  - exfalso.
    assert (Hin : In (rotation_result 0 (fst at0) (snd at0))
                     (ranked (rotation_results_for at0 at90 at270))).
    { apply list_elem_of_In. rewrite ranked_perm. left. }
    pose proof (find_none _ _ Hf _ Hin) as Hn. simpl in Hn. discriminate.
Qed.

End RotationSelection.

(** C3 (as the code has it).  The three rotations are ranked by
    (orientation score, intersection count, area, -rotation) and the best is
    the maximum.  When the best rotation has no intersection, no table is
    returned, nothing is chosen and no warning is recorded.  When it has
    one: if the two best rotations are not tied the best is chosen; if they
    are tied with orientation score 0 the run defaults to rotation 0 and the
    warning is recorded; if they are tied with another score the run fails
    with TABLE_ROTATION_AMBIGUOUS. *)
Theorem C3_rotation_selection (page_num : Z) (at0 at90 at270 : list TableCandidate * Z) :
  let results := rotation_results_for at0 at90 at270 in
  exists best second,
    best_of results = Some best /\ second_of results = Some second /\
    In best results /\
    (forall r, In r results -> rotation_key_lt best r = false) /\
    ((rr_total_intersections best <= 0)%Z ->
       exists d, select_rotation page_num results = Return d /\
                 rd_chosen_rotation d = None /\ rotation_warning d = false /\
                 rd_candidates d = []) /\
    ((0 < rr_total_intersections best)%Z -> ~ tied best second ->
       exists d, select_rotation page_num results = Return d /\
                 rd_chosen_rotation d = Some (rr_rotation best) /\
                 rotation_warning d = false /\
                 rd_candidates d = rr_candidates best) /\
    ((0 < rr_total_intersections best)%Z -> tied best second ->
     rr_orientation_score best = 0%Z ->
       exists d, select_rotation page_num results = Return d /\
                 rotation_warning d = true /\ effective_rotation d = 0%Z) /\
    ((0 < rr_total_intersections best)%Z -> tied best second ->
     rr_orientation_score best <> 0%Z ->
       exists detail, select_rotation page_num results
                      = Raise (format_error "TABLE_ROTATION_AMBIGUOUS"
                                 (Some page_num) detail)).
Proof.
  intros results.
  destruct (best_second_exist at0 at90 at270) as (best & second & third & Hrev).
  fold results in Hrev.
  assert (Hb : best_of results = Some best) by (unfold best_of; now rewrite Hrev).
  assert (Hs : second_of results = Some second) by (unfold second_of; now rewrite Hrev).
  exists best, second.
  destruct (best_of_max results best Hb) as [Hin Hmax].
  split; [exact Hb|]. split; [exact Hs|]. split; [exact Hin|]. split; [exact Hmax|].
  unfold select_rotation. rewrite Hb, Hs. cbn [mbind result_bind].
  split; [|split; [|split]].
  - intros Hle.
    assert ((0 <? rr_total_intersections best)%Z = false) as -> by lia.
    simpl.
    assert ((rr_total_intersections best <=? 0)%Z = true) as -> by lia.
    eexists. repeat split.
  - intros Hpos Hnt.
    assert ((0 <? rr_total_intersections best)%Z = true) as -> by lia.
    destruct (rotation_tie best second) eqn:Ht;
      [exfalso; apply Hnt, rotation_tie_iff, Ht|].
    simpl.
    assert ((rr_total_intersections best <=? 0)%Z = false) as -> by lia.
    eexists. repeat split.
  - intros Hpos Ht H0.
    assert ((0 <? rr_total_intersections best)%Z = true) as -> by lia.
    pose proof Ht as (Hsc & _ & _).
    apply rotation_tie_iff in Ht. rewrite Ht. simpl.
    assert ((rr_orientation_score best =? 0)%Z = true) as -> by lia.
    assert ((rr_orientation_score second =? 0)%Z = true) as -> by lia.
    simpl.
    destruct (find_rotation_0 at0 at90 at270) as (c & Hfind & Hc).
    fold results in Hfind. rewrite Hfind.
    destruct (rr_total_intersections c <=? 0)%Z; eexists; repeat split.
    unfold effective_rotation. simpl. exact Hc.
  - intros Hpos Ht H0.
    assert ((0 <? rr_total_intersections best)%Z = true) as -> by lia.
    apply rotation_tie_iff in Ht. rewrite Ht. simpl.
    assert ((rr_orientation_score best =? 0)%Z = false) as -> by lia.
    simpl. eauto.
Qed.

(** C3 (the tie rule as specified does not hold).  On a page without
    rulings the three rotations are tied with orientation score 0, and the
    selection records no warning. *)
Lemma C3_tie_rule_counterexample : ~ tie_rule_as_specified 1 no_tables_anywhere.
Proof.
  intros H.
  destruct (H (rotation_result 0 [] 0) (rotation_result 90 [] 0)) as [Hzero _].
  - vm_compute. reflexivity.
  - vm_compute. reflexivity.
  - repeat split; reflexivity.
  - destruct Hzero as (d & Hd & Hw & _); [split; reflexivity|].
    vm_compute in Hd. injection Hd as <-. vm_compute in Hw. discriminate.
Qed.

(** ** Cell extraction *)

Example sample_grid_extraction :
  extract_table_cells_from_grid sample_grid_words double_rule_candidate 3
  = {| ok := true; rows := [["A"; "30"]]; columns := ["Zone"; "Load"];
       empty_ratio := 0 # 4; row_count := 2; col_count := 2; reason := "ok" |}.
Proof. vm_compute. reflexivity. Qed.

Section FloatOrder.

Lemma Qlt_bool_true a b : Qlt_bool a b = true <-> (a < b)%Q.
Proof.
  unfold Qlt_bool. rewrite negb_true_iff. split.
  - apply Qle_bool_false.
  - intros H. destruct (Qle_bool b a) eqn:E; [|reflexivity].
    apply Qle_bool_iff in E. lra.
Qed.

Lemma Qlt_bool_false a b : Qlt_bool a b = false <-> (b <= a)%Q.
Proof.
  unfold Qlt_bool. rewrite negb_false_iff. apply Qle_bool_iff.
Qed.

Lemma within_iff lo x hi : within lo x hi = true <-> (lo <= x)%Q /\ (x <= hi)%Q.
Proof. unfold within. now rewrite andb_true_iff, !Qle_bool_iff. Qed.

Lemma sorted_floats_sorted values :
  StronglySorted Qle (sorted_floats values).
Proof.
  assert (H : StronglySorted (not_above Qlt_bool) (sorted_floats values)).
  { apply sorted_by_sorted.
    - intros x y Hxy. apply Qlt_bool_true in Hxy. apply Qlt_bool_false. lra.
    - unfold not_above. intros x y z H1 H2.
      apply Qlt_bool_false in H1, H2. apply Qlt_bool_false. lra. }
  induction H as [|x l Hs IH Hall]; constructor; [exact IH|].
  eapply Forall_impl; [exact Hall|]. intros y Hy.
  now apply Qlt_bool_false in Hy.
Qed.

Lemma sorted_floats_In values v : In v (sorted_floats values) <-> In v values.
Proof.
  rewrite <- !list_elem_of_In. unfold sorted_floats.
  now rewrite (sorted_by_perm Qlt_bool values).
Qed.

(** Sorting a sorted list of floats changes nothing. *)
Lemma sorted_floats_id l : StronglySorted Qle l -> sorted_floats l = l.
Proof.
  unfold sorted_floats. induction 1 as [|x l Hs IH Hall]; [reflexivity|].
  simpl. rewrite IH. destruct l as [|y l]; [reflexivity|]. simpl.
  inversion Hall as [|? ? Hxy _]; subst.
  now apply Qlt_bool_false in Hxy as ->.
Qed.

Lemma StronglySorted_filter {A} (R : A -> A -> Prop) (f : A -> bool) l :
  StronglySorted R l -> StronglySorted R (List.filter f l).
Proof.
  induction 1 as [|x l Hs IH Hall]; simpl; [constructor|].
  destruct (f x); [|exact IH]. constructor; [exact IH|].
  rewrite Forall_forall in *. intros y Hy.
  apply Hall. apply list_elem_of_In in Hy. apply filter_In in Hy as [Hy _].
  now apply list_elem_of_In.
Qed.

End FloatOrder.

Section Positions.
Variable tolerance : Q.
Hypothesis tolerance_nonneg : (0 <= tolerance)%Q.

(** The merging loop on sorted values that start at or above [last]. *)
Lemma merge_positions_spec : forall values last,
  StronglySorted Qle values -> Forall (Qle last) values ->
  let merged := merge_positions tolerance last values in
  StronglySorted (fun a b => (a + tolerance < b)%Q) merged /\
  Forall (fun p => (last + tolerance < p)%Q) merged /\
  (forall p, In p merged -> In p values) /\
  (forall v, In v values ->
     exists p, In p (last :: merged) /\ (p <= v)%Q /\ (v <= p + tolerance)%Q).
Proof.
  induction values as [|value rest IH]; intros last Hs Hlast;
    cbn [merge_positions]; cbv zeta.
  - repeat split; try constructor; intros ? [].
  - inversion Hs as [|? ? Hs' Hall]; subst.
    inversion Hlast as [|? ? Hlv Hlrest]; subst.
    assert (Habs : Qabs (value - last) == value - last)
      by (apply Qabs_pos; lra).
    destruct (Qlt_bool tolerance (Qabs (value - last))) eqn:Hgap.
    + apply Qlt_bool_true in Hgap. rewrite Habs in Hgap.
      destruct (IH value Hs' Hall) as (H1 & H2 & H3 & H4).
      split; [|split; [|split]].
      * constructor; assumption.
      * constructor; [lra|]. eapply Forall_impl; [exact H2|].
        simpl. intros p Hp. lra.
      * intros p [<-|Hp]; [now left | right; now apply H3].
      * intros v [<-|Hv].
        -- exists value. split; [right; now left|]. lra.
        -- destruct (H4 v Hv) as (p & Hp & Hle).
           exists p. split; [right; exact Hp | exact Hle].
    + apply Qlt_bool_false in Hgap. rewrite Habs in Hgap.
      destruct (IH last Hs' Hlrest) as (H1 & H2 & H3 & H4).
      split; [exact H1|]. split; [exact H2|]. split.
      * intros p Hp. right. now apply H3.
      * intros v [<-|Hv].
        -- exists last. split; [now left|]. lra.
        -- now apply H4.
Qed.

Lemma unique_sorted_positions_spec values :
  merged_within tolerance values (unique_sorted_positions values tolerance).
Proof.
  unfold merged_within, unique_sorted_positions.
  pose proof (sorted_floats_sorted values) as Hs.
  pose proof (sorted_floats_In values) as Hin.
  destruct (sorted_floats values) as [|first rest].
  - split; [constructor|]. split; [intros ? []|].
    intros v Hv. apply Hin in Hv. destruct Hv.
  - inversion Hs as [|? ? Hs' Hall]; subst.
    destruct (merge_positions_spec rest first Hs' Hall) as (H1 & H2 & H3 & H4).
    split; [constructor; assumption|]. split.
    + intros p [<-|Hp]; apply Hin; [now left | right; now apply H3].
    + intros v Hv. apply Hin in Hv as [<-|Hv].
      * exists first. split; [now left|]. lra.
      * now apply H4.
Qed.

End Positions.

Section GridFacts.

Lemma RULING_EPS_nonneg : (0 <= RULING_EPS)%Q.
Proof. unfold RULING_EPS. lra. Qed.

Lemma StronglySorted_weaken {A} (R S : A -> A -> Prop) l :
  (forall a b, R a b -> S a b) -> StronglySorted R l -> StronglySorted S l.
Proof.
  intros HRS. induction 1 as [|x l Hs IH Hall]; constructor; [exact IH|].
  eapply Forall_impl; [exact Hall|]. intros y. apply HRS.
Qed.

(** The final sort of the clipped positions changes nothing. *)
Lemma grid_positions_filter values lo hi :
  grid_positions values lo hi
  = List.filter (fun p => within (lo - RULING_EPS) p (hi + RULING_EPS))
      (unique_sorted_positions values RULING_EPS).
Proof.
  unfold grid_positions. apply sorted_floats_id, StronglySorted_filter.
  destruct (unique_sorted_positions_spec RULING_EPS RULING_EPS_nonneg values) as [Hs _].
  eapply StronglySorted_weaken; [|exact Hs].
  intros a b. unfold RULING_EPS. simpl. lra.
Qed.

Lemma length_intervals : forall positions,
  List.length (intervals positions) = (List.length positions - 1)%nat.
Proof.
  induction positions as [|a [|b rest] IH]; try reflexivity.
  change (intervals (a :: b :: rest)) with ((a, b) :: intervals (b :: rest)).
  cbn [List.length]. rewrite IH. cbn [List.length]. lia.
Qed.

Lemma cell_words_In words bbox xs ys w :
  In w (cell_words (words_in_bbox words bbox) xs ys) <->
  In w words /\
  ((bx0 bbox <= center_x w)%Q /\ (center_x w <= bx1 bbox)%Q /\
   (by0 bbox <= center_y w)%Q /\ (center_y w <= by1 bbox)%Q) /\
  ((fst xs <= center_x w)%Q /\ (center_x w <= snd xs)%Q /\
   (fst ys <= center_y w)%Q /\ (center_y w <= snd ys)%Q).
Proof.
  unfold cell_words, words_in_bbox.
  rewrite !filter_In, !andb_true_iff, !within_iff. tauto.
Qed.

(** The number of cells of a grid whose rows have [n] cells each. *)
Lemma total_cells_of_grid (n : nat) (grid : list (list string)) :
  Forall (fun row => List.length row = n) grid ->
  forall acc,
    fold_left Z.add (map (fun r => Z.of_nat (List.length r)) grid) acc
    = (acc + Z.of_nat (List.length grid) * Z.of_nat n)%Z.
Proof.
  induction 1 as [|row rest Hrow Hrest IH]; intros acc; cbn [map fold_left List.length].
  - lia.
  - rewrite IH, Hrow. lia.
Qed.

End GridFacts.

(** C6 (as the code has it).  For every table candidate the grid is built
    from the unique ruling positions merged within 1 pt ([RULING_EPS]) and
    clipped to the bbox widened by 1 pt; a word goes to the cells whose
    closed rectangle holds its center; the first grid row is the column
    header and the following rows are the body, every row having one cell
    per column; the empty-cell ratio is the number of the cells of the grid
    whose text is empty or white space, divided by the number of its cells;
    and the candidate is rejected exactly when the row count is below 2, the
    column count is below 2 or the empty-cell ratio exceeds 0.80 (with fewer
    than two grid lines in either direction it is rejected with no rows, no
    columns and the ratio 1). *)
Theorem C6_grid_extraction (words : list Word.t) (candidate : TableCandidate)
    (page_num : Z) :
  let e := extract_table_cells_from_grid words candidate page_num in
  let bbox := bbox_rotated candidate in
  let vs := v_positions candidate in
  let hs := h_positions candidate in
  let grid :=
    map (fun ys => map (fun xs => cell_text (cell_words (words_in_bbox words bbox) xs ys))
                     (intervals vs)) (intervals hs) in
  (* the grid lines *)
  merged_within 1 (map r_x0 (v_lines candidate))
    (unique_sorted_positions (map r_x0 (v_lines candidate)) RULING_EPS) /\
  merged_within 1 (map r_top (h_lines candidate))
    (unique_sorted_positions (map r_top (h_lines candidate)) RULING_EPS) /\
  vs = List.filter (fun p => within (bx0 bbox - 1) p (bx1 bbox + 1))
         (unique_sorted_positions (map r_x0 (v_lines candidate)) RULING_EPS) /\
  hs = List.filter (fun p => within (by0 bbox - 1) p (by1 bbox + 1))
         (unique_sorted_positions (map r_top (h_lines candidate)) RULING_EPS) /\
  (* the cells *)
  (forall w xs ys,
     In w (cell_words (words_in_bbox words bbox) xs ys) <->
     In w words /\
     ((bx0 bbox <= center_x w)%Q /\ (center_x w <= bx1 bbox)%Q /\
      (by0 bbox <= center_y w)%Q /\ (center_y w <= by1 bbox)%Q) /\
     ((fst xs <= center_x w)%Q /\ (center_x w <= snd xs)%Q /\
      (fst ys <= center_y w)%Q /\ (center_y w <= snd ys)%Q)) /\
  (* header row and body rows *)
  ((2 <= List.length vs)%nat -> (2 <= List.length hs)%nat ->
     columns e :: rows e = grid /\
     row_count e = Z.of_nat (List.length hs - 1) /\
     col_count e = Z.of_nat (List.length vs - 1) /\
     Forall (fun row => Z.of_nat (List.length row) = col_count e) (columns e :: rows e)) /\
  (* the empty-cell ratio *)
  ((2 <= List.length vs)%nat -> (2 <= List.length hs)%nat ->
     empty_ratio e
     = (inject_Z (Z.of_nat (List.length
                    (List.filter (fun cell => String.eqb (Py.strip cell) "")
                                 (concat grid))))
        / inject_Z (Z.of_nat ((List.length hs - 1) * (List.length vs - 1))))%Q) /\
  (* too few grid lines *)
  ((List.length vs < 2)%nat \/ (List.length hs < 2)%nat ->
     ok e = false /\ columns e = [] /\ rows e = [] /\
     row_count e = 0%Z /\ col_count e = 0%Z /\ empty_ratio e = 1%Q) /\
  (* rejection *)
  (ok e = false <->
   (row_count e < 2)%Z \/ (col_count e < 2)%Z \/
   (TABLE_EMPTY_CELL_RATIO_MAX < empty_ratio e)%Q).
Proof.
  intros e bbox vs hs grid.
  split; [apply (unique_sorted_positions_spec 1); lra|].
  split; [apply (unique_sorted_positions_spec 1); lra|].
  split; [apply grid_positions_filter|].
  split; [apply grid_positions_filter|].
  split; [intros w xs ys; apply cell_words_In|].
  assert (Hgrid_len : List.length grid = (List.length hs - 1)%nat)
    by (unfold grid; now rewrite length_map, length_intervals).
  assert (Hrow_len : Forall (fun row => List.length row = (List.length vs - 1)%nat) grid).
  { unfold grid. rewrite Forall_forall. intros row Hrow.
    apply list_elem_of_In, in_map_iff in Hrow as (ys & <- & _).
    now rewrite length_map, length_intervals. }
  unfold e, extract_table_cells_from_grid. fold bbox vs hs. fold grid.
  destruct ((List.length vs <? 2)%nat || (List.length hs <? 2)%nat) eqn:Hshort.
  - cbn [ok rows columns row_count col_count empty_ratio].
    split; [|split; [|split]].
    + intros Hv Hh. apply orb_true_iff in Hshort as [H|H];
        apply Nat.ltb_lt in H; lia.
    + intros Hv Hh. apply orb_true_iff in Hshort as [H|H];
        apply Nat.ltb_lt in H; lia.
    + intros _. repeat split.
    + split; [intros _; left; lia | reflexivity].
  - apply orb_false_iff in Hshort as [Hv Hh].
    apply Nat.ltb_ge in Hv, Hh.
    cbn [ok rows columns row_count col_count empty_ratio].
    assert (Hratio :
      (if (fold_left Z.add (map (fun r => Z.of_nat (List.length r)) grid) 0 =? 0)%Z
       then 1%Q
       else (inject_Z (Z.of_nat (List.length (List.filter is_empty_cell (concat grid))))
             / inject_Z (fold_left Z.add
                           (map (fun r => Z.of_nat (List.length r)) grid) 0%Z))%Q)
      = (inject_Z (Z.of_nat (List.length
                    (List.filter (fun cell => String.eqb (Py.strip cell) "")
                                 (concat grid))))
         / inject_Z (Z.of_nat ((List.length hs - 1) * (List.length vs - 1))))%Q).
    { rewrite (total_cells_of_grid _ grid Hrow_len 0%Z), Hgrid_len.
      replace (0 + Z.of_nat (List.length hs - 1) * Z.of_nat (List.length vs - 1))%Z
        with (Z.of_nat ((List.length hs - 1) * (List.length vs - 1))) by lia.
      destruct (Z.eqb_spec (Z.of_nat ((List.length hs - 1) * (List.length vs - 1))) 0)
        as [Hz|_]; [nia|reflexivity]. }
    destruct grid as [|header body] eqn:Hg; [simpl in Hgrid_len; lia|].
    split; [|split; [|split]].
    2: { intros _ _. exact Hratio. }
    2: { intros [H|H]; lia. }
    + intros _ _. inversion Hrow_len as [|? ? Hh0 Hbody]; subst.
      split; [destruct body; reflexivity|].
      split; [simpl in Hgrid_len; simpl; lia|].
      split; [now rewrite Hh0|].
      assert (Hrows : match header :: body with
                      | _ :: _ :: _ => tail (header :: body)
                      | _ => []
                      end = body) by (destruct body; reflexivity).
      rewrite Hrows. constructor; [reflexivity|].
      eapply Forall_impl; [exact Hbody|]. simpl. intros row Hr. now rewrite Hr, Hh0.
    + rewrite !andb_false_iff, !Z.leb_gt.
      split.
      * intros [[H|H]|H]; [left; exact H | right; left; exact H |].
        right; right. apply Qle_bool_false. exact H.
      * intros [H|[H|H]]; [left; left; exact H | left; right; exact H |].
        right. destruct (Qle_bool _ _) eqn:E; [|reflexivity].
        apply Qle_bool_iff in E. lra.
Qed.

(** C6 (the 0.5 pt tolerance does not hold).  Vertical rulings at 50 and
    51 pt are 1 pt apart: with a 0.5 pt tolerance they are two grid lines,
    the code merges them into one. *)
Lemma C6_half_point_counterexample : ~ grid_as_specified double_rule_candidate.
Proof.
  unfold grid_as_specified. intros [Hv _]. vm_compute in Hv. discriminate Hv.
Qed.

(** ** Column split: the cross-split check *)

Example crossing_split :
  detect_column_split crossing_words 600 4 5 [] = Return (600 # 2, 280, 320)%Q.
Proof. vm_compute. reflexivity. Qed.

Example wide_crossing_split :
  detect_column_split wide_crossing_words 600 4 5 []
  = Raise (format_error "COLUMN_SPLIT_CROSS" (Some 4%Z)
             "Body word crosses split position.").
Proof. vm_compute. reflexivity. Qed.

Section CrossSplit.
Variables (g : SplitGeometry) (median_char_width : Q) (table_bboxes : list BBox)
          (page_num : Z).




End CrossSplit.



(** A degree sign followed by F is three bytes and two characters: a word
    of this text, 24 pt wide, is a short word for a median character width
    of 5 pt.  An em dash is one character. *)
Example degree_token_is_short :
  Py.len (Py.of_bytes [194; 176; 70]) = 2%nat /\
  short_word 5 (body_word (Py.of_bytes [194; 176; 70]) 296 320) = true /\
  Py.ascii_spaces_only (Py.of_bytes [194; 176; 70]) = true /\
  Py.len (Py.of_bytes [226; 128; 148]) = 1%nat.
Proof. repeat split; vm_compute; reflexivity. Qed.


(** ** Table labels: examples *)

Example label_with_title :
  table_label_match "TABLE R301.2 CLIMATIC AND GEOGRAPHIC DESIGN CRITERIA"
  = Some ("R301.2", "CLIMATIC AND GEOGRAPHIC DESIGN CRITERIA").
Proof. vm_compute. reflexivity. Qed.

Example label_with_variant :
  table_label_match "TABLE R302.1(1) EXTERIOR WALLS"
  = Some ("R302.1", "(1) EXTERIOR WALLS").
Proof. vm_compute. reflexivity. Qed.

Example label_variant_before_letter :
  table_label_match "TABLE R302.1(2)a" = Some ("R302.1(2)", "a").
Proof. vm_compute. reflexivity. Qed.

Example label_lowercase :
  table_label_match "Table r302.1 Loads" = Some ("r302.1", "Loads").
Proof. vm_compute. reflexivity. Qed.

Example not_a_label : table_label_match "See TABLE R301.2" = None.
Proof. vm_compute. reflexivity. Qed.


(** ** Page ranges *)

Section PageRanges.

Lemma py_range_length a b : List.length (py_range a b) = Z.to_nat (b - a).
Proof. unfold py_range. now rewrite length_map, length_seq. Qed.

Lemma py_range_snoc a b : (a <= b)%Z -> py_range a (b + 1) = (py_range a b ++ [b])%list.
Proof.
  intros Hab. unfold py_range.
  replace (Z.to_nat (b + 1 - a)) with (S (Z.to_nat (b - a))) by lia.
  rewrite seq_S, map_app. simpl. do 2 f_equal. lia.
Qed.

Lemma py_range_unsnoc a b :
  (a < b)%Z -> py_range a b = (py_range a (b - 1) ++ [(b - 1)%Z])%list.
Proof.
  intros Hab. rewrite <- py_range_snoc by lia. f_equal. lia.
Qed.

Lemma py_range_first a b :
  (a < b)%Z -> exists rest, py_range a b = a :: rest.
Proof.
  intros Hab. unfold py_range.
  replace (Z.to_nat (b - a)) with (S (Z.to_nat (b - a - 1))) by lia.
  simpl. rewrite Z.add_0_r. eauto.
Qed.

Lemma py_range_last a b d :
  (a < b)%Z -> List.last (py_range a b) d = (b - 1)%Z.
Proof.
  intros Hab. replace b with (b - 1 + 1)%Z at 1 by lia.
  rewrite py_range_snoc by lia. apply last_last.
Qed.

(** A contiguous, non-empty list of pages is rendered without failure. *)
Lemma format_pdf_pages_range a b :
  (a < b)%Z -> exists pages, format_pdf_pages (py_range a b) = Return pages.
Proof.
  intros Hab. destruct (py_range_first a b Hab) as [rest Hr].
  unfold format_pdf_pages. rewrite Hr, <- Hr.
  rewrite (py_range_last a b a Hab).
  replace (b - 1 + 1)%Z with b by lia.
  unfold list_Z_eqb. rewrite bool_decide_eq_true_2 by reflexivity. simpl.
  destruct (List.length (py_range a b) =? 1)%nat; eauto.
Qed.

End PageRanges.

(** ** The table block *)

Section TableBlockFacts.

Lemma bind_table_entries pg acc t :
  exists e,
    bd_table_entries (bind_table pg acc t) = (bd_table_entries acc ++ [e])%list /\
    Entry.columns e = columns (extraction t) /\
    Entry.rows e = rows (extraction t).
Proof.
  unfold bind_table.
  destruct (lb_continued _); [destruct (match _ !! _ with Some _ => _ | None => _ end)|];
    cbn [bd_table_entries]; eexists; (split; [reflexivity|]);
    cbn [Entry.columns Entry.rows]; unfold clean_cell;
    rewrite map_id; split; try reflexivity;
    (erewrite map_ext; [apply map_id|]); intros row; apply map_id.
Qed.

Lemma bind_tables_length pg : forall tables acc,
  List.length (bd_table_entries (fold_left (bind_table pg) tables acc))
  = (List.length (bd_table_entries acc) + List.length tables)%nat.
Proof.
  induction tables as [|t rest IH]; intros acc; simpl; [lia|].
  rewrite IH. destruct (bind_table_entries pg acc t) as (e & -> & _).
  rewrite length_app. simpl. lia.
Qed.

Lemma bind_tables_nil pg ids :
  bd_table_entries (bind_tables pg ids) = [] -> tp_tables pg = [].
Proof.
  intros H. apply (f_equal (@List.length _)) in H.
  unfold bind_tables in H. rewrite bind_tables_length in H. simpl in H.
  destruct (tp_tables pg); [reflexivity | simpl in H; lia].
Qed.

Lemma finalize_pending_inv p st st' :
  finalize_pending p st = Return st' ->
  exists files,
    write_table (Pending.table_id p) (Pending.title p) (Pending.pdf_pages p)
      (Pending.columns p) (Pending.rows p) (Pending.footnotes p)
      (Some (Pending.metadata p)) = Return files /\
    st' = {| pending_table := None;
             last_table_id_by_base := last_table_id_by_base st;
             tables_extracted := (tables_extracted st + 1)%Z;
             table_files := (table_files st ++ [files])%list |}.
Proof.
  unfold finalize_pending. intros H.
  apply bind_Return_inv in H as (files & Hw & H). injection H as <-. eauto.
Qed.

Lemma emit_entries_contiguous n : forall entries st w st' w',
  pending_pages_contiguous (n + 1) st ->
  emit_entries n entries st w = Return (st', w') ->
  pending_pages_contiguous (n + 1) st'.
Proof.
  induction entries as [|entry rest IH]; intros st w st' w' Hc H; simpl in H.
  - injection H as <- _. exact Hc.
  - destruct (Entry.touches_bottom entry).
    + destruct (pending_table st) eqn:Hp; [discriminate|].
      eapply IH; [|exact H]. unfold pending_pages_contiguous. simpl.
      exists n. split; [lia|]. unfold py_range.
      replace (Z.to_nat (n + 1 - n)) with 1%nat by lia. simpl.
      now rewrite Z.add_0_r.
    + apply bind_Return_inv in H as (files & _ & H).
      eapply IH; [|exact H]. exact Hc.
Qed.

Lemma continue_pending_contiguous pg p st entries st' remaining :
  pending_table st = Some p ->
  pending_pages_contiguous (tp_page_num pg) st ->
  continue_pending pg p st entries = Return (st', remaining) ->
  pending_pages_contiguous (tp_page_num pg + 1) st'.
Proof.
  intros Hp Hc H. unfold pending_pages_contiguous in Hc. rewrite Hp in Hc.
  destruct Hc as (a & Ha & Hpages). unfold continue_pending in H.
  destruct (_ && is_nil _); [discriminate|].
  destruct (1 <? _)%nat; [discriminate|].
  destruct (List.filter _ entries) as [|entry others].
  - destruct (existsb _ entries); [discriminate|].
    apply bind_Return_inv in H as (st1 & Hf & H). injection H as <- _.
    apply finalize_pending_inv in Hf as (files & _ & ->). exact I.
  - destruct (negb (_ =? _)%Z); [discriminate|].
    destruct (negb (Entry.touches_bottom entry)).
    + apply bind_Return_inv in H as (st1 & Hf & H). injection H as <- _.
      apply finalize_pending_inv in Hf as (files & _ & ->). exact I.
    + injection H as <- _. unfold pending_pages_contiguous. simpl.
      exists a. split; [lia|]. rewrite Hpages. symmetry. apply py_range_snoc. lia.
Qed.

(** The table block keeps the pages of the pending table contiguous. *)
Lemma table_block_contiguous pg st tb :
  pending_pages_contiguous (tp_page_num pg) st ->
  table_block pg st = Return tb ->
  pending_pages_contiguous (tp_page_num pg + 1) (tb_state tb).
Proof.
  intros Hc H. unfold table_block in H.
  apply bind_Return_inv in H as (st1 & H1 & H).
  apply bind_Return_inv in H as ([st3 entries] & H3 & H).
  apply bind_Return_inv in H as ([st4 w4] & H4 & H). injection H as <-.
  cbn [tb_state fst snd] in *.
  eapply emit_entries_contiguous; [|exact H4].
  destruct (pending_table st) as [p|] eqn:Hp.
  - destruct (tp_tables pg) as [|t ts] eqn:Ht.
    + (* no grid: the pending table was written *)
      unfold page_without_grids in H1.
      destruct (has_continued_marker _ _); [discriminate|].
      destruct (carryover_label_present _ _); [discriminate|].
      apply finalize_pending_inv in H1 as (files & _ & ->).
      cbn [pending_table] in H3. injection H3 as <- _. exact I.
    + injection H1 as <-. cbn [pending_table] in H3. rewrite Hp in H3.
      destruct (bd_table_entries _) as [|e es] eqn:He.
      * apply bind_tables_nil in He. congruence.
      * eapply (continue_pending_contiguous pg p); [| |exact H3].
        -- reflexivity.
        -- unfold pending_pages_contiguous. cbn [pending_table].
           unfold pending_pages_contiguous in Hc. now rewrite Hp in Hc.
  - assert (st1 = st) as -> by (destruct (tp_tables pg); now injection H1).
    cbn [pending_table] in H3. rewrite Hp in H3. injection H3 as <- _.
    exact I.
Qed.

Lemma table_run_contiguous allowed n st :
  table_run allowed n st -> pending_pages_contiguous n st.
Proof.
  induction 1 as [page_start|n pg st tb _ IH Hn _ Hb]; [exact I|].
  subst n. now apply (table_block_contiguous pg st).
Qed.

End TableBlockFacts.

Example page7_pending :
  option_map Pending.table_id (pending_table (tb_state block7)) = Some "R302.1" /\
  option_map Pending.columns (pending_table (tb_state block7)) = Some ["Wall"; "Rating"] /\
  option_map Pending.rows (pending_table (tb_state block7)) = Some [["Exterior"; "1h"]] /\
  table_files (tb_state block7) = [].
Proof. vm_compute. auto. Qed.

Example page8_merged :
  map tf_json_columns (table_files (tb_state block8_continued)) = [["Wall"; "Rating"]] /\
  map tf_json_rows (table_files (tb_state block8_continued))
  = [[["Exterior"; "1h"]; ["Interior"; "2h"; "5ft"]]] /\
  map tf_json_pdf_pages (table_files (tb_state block8_continued)) = [[7; 8]%Z].
Proof. vm_compute. auto. Qed.

(** X26.  For every page of a run that is processed while a table is
    pending and that holds no table grid, the id and the label lines being
    ASCII: if a label line holds, in its upper-cased text, TABLE, the
    upper-cased pending id and CONTINUED, or if a label line matches the
    TABLE-label pattern and holds, in its upper-cased text, the pending id as
    it is stored, the table block fails with TABLE_CONTINUATION; otherwise
    the pending table is written out with its id, columns, rows and pages
    and the pending slot becomes empty.  And a table that is still pending
    after the last page fails the run with TABLE_CONTINUATION. *)
Theorem pending_table_without_grids
    (allowed : TablePage -> TableState -> Prop) (n : Z) (st : TableState)
    (pg : TablePage) (p : Pending.t) :
  table_run allowed n st ->
  tp_page_num pg = n ->
  pending_table st = Some p ->
  tp_tables pg = [] ->
  Py.isascii (Pending.table_id p) = true ->
  Forall (fun line => Py.isascii (text line) = true) (tp_label_lines_original pg) ->
  let label_lines := tp_label_lines_original pg in
  (carries_continued_marker label_lines (Pending.table_id p) \/
   carries_carryover_label label_lines (Pending.table_id p) ->
     exists detail,
       table_block pg st = Raise (format_error "TABLE_CONTINUATION" (Some n) detail)) /\
  (~ carries_continued_marker label_lines (Pending.table_id p) ->
   ~ carries_carryover_label label_lines (Pending.table_id p) ->
     exists tb files,
       table_block pg st = Return tb /\
       pending_table (tb_state tb) = None /\
       table_files (tb_state tb) = (table_files st ++ [files])%list /\
       tables_extracted (tb_state tb) = (tables_extracted st + 1)%Z /\
       tf_table_id files = Pending.table_id p /\
       tf_json_columns files = Pending.columns p /\
       tf_json_rows files = Pending.rows p /\
       tf_json_pdf_pages files = Pending.pdf_pages p) /\
  (exists detail,
     end_of_document st
     = Raise (format_error "TABLE_CONTINUATION" (Some (n - 1)%Z) detail)) /\
  (* a failure of the table block fails the page *)
  (forall page doc detail,
     pi_tables page = pg -> ds_tables doc = st ->
     scan_for_amendment_indicators n (pi_header_text_snippet page)
       (pi_footer_text_snippet page) = Return tt ->
     table_block pg st = Raise (format_error "TABLE_CONTINUATION" (Some n) detail) ->
     process_page page doc
     = Raise (format_error "TABLE_CONTINUATION" (Some n) detail)).
Proof.
  intros Hrun Hn Hp Ht _ _ label_lines.
  pose proof (table_run_contiguous allowed n st Hrun) as Hc.
  unfold pending_pages_contiguous in Hc. rewrite Hp in Hc.
  destruct Hc as (a & Ha & Hpages).
  assert (Hblock : table_block pg st
            = _ ← page_without_grids pg p st;
              Return {| tb_state := unwrap st (page_without_grids pg p st);
                        tb_warnings := []; tb_table_label_entries := [];
                        tb_table_footnote_tops := [] |}).
  { unfold table_block, bind_tables. rewrite Hp, Ht.
    destruct (page_without_grids pg p st) as [st1|e] eqn:H1; [|reflexivity].
    cbn [mbind result_bind fold_left bd_table_entries bd_last_table_id_by_base
         bd_warnings bd_table_label_entries bd_table_footnote_tops unwrap].
    assert (Hnone : pending_table st1 = None).
    { unfold page_without_grids in H1.
      destruct (has_continued_marker _ _); [discriminate|].
      destruct (carryover_label_present _ _); [discriminate|].
      now apply finalize_pending_inv in H1 as (f & _ & ->). }
    cbn [pending_table emit_entries fst snd mbind result_bind]. rewrite Hnone.
    cbn [emit_entries fst snd mbind result_bind].
    destruct st1; cbn in *. now subst. }
  split; [|split; [|split]].
  - rewrite <- has_continued_marker_iff, <- carryover_label_present_iff.
    fold label_lines. rewrite Hblock. unfold page_without_grids.
    fold label_lines. rewrite Hn. intros [Hm|Hl].
    + rewrite Hm. cbn [mbind result_bind]. eauto.
    + rewrite Hl. destruct (has_continued_marker _ _); cbn [mbind result_bind]; eauto.
  - rewrite <- has_continued_marker_iff, <- carryover_label_present_iff.
    intros Hm Hl. apply not_true_is_false in Hm, Hl.
    rewrite Hblock. unfold page_without_grids. fold label_lines. rewrite Hm, Hl.
    destruct (format_pdf_pages_range a n Ha) as [pages Hf].
    unfold finalize_pending, write_table. rewrite Hpages, Hf.
    cbn. eexists _, _. repeat split.
  - unfold end_of_document. rewrite Hp, Hpages.
    rewrite (py_range_unsnoc a n Ha), reverse_app. cbn. eauto.
  - intros page doc detail Hpg Hdoc Hscan Hfail. subst pg st n.
    now apply process_page_table_failure.
Qed.

(** Page 7 leaves TABLE R302.1 pending; page 8 holds neither a grid nor a
    label for it, so the table is written there. *)
Lemma pending_table_without_grids_witness :
  exists tb files,
    table_block page8_plain (tb_state block7) = Return tb /\
    pending_table (tb_state tb) = None /\
    table_files (tb_state tb) = [files] /\
    tf_table_id files = "R302.1" /\
    tf_json_rows files = [["Exterior"; "1h"]] /\
    tf_json_pdf_pages files = [7%Z].
Proof.
  assert (Hrun : table_run (fun _ _ => True) 8 (tb_state block7)).
  { apply (run_page (fun _ _ => True) 7 page7 initial_tables block7).
    - apply run_start.
    - reflexivity.
    - exact I.
    - vm_compute. reflexivity. }
  destruct (pending_table (tb_state block7)) as [p|] eqn:Hp;
    [|vm_compute in Hp; discriminate Hp].
  assert (Hid : Pending.table_id p = "R302.1")
    by (vm_compute in Hp; injection Hp as <-; reflexivity).
  assert (Hascii : Py.isascii (Pending.table_id p) = true)
    by (rewrite Hid; reflexivity).
  assert (Hlines : Forall (fun line => Py.isascii (text line) = true)
                     (tp_label_lines_original page8_plain))
    by (repeat constructor).
  destruct (pending_table_without_grids (fun _ _ => True) 8 (tb_state block7)
              page8_plain p Hrun eq_refl Hp eq_refl Hascii Hlines)
    as (_ & Hflush & _ & _).
  assert (Hrows : Pending.rows p = [["Exterior"; "1h"]])
    by (vm_compute in Hp; injection Hp as <-; reflexivity).
  assert (Hpages : Pending.pdf_pages p = [7%Z])
    by (vm_compute in Hp; injection Hp as <-; reflexivity).
  destruct Hflush as (tb & files & H1 & H2 & H3 & _ & H5 & _ & H7 & H8).
  - rewrite <- has_continued_marker_iff, Hid. vm_compute. discriminate.
  - rewrite <- carryover_label_present_iff, Hid. vm_compute. discriminate.
  - exists tb, files. split; [exact H1|]. split; [exact H2|].
    split; [exact H3|]. split; [congruence|]. split; congruence.
Defined.

(** C2 (a carryover label that holds the pending id is not seen when the id
    has lower-case letters).  Page 7 leaves the table r302.1 pending, its id
    taken from the caption "Table r302.1 Loads".  Page 8 holds no table grid
    and repeats the caption: a line that matches the TABLE-label pattern and
    holds the pending id, as it is written and without regard to case.  The
    table block does not fail with TABLE_CONTINUATION: the carryover test
    looks for the id in the upper-cased line, does not find it, and the
    table is written out; the page as a whole is processed without a
    failure. *)
Theorem C2_carryover_label_missed :
  (* the state before page 8 *)
  table_run (fun _ _ => True) 8 (tb_state block7_mixed_case) /\
  option_map Pending.table_id (pending_table (tb_state block7_mixed_case))
  = Some "r302.1" /\
  (* page 8 *)
  tp_page_num page8_mixed_case = 8%Z /\
  tp_tables page8_mixed_case = [] /\
  (exists line, In line (tp_label_lines_original page8_mixed_case) /\
     is_table_label line = true /\
     occurs_in "r302.1" (text line) /\
     occurs_in (Py.upper "r302.1") (Py.upper (text line))) /\
  (* what the code does *)
  carryover_label_present (tp_label_lines_original page8_mixed_case) "r302.1" = false /\
  (forall detail,
     table_block page8_mixed_case (tb_state block7_mixed_case)
     <> Raise (format_error "TABLE_CONTINUATION" (Some 8%Z) detail)) /\
  (exists tb,
     table_block page8_mixed_case (tb_state block7_mixed_case) = Return tb /\
     pending_table (tb_state tb) = None /\
     map tf_table_id (table_files (tb_state tb)) = ["r302.1"] /\
     map tf_json_pdf_pages (table_files (tb_state tb)) = [[7%Z]]) /\
  (exists doc,
     process_page {| pi_header_text_snippet := "CHAPTER 3";
                     pi_footer_text_snippet := "R-8";
                     pi_tables := page8_mixed_case |}
       {| ds_sections := initial_sections;
          ds_tables := tb_state block7_mixed_case;
          ds_current_chapter := "Chapter 3" |}
     = Return doc).
Proof.
  split.
  { apply (run_page (fun _ _ => True) 7 page7_mixed_case initial_tables
             block7_mixed_case).
    - apply run_start.
    - reflexivity.
    - exact I.
    - vm_compute. reflexivity. }
  split; [vm_compute; reflexivity|].
  split; [reflexivity|]. split; [reflexivity|].
  split.
  { exists (label_at "Table r302.1 Loads" 100). split; [now left|].
    split; [vm_compute; reflexivity|]. split.
    - exists "Table ", " Loads". reflexivity.
    - exists "TABLE ", " LOADS". reflexivity. }
  split; [vm_compute; reflexivity|].
  assert (Hblock : table_block page8_mixed_case (tb_state block7_mixed_case)
                   = Return (unwrap empty_block
                               (table_block page8_mixed_case
                                  (tb_state block7_mixed_case))))
    by (vm_compute; reflexivity).
  split; [intros detail; rewrite Hblock; discriminate|].
  split.
  { eexists. split; [exact Hblock|]. split; [vm_compute; reflexivity|].
    split; vm_compute; reflexivity. }
  eexists. vm_compute. reflexivity.
Qed.

(** For an id without lower-case letters the carryover test is a
    case-insensitive containment test. *)
Lemma carryover_case_insensitive_for_upper_ids label_lines table_id :
  Py.upper table_id = table_id ->
  (carryover_label_present label_lines table_id = true <->
   exists line, In line label_lines /\ is_table_label line = true /\
     occurs_in (Py.upper table_id) (Py.upper (text line))).
Proof.
  intros ->. apply carryover_label_present_iff.
Qed.

(** C10 (the carryover test upper-cases the line but not the id).  The
    label of another variant counts as a carryover label of the pending
    R302.1 and fails a page without grids.  But when the pending id is
    r302.1, taken from the caption "Table r302.1 Loads", the same caption on
    the next page is not recognised: the line matches the label pattern and
    holds the id, with and without regard to case, the carryover test says no
    and the table is written out, while the CONTINUED marker test, which
    upper-cases both sides, recognises the id. *)
Theorem C10_carryover_test_case_slip :
  (* the example of the claim *)
  (option_map Pending.table_id (pending_table (tb_state block7)) = Some "R302.1" /\
   carryover_label_present (tp_label_lines_original page8_other_variant) "R302.1" = true /\
   table_block page8_other_variant (tb_state block7)
   = Raise (format_error "TABLE_CONTINUATION" (Some 8%Z)
              "Carryover TABLE label found without grid for TABLE R302.1.")) /\
  (* the mixed-case id *)
  (option_map Pending.table_id (pending_table (tb_state block7_mixed_case)) = Some "r302.1" /\
   Forall (fun line => is_table_label line = true
                       /\ Py.contains "r302.1" (text line) = true
                       /\ Py.contains (Py.upper "r302.1") (Py.upper (text line)) = true)
          (tp_label_lines_original page8_mixed_case) /\
   carryover_label_present (tp_label_lines_original page8_mixed_case) "r302.1" = false /\
   exists tb,
     table_block page8_mixed_case (tb_state block7_mixed_case) = Return tb /\
     pending_table (tb_state tb) = None /\
     map tf_table_id (table_files (tb_state tb)) = ["r302.1"]) /\
  (* the sibling test *)
  has_continued_marker [label_at "Table r302.1 Loads (continued)" 100] "r302.1" = true.
Proof.
  split; [|split].
  - split; [vm_compute; reflexivity|]. split; vm_compute; reflexivity.
  - split; [vm_compute; reflexivity|].
    split.
    { constructor; [|constructor].
      split; [vm_compute; reflexivity|]. split; vm_compute; reflexivity. }
    split; [vm_compute; reflexivity|].
    exists (unwrap empty_block
              (table_block page8_mixed_case (tb_state block7_mixed_case))).
    split; [vm_compute; reflexivity|]. split; vm_compute; reflexivity.
  - vm_compute. reflexivity.
Qed.

(** ** Sorting by a float key *)

Section KeyedSort.
Context {A : Type} (key : A -> Q).

Let key_lt (a b : A) : bool := Qlt_bool (key a) (key b).

Lemma key_lt_asym x y : key_lt x y = true -> key_lt y x = false.
Proof.
  unfold key_lt. intros H. apply Qlt_bool_true in H. apply Qlt_bool_false. lra.
Qed.

Lemma key_lt_trans x y z :
  not_above key_lt x y -> not_above key_lt y z -> not_above key_lt x z.
Proof.
  unfold not_above, key_lt. intros H1 H2.
  apply Qlt_bool_false in H1, H2. apply Qlt_bool_false. lra.
Qed.

Lemma key_lt_irrefl x : not_above key_lt x x.
Proof. unfold not_above, key_lt. apply Qlt_bool_false. lra. Qed.

Lemma sorted_by_nonempty (l : list A) :
  l <> [] -> sorted_by key_lt l <> [].
Proof.
  intros Hl Hs. apply Hl. apply Permutation_nil_r.
  rewrite <- Hs. symmetry. apply sorted_by_perm.
Qed.

(** The last element of the sorted list has the greatest key. *)
Lemma sorted_by_max (l : list A) :
  l <> [] ->
  exists m, head (reverse (sorted_by key_lt l)) = Some m /\ In m l /\
            forall x, In x l -> (key x <= key m)%Q.
Proof.
  intros Hl. pose proof (sorted_by_nonempty l Hl) as Hs.
  destruct (reverse (sorted_by key_lt l)) as [|m r] eqn:Hr.
  { exfalso. apply Hs. apply (f_equal reverse) in Hr.
    now rewrite reverse_involutive in Hr. }
  exists m. split; [reflexivity|].
  assert (Hm : m ∈ sorted_by key_lt l)
    by (rewrite <- elem_of_reverse, Hr; left).
  split; [apply list_elem_of_In; now rewrite <- (sorted_by_perm key_lt l)|].
  intros x Hx. apply list_elem_of_In in Hx.
  rewrite <- (sorted_by_perm key_lt l) in Hx.
  assert (Hhead : head (reverse (sorted_by key_lt l)) = Some m) by now rewrite Hr.
  pose proof (sorted_last_max key_lt key_lt_irrefl (sorted_by key_lt l) m
                (sorted_by_sorted key_lt key_lt_asym key_lt_trans l) Hhead x Hx) as H.
  unfold not_above, key_lt in H. now apply Qlt_bool_false in H.
Qed.

(** The first element of the sorted list has the smallest key. *)
Lemma sorted_by_min (l : list A) :
  l <> [] ->
  exists m, head (sorted_by key_lt l) = Some m /\ In m l /\
            forall x, In x l -> (key m <= key x)%Q.
Proof.
  intros Hl. pose proof (sorted_by_nonempty l Hl) as Hs.
  pose proof (sorted_by_sorted key_lt key_lt_asym key_lt_trans l) as Hsorted.
  pose proof (sorted_by_perm key_lt l) as Hperm.
  destruct (sorted_by key_lt l) as [|m r]; [congruence|].
  exists m. split; [reflexivity|].
  split; [apply list_elem_of_In; rewrite <- Hperm; left|].
  intros x Hx. apply list_elem_of_In in Hx. rewrite <- Hperm in Hx.
  inversion Hsorted as [|? ? _ Hall]; subst.
  apply elem_of_cons in Hx as [->|Hx]; [lra|].
  rewrite Forall_forall in Hall. specialize (Hall x Hx).
  unfold not_above, key_lt in Hall. now apply Qlt_bool_false in Hall.
Qed.

End KeyedSort.

(** ** Label binder *)

Section LabelBinder.
Variables (label_lines : list Line) (box : BBox).

Lemma labels_of_In l :
  In l (labels_of label_lines box) <->
  In (label_line l) label_lines /\ overlaps box (label_line l) = true /\
  table_label_match (Py.strip (text (label_line l))) = Some (label_id l, label_title l).
Proof.
  unfold labels_of. rewrite in_flat_map. split.
  - intros (line & Hin & Hl).
    destruct (table_label_match (Py.strip (text line))) as [[g1 g2]|] eqn:Hm;
      [|destruct Hl].
    destruct (overlaps box line) eqn:Ho; [|destruct Hl].
    destruct Hl as [<-|[]]. simpl. auto.
  - intros (Hin & Ho & Hm). exists (label_line l). split; [exact Hin|].
    rewrite Hm, Ho. left. destruct l; reflexivity.
Qed.

Lemma is_above_iff l :
  is_above box l = true <->
  (bottom (label_line l) <= by0 box)%Q /\
  (by0 box - bottom (label_line l) <= TABLE_LABEL_SEARCH_WINDOW)%Q.
Proof. unfold is_above. now rewrite andb_true_iff, !Qle_bool_iff. Qed.

Lemma in_top_band_iff l :
  in_top_band box l = true <->
  (by0 box <= top (label_line l))%Q /\
  (top (label_line l)
   <= by0 box + (by1 box - by0 box) * TABLE_LABEL_TOP_BAND_RATIO)%Q.
Proof. unfold in_top_band. apply within_iff. Qed.

Lemma filter_nonempty {A} (f : A -> bool) (l : list A) x :
  In x l -> f x = true -> List.filter f l <> [].
Proof.
  intros Hin Hf Hnil.
  assert (H : In x (List.filter f l)) by (apply filter_In; auto).
  rewrite Hnil in H. destruct H.
Qed.

Lemma filter_empty {A} (f : A -> bool) (l : list A) :
  (forall x, In x l -> f x = false) -> List.filter f l = [].
Proof.
  induction l as [|a l IH]; intros H; simpl; [reflexivity|].
  rewrite (H a (or_introl eq_refl)). apply IH. intros x Hx. apply H. now right.
Qed.

(** A label above the box exists: the one with the greatest bottom among
    them is chosen. *)
Lemma choose_label_above :
  (exists l, In l (labels_of label_lines box) /\ is_above box l = true) ->
  exists chosen,
    choose_label label_lines box = Some (chosen, region_above) /\
    In chosen (labels_of label_lines box) /\ is_above box chosen = true /\
    forall l, In l (labels_of label_lines box) -> is_above box l = true ->
              (bottom (label_line l) <= bottom (label_line chosen))%Q.
Proof.
  intros (l0 & Hin0 & Ha0).
  pose proof (filter_nonempty (is_above box) _ l0 Hin0 Ha0) as Hne.
  destruct (sorted_by_max (fun l => bottom (label_line l)) _ Hne)
    as (m & Hhead & Hm & Hmax).
  exists m. unfold choose_label.
  destruct (List.filter (is_above box) (labels_of label_lines box)) as [|a r] eqn:Hf;
    [congruence|].
  change (sorted_by label_bottom_lt (a :: r))
    with (sorted_by (fun x y => Qlt_bool (bottom (label_line x)) (bottom (label_line y)))
            (a :: r)).
  rewrite Hhead. split; [reflexivity|].
  rewrite <- Hf in Hm, Hmax. apply filter_In in Hm as [Hm1 Hm2].
  split; [exact Hm1|]. split; [exact Hm2|].
  intros l Hl Ha. apply Hmax. apply filter_In. auto.
Qed.

(** No label above the box, but one in its top band: the one with the
    smallest top among them is chosen. *)
Lemma choose_label_band :
  (forall l, In l (labels_of label_lines box) -> is_above box l = false) ->
  (exists l, In l (labels_of label_lines box) /\ in_top_band box l = true) ->
  exists chosen,
    choose_label label_lines box = Some (chosen, region_inside_top_band) /\
    In chosen (labels_of label_lines box) /\ in_top_band box chosen = true /\
    forall l, In l (labels_of label_lines box) -> in_top_band box l = true ->
              (top (label_line chosen) <= top (label_line l))%Q.
Proof.
  intros Hnone (l0 & Hin0 & Hb0).
  pose proof (filter_nonempty (in_top_band box) _ l0 Hin0 Hb0) as Hne.
  destruct (sorted_by_min (fun l => top (label_line l)) _ Hne)
    as (m & Hhead & Hm & Hmin).
  exists m. unfold choose_label. rewrite (filter_empty _ _ Hnone).
  change (sorted_by label_top_lt (List.filter (in_top_band box) (labels_of label_lines box)))
    with (sorted_by (fun x y => Qlt_bool (top (label_line x)) (top (label_line y)))
            (List.filter (in_top_band box) (labels_of label_lines box))).
  rewrite Hhead. split; [reflexivity|].
  apply filter_In in Hm as [Hm1 Hm2].
  split; [exact Hm1|]. split; [exact Hm2|].
  intros l Hl Hb. apply Hmin. apply filter_In. auto.
Qed.

Lemma choose_label_none :
  (forall l, In l (labels_of label_lines box) ->
             is_above box l = false /\ in_top_band box l = false) ->
  choose_label label_lines box = None.
Proof.
  intros Hnone. unfold choose_label.
  rewrite (filter_empty (is_above box)) by (intros l Hl; apply Hnone, Hl).
  rewrite (filter_empty (in_top_band box)) by (intros l Hl; apply Hnone, Hl).
  reflexivity.
Qed.

End LabelBinder.

(** A table without a label gets the id UNLABELED_P<page>_T<idx> and the
    page gets the warning TABLE_LABEL_MISSING. *)
Lemma bind_table_unlabeled pg acc t :
  choose_label (tp_rotated_label_lines pg) (bbox_rotated (candidate t)) = None ->
  exists e,
    bd_table_entries (bind_table pg acc t) = (bd_table_entries acc ++ [e])%list /\
    Entry.table_id e = "UNLABELED_P" ++ Py.str_of_int (tp_page_num pg)
                       ++ "_T" ++ Py.str_of_int (table_index t) /\
    Entry.title e = "" /\
    Entry.unlabeled e = true /\
    bd_warnings (bind_table pg acc t)
    = (bd_warnings acc ++ [TABLE_LABEL_MISSING (tp_page_num pg) (bbox t)])%list.
Proof.
  intros Hnone. unfold bind_table, find_table_label_for_bbox. rewrite Hnone.
  cbn. eexists. repeat split.
Qed.

(** C7. For every table candidate box, among the lines that match the
    TABLE-label pattern and overlap the box horizontally, label binding
    chooses the label with the greatest bottom among those with
    [bottom <= y0] and [y0 - bottom <= 60]; if there is none, the label with
    the smallest top among those whose top lies in the top 15% band of the
    box; if there is none either, the table gets the id
    UNLABELED_P<page>_T<idx> and a warning is recorded. *)
Theorem C7_label_binding (label_lines : list Line) (box : BBox) (page_num : Z) :
  let labels := labels_of label_lines box in
  let found := find_table_label_for_bbox label_lines box page_num in
  (* what the candidate labels and the two regions are *)
  (forall l, In l labels <->
     In (label_line l) label_lines /\ overlaps box (label_line l) = true /\
     table_label_match (Py.strip (text (label_line l)))
     = Some (label_id l, label_title l)) /\
  (forall l, is_above box l = true <->
     (bottom (label_line l) <= by0 box)%Q /\
     (by0 box - bottom (label_line l) <= 60)%Q) /\
  (forall l, in_top_band box l = true <->
     (by0 box <= top (label_line l))%Q /\
     (top (label_line l) <= by0 box + (by1 box - by0 box) * (15 # 100))%Q) /\
  (* a label immediately above *)
  ((exists l, In l labels /\ is_above box l = true) ->
     exists chosen,
       In chosen labels /\ is_above box chosen = true /\
       (forall l, In l labels -> is_above box l = true ->
                  (bottom (label_line l) <= bottom (label_line chosen))%Q) /\
       lb_table_id found = Some (Py.strip (label_id chosen)) /\
       lb_line found = Some (label_line chosen)) /\
  (* otherwise a label in the top band *)
  ((forall l, In l labels -> is_above box l = false) ->
   (exists l, In l labels /\ in_top_band box l = true) ->
     exists chosen,
       In chosen labels /\ in_top_band box chosen = true /\
       (forall l, In l labels -> in_top_band box l = true ->
                  (top (label_line chosen) <= top (label_line l))%Q) /\
       lb_table_id found = Some (Py.strip (label_id chosen)) /\
       lb_line found = Some (label_line chosen)) /\
  (* otherwise the table is unlabeled *)
  ((forall l, In l labels -> is_above box l = false /\ in_top_band box l = false) ->
     lb_table_id found = None /\
     forall pg acc t,
       tp_rotated_label_lines pg = label_lines ->
       bbox_rotated (candidate t) = box ->
       tp_page_num pg = page_num ->
       exists e,
         bd_table_entries (bind_table pg acc t) = (bd_table_entries acc ++ [e])%list /\
         Entry.table_id e = "UNLABELED_P" ++ Py.str_of_int page_num
                            ++ "_T" ++ Py.str_of_int (table_index t) /\
         Entry.unlabeled e = true /\
         bd_warnings (bind_table pg acc t)
         = (bd_warnings acc ++ [TABLE_LABEL_MISSING page_num (bbox t)])%list).
Proof.
  intros labels found.
  split; [intros l; apply labels_of_In|].
  split; [intros l; apply is_above_iff|].
  split; [intros l; apply in_top_band_iff|].
  split; [|split].
  - intros Hex.
    destruct (choose_label_above label_lines box Hex) as (chosen & Hc & H1 & H2 & H3).
    exists chosen. unfold found, find_table_label_for_bbox. rewrite Hc. auto.
  - intros Hnone Hex.
    destruct (choose_label_band label_lines box Hnone Hex)
      as (chosen & Hc & H1 & H2 & H3).
    exists chosen. unfold found, find_table_label_for_bbox. rewrite Hc. auto.
  - intros Hnone. pose proof (choose_label_none label_lines box Hnone) as Hc.
    split; [unfold found, find_table_label_for_bbox; now rewrite Hc|].
    intros pg acc t Hl Hb Hn. rewrite <- Hl, <- Hb in Hc. rewrite <- Hn.
    destruct (bind_table_unlabeled pg acc t Hc) as (e & H1 & H2 & _ & H4 & H5).
    exists e. auto.
Qed.

Example label_above_wins :
  lb_table_id (find_table_label_for_bbox
                 [label_at "TABLE R301.2 CLIMATE" 60; label_at "TABLE R302.1 FIRE" 725;
                  label_at "TABLE R302.6 DWELLING" 741]
                 (bbox_rotated (grid_candidate 740 [0; 50; 100]%Q)) 7)
  = Some "R302.1".
Proof. vm_compute. reflexivity. Qed.

(** ** Emitted tables *)

Section TableFilesInvariant.
Variable Q : TableProperty.

Lemma write_table_inv table_id title pdf_pages cols body notes md f :
  write_table table_id title pdf_pages cols body notes md = Return f ->
  same_cells f /\ tf_json_columns f = cols /\ tf_json_rows f = body /\
  tf_table_id f = table_id /\ tf_json_pdf_pages f = pdf_pages.
Proof.
  unfold write_table. intros H. apply bind_Return_inv in H as (pages & _ & H).
  injection H as <-. split; [|auto]. split; [reflexivity|]. cbn.
  exists [pdf_page_line pages; table_id_line table_id; title_line title; ""; "COLUMNS:"],
         (["" ; "FOOTNOTES:"] ++ map item_line notes)%list.
  reflexivity.
Qed.

Lemma write_table_good table_id title pdf_pages cols body notes md f :
  Q table_id pdf_pages cols body ->
  write_table table_id title pdf_pages cols body notes md = Return f ->
  good_file Q f.
Proof.
  intros HQ H. apply write_table_inv in H as (Hs & Hc & Hr & Hi & Hp).
  split; [exact Hs|]. now rewrite Hc, Hr, Hi, Hp.
Qed.

Lemma finalize_pending_good p st st' :
  Forall (good_file Q) (table_files st) ->
  Q (Pending.table_id p) (Pending.pdf_pages p) (Pending.columns p) (Pending.rows p) ->
  finalize_pending p st = Return st' -> good_tables Q st'.
Proof.
  intros Hfiles HQ H. apply finalize_pending_inv in H as (f & Hw & ->).
  split; [|exact I]. cbn. apply Forall_app. split; [exact Hfiles|].
  constructor; [|constructor]. eapply write_table_good; eauto.
Qed.

Lemma emit_entries_good page_num : forall entries st w st' w',
  good_tables Q st -> Forall (good_entry Q page_num) entries ->
  emit_entries page_num entries st w = Return (st', w') ->
  good_tables Q st'.
Proof.
  induction entries as [|entry rest IH]; intros st w st' w' Hst Hen H; simpl in H.
  - injection H as <- _. exact Hst.
  - inversion Hen as [|? ? He Hrest]; subst. destruct Hst as [Hfiles Hpend].
    destruct (Entry.touches_bottom entry).
    + destruct (pending_table st); [discriminate|].
      eapply IH; [|exact Hrest|exact H]. split; [exact Hfiles | exact He].
    + apply bind_Return_inv in H as (f & Hw & H).
      eapply IH; [|exact Hrest|exact H]. split; [|exact Hpend].
      cbn. apply Forall_app. split; [exact Hfiles|].
      constructor; [|constructor]. eapply write_table_good; eauto.
Qed.

Lemma remove_first_good page_num f entries :
  Forall (good_entry Q page_num) entries ->
  Forall (good_entry Q page_num) (remove_first f entries).
Proof.
  induction 1 as [|e rest He Hrest IH]; simpl; [constructor|].
  destruct (f e); [exact Hrest | constructor; assumption].
Qed.

Lemma continue_pending_good pg p st entries st' remaining :
  good_tables Q st -> pending_table st = Some p ->
  Forall (good_entry Q (tp_page_num pg)) entries -> merge_keeps Q pg st ->
  continue_pending pg p st entries = Return (st', remaining) ->
  good_tables Q st' /\ Forall (good_entry Q (tp_page_num pg)) remaining.
Proof.
  intros [Hfiles Hpend] Hp Hen Hmerge H. rewrite Hp in Hpend.
  unfold continue_pending in H.
  destruct (_ && is_nil _); [discriminate|].
  destruct (1 <? _)%nat; [discriminate|].
  destruct (List.filter _ entries) as [|entry others] eqn:Hf.
  - destruct (existsb _ entries); [discriminate|].
    apply bind_Return_inv in H as (st1 & Hfin & H). injection H as <- <-.
    split; [|exact Hen]. eapply finalize_pending_good; eauto.
  - destruct (negb (_ =? _)%Z); [discriminate|].
    assert (Hin : In entry (List.filter
              (is_continuation_match p
                 (has_continued_marker (tp_label_lines_original pg) (Pending.table_id p))
                 (carryover_label_present (tp_label_lines_original pg)
                    (Pending.table_id p))) entries))
      by (rewrite Hf; now left).
    apply filter_In in Hin as [Hin Hmatch].
    assert (He : good_entry Q (tp_page_num pg) entry).
    { rewrite Forall_forall in Hen. apply Hen. now apply list_elem_of_In. }
    pose proof (Hmerge p entry Hp Hpend He Hmatch) as Hmerged.
    destruct (negb (Entry.touches_bottom entry)).
    + apply bind_Return_inv in H as (st1 & Hfin & H). injection H as <- <-.
      split; [|now apply remove_first_good].
      eapply finalize_pending_good; [exact Hfiles| |exact Hfin]. exact Hmerged.
    + injection H as <- <-. split; [|now apply remove_first_good].
      split; [exact Hfiles | exact Hmerged].
Qed.

(** The table block keeps the invariant when the tables bound on the page
    satisfy [Q] and merging keeps it. *)
Lemma table_block_good pg st tb :
  good_tables Q st ->
  (forall ids, Forall (good_entry Q (tp_page_num pg))
                 (bd_table_entries (bind_tables pg ids))) ->
  merge_keeps Q pg st ->
  table_block pg st = Return tb ->
  good_tables Q (tb_state tb).
Proof.
  intros Hst Hen Hmerge H. unfold table_block in H.
  apply bind_Return_inv in H as (st1 & H1 & H).
  apply bind_Return_inv in H as ([st3 entries] & H3 & H).
  apply bind_Return_inv in H as ([st4 w4] & H4 & H). injection H as <-.
  cbn [tb_state fst snd] in *.
  assert (H13 : good_tables Q st3 /\ Forall (good_entry Q (tp_page_num pg)) entries).
  { destruct (pending_table st) as [p|] eqn:Hp.
    - destruct (tp_tables pg) as [|t ts] eqn:Ht.
      + unfold page_without_grids in H1.
        destruct (has_continued_marker _ _); [discriminate|].
        destruct (carryover_label_present _ _); [discriminate|].
        destruct Hst as [Hfiles Hpend]. rewrite Hp in Hpend.
        pose proof (finalize_pending_good p st st1 Hfiles Hpend H1) as Hg.
        apply finalize_pending_inv in H1 as (f & _ & ->).
        cbn [pending_table] in H3. injection H3 as <- <-.
        split; [exact Hg | apply Hen].
      + injection H1 as <-. cbn [pending_table] in H3. rewrite Hp in H3.
        destruct (bd_table_entries _) as [|e es] eqn:He.
        * apply bind_tables_nil in He. congruence.
        * eapply (continue_pending_good pg p); [| | | |exact H3].
          -- destruct Hst as [Hfiles Hpend]. split; [exact Hfiles|].
             cbn [pending_table]. now rewrite Hp in Hpend.
          -- reflexivity.
          -- rewrite <- He. apply Hen.
          -- intros p' e' Hp' HQ' He' Hm'. cbn [pending_table] in Hp'.
             injection Hp' as <-. now apply (Hmerge p e').
    - assert (st1 = st) as -> by (destruct (tp_tables pg); now injection H1).
      cbn [pending_table] in H3. rewrite Hp in H3. injection H3 as <- <-.
      split; [|apply Hen]. destruct Hst as [Hfiles _]. split; [exact Hfiles | exact I]. }
  destruct H13 as [Hg3 He3]. eapply emit_entries_good; eauto.
Qed.

End TableFilesInvariant.

Section RoundTrip.

(** Every extraction is rectangular: each body row has one cell per column
    header. *)
Lemma extraction_rectangular words candidate page_num :
  let e := extract_table_cells_from_grid words candidate page_num in
  rectangular (columns e) (rows e).
Proof.
  cbv zeta. unfold extract_table_cells_from_grid, rectangular.
  destruct (_ || _); [constructor|].
  cbn [columns rows].
  set (grid := map _ (intervals (h_positions candidate))).
  assert (Hrow : Forall (fun row => List.length row
                  = (List.length (v_positions candidate) - 1)%nat) grid).
  { unfold grid. rewrite Forall_forall. intros row Hrow.
    apply list_elem_of_In, in_map_iff in Hrow as (ys & <- & _).
    now rewrite length_map, length_intervals. }
  destruct grid as [|header [|second body]]; try constructor.
  - inversion Hrow as [|? ? Hh Hb]; subst. inversion Hb as [|? ? Hs _]; subst.
    cbn. congruence.
  - inversion Hrow as [|? ? Hh Hb]; subst. inversion Hb as [|? ? _ Hbody]; subst.
    cbn. eapply Forall_impl; [exact Hbody|]. cbn. intros row Hr. congruence.
Qed.

(** The entries bound on a page hold the header row and the body rows of
    the extractions of the page: what holds of these for every id holds of
    the entries. *)
Lemma fold_bind_table_good (Q : TableProperty) pg :
  forall tables acc,
  (forall t table_id, In t tables ->
     Q table_id [tp_page_num pg] (columns (extraction t)) (rows (extraction t))) ->
  Forall (good_entry Q (tp_page_num pg)) (bd_table_entries acc) ->
  Forall (good_entry Q (tp_page_num pg))
         (bd_table_entries (fold_left (bind_table pg) tables acc)).
Proof.
  induction tables as [|t rest IH]; intros acc Hall Hacc; simpl; [exact Hacc|].
  apply IH; [intros t' i Ht'; apply Hall; now right|].
  destruct (bind_table_entries pg acc t) as (e & -> & Hc & Hr).
  apply Forall_app. split; [exact Hacc|]. constructor; [|constructor].
  unfold good_entry. rewrite Hc, Hr. apply Hall. now left.
Qed.

Lemma bind_tables_good_entries (Q : TableProperty) pg :
  (forall t table_id, In t (tp_tables pg) ->
     Q table_id [tp_page_num pg] (columns (extraction t)) (rows (extraction t))) ->
  forall ids, Forall (good_entry Q (tp_page_num pg))
                (bd_table_entries (bind_tables pg ids)).
Proof.
  intros Hall ids. unfold bind_tables.
  apply fold_bind_table_good; [exact Hall | constructor].
Qed.

Lemma extracted_page_rectangular pg :
  extracted_page pg ->
  forall ids, Forall (good_entry always_rectangular (tp_page_num pg))
                (bd_table_entries (bind_tables pg ids)).
Proof.
  intros Hpg. apply bind_tables_good_entries. intros t i Ht.
  destruct (Hpg t Ht) as (_ & words & ->). apply extraction_rectangular.
Qed.

(** Without a CONTINUED marker a continuation is a match only when its
    column headers equal those of the pending table. *)
Lemma match_without_marker p carryover e :
  is_continuation_match p false carryover e = true ->
  Entry.columns e = Pending.columns p.
Proof.
  unfold is_continuation_match. intros Hm.
  apply andb_prop in Hm as [_ Hm]. simpl in Hm. apply andb_prop in Hm as [Hm _].
  unfold list_string_eqb in Hm. apply bool_decide_eq_true in Hm. now symmetry.
Qed.

Lemma merge_keeps_rectangular pg st :
  no_continued_marker pg st -> merge_keeps always_rectangular pg st.
Proof.
  intros Hno p e Hp HQ He Hm. unfold no_continued_marker in Hno.
  rewrite Hp in Hno. rewrite Hno in Hm. apply match_without_marker in Hm.
  unfold always_rectangular, good_entry, rectangular in *.
  apply Forall_app. split; [exact HQ|]. now rewrite <- Hm.
Qed.

Lemma merge_keeps_trivial pg st : merge_keeps (fun _ _ _ _ => True) pg st.
Proof. intros p e _ _ _ _. exact I. Qed.

Lemma run_same_cells n st :
  table_run (fun pg _ => extracted_page pg) n st ->
  good_tables (fun _ _ _ _ => True) st.
Proof.
  induction 1 as [page_start|n pg st tb _ IH _ _ Hb].
  - split; [constructor | exact I].
  - eapply table_block_good; [exact IH| |apply merge_keeps_trivial|exact Hb].
    intros ids. apply bind_tables_good_entries. intros; exact I.
Qed.

Lemma run_rectangular n st :
  table_run extracted_unmarked n st -> good_tables always_rectangular st.
Proof.
  induction 1 as [page_start|n pg st tb _ IH _ [Hpg Hno] Hb].
  - split; [constructor | exact I].
  - eapply table_block_good; [exact IH| | |exact Hb].
    + now apply extracted_page_rectangular.
    + now apply merge_keeps_rectangular.
Qed.

(** A run with its pages is a run. *)
Lemma history_run allowed pages n st :
  table_history allowed pages n st -> table_run allowed n st.
Proof.
  induction 1 as [page_start|pages n pg st tb _ IH Hn Ha Hb].
  - apply run_start.
  - eapply run_page; eauto.
Qed.

Lemma in_tail_app {A} (l : list A) (x y : A) :
  l <> [] -> In x (tail l) \/ x = y -> In x (tail (l ++ [y])).
Proof.
  destruct l as [|a l]; [contradiction|]. intros _ H. cbn [tail app].
  apply in_or_app. destruct H as [H| ->]; [now left|right; now left].
Qed.

(** More pages only make [continued_without_marker] harder to satisfy. *)
Lemma rectangular_unless_marked_more pages pg table_id pdf_pages cols body :
  rectangular_unless_marked pages table_id pdf_pages cols body ->
  rectangular_unless_marked (pages ++ [pg]) table_id pdf_pages cols body.
Proof.
  intros [Hne H]. split; [exact Hne|]. intros Hfree. apply H.
  intros pg' Hin. apply Hfree, in_or_app. now left.
Qed.

Lemma good_tables_impl (Q Q' : TableProperty) st :
  (forall i pp c r, Q i pp c r -> Q' i pp c r) ->
  good_tables Q st -> good_tables Q' st.
Proof.
  intros HQ [Hfiles Hpend]. split.
  - eapply Forall_impl; [exact Hfiles|]. intros f [Hs Hf]. split; [exact Hs|]. now apply HQ.
  - destruct (pending_table st); [now apply HQ|exact I].
Qed.

(** On its last page a run merges a continuation without a CONTINUED marker
    only under equal column headers. *)
Lemma merge_keeps_unless_marked pages pg st :
  merge_keeps (rectangular_unless_marked (pages ++ [pg])) pg st.
Proof.
  intros p e Hp [Hne HQ] [_ He] Hm. split.
  { intros Happ. apply app_eq_nil in Happ as [_ Happ]. discriminate Happ. }
  intros Hfree.
  assert (Hno : has_continued_marker (tp_label_lines_original pg) (Pending.table_id p)
                = false).
  { apply Hfree; [apply in_or_app; right; now left|].
    apply in_tail_app; [exact Hne|now right]. }
  rewrite Hno in Hm. apply match_without_marker in Hm.
  unfold rectangular in *. apply Forall_app. split.
  - apply HQ. intros pg' Hin Htail. apply Hfree; [exact Hin|].
    apply in_tail_app; [exact Hne|now left].
  - rewrite <- Hm. apply He. intros pg' _ [].
Qed.

Lemma history_rectangular pages n st :
  table_history (fun pg _ => extracted_page pg) pages n st ->
  good_tables (rectangular_unless_marked pages) st.
Proof.
  induction 1 as [page_start|pages n pg st tb _ IH Hn Hpg Hb].
  - split; [constructor | exact I].
  - eapply table_block_good; [| | |exact Hb].
    + eapply good_tables_impl; [|exact IH].
      intros i pp c r. apply rectangular_unless_marked_more.
    + apply bind_tables_good_entries. intros t i Ht.
      destruct (Hpg t Ht) as (_ & words & ->).
      split; [discriminate|]. intros _. apply extraction_rectangular.
    + apply merge_keeps_unless_marked.
Qed.

End RoundTrip.

(** C8 (as the code has it).  For every emitted table the cells written to
    the text, CSV and JSON outputs are the same lists.  Every grid extraction
    has as many column headers as cells in every body row.  So has, in every
    run, every table emitted from a single page, and every merged table whose
    continuation pages (its pages after the first) carry no CONTINUED marker
    for it, whatever markers the other tables of the run have: a
    continuation is then merged only if its column headers equal those of
    the pending table.  In particular every table of a run without such
    markers has. *)
Theorem C8_table_round_trip :
  (forall n st, table_run (fun pg _ => extracted_page pg) n st ->
     Forall same_cells (table_files st)) /\
  (forall words candidate page_num,
     let e := extract_table_cells_from_grid words candidate page_num in
     rectangular (columns e) (rows e)) /\
  (* table by table *)
  (forall pages n st, table_history (fun pg _ => extracted_page pg) pages n st ->
     Forall (fun f =>
               same_cells f /\
               ((exists page, tf_json_pdf_pages f = [page]) ->
                  rectangular (tf_json_columns f) (tf_json_rows f)) /\
               ((forall pg, In pg pages ->
                    In (tp_page_num pg) (tail (tf_json_pdf_pages f)) ->
                    has_continued_marker (tp_label_lines_original pg) (tf_table_id f)
                    = false) ->
                  rectangular (tf_json_columns f) (tf_json_rows f)))
            (table_files st)) /\
  (* a run without markers *)
  (forall n st, table_run extracted_unmarked n st ->
     Forall (fun f => same_cells f /\ rectangular (tf_json_columns f) (tf_json_rows f))
            (table_files st)).
Proof.
  split; [|split; [|split]].
  - intros n st Hrun. destruct (run_same_cells n st Hrun) as [Hfiles _].
    eapply Forall_impl; [exact Hfiles|]. intros f [Hs _]. exact Hs.
  - apply extraction_rectangular.
  - intros pages n st Hrun. destruct (history_rectangular pages n st Hrun) as [Hfiles _].
    eapply Forall_impl; [exact Hfiles|]. intros f [Hs [_ Hf]].
    split; [exact Hs|]. split; [|exact Hf].
    intros [page Hpage]. apply Hf. intros pg _ Hin. rewrite Hpage in Hin. destruct Hin.
  - intros n st Hrun. destruct (run_rectangular n st Hrun) as [Hfiles _].
    exact Hfiles.
Qed.

(** Pages 7 and 8 of the sample run, page 8 continuing TABLE R302.1 under a
    CONTINUED marker. *)
Example history_of_two_pages :
  table_history (fun pg _ => extracted_page pg) [page7; page8_continued] 9
    (tb_state block8_continued) /\
  map tf_json_pdf_pages (table_files (tb_state block8_continued)) = [[7; 8]%Z] /\
  has_continued_marker (tp_label_lines_original page8_continued) "R302.1" = true.
Proof.
  split; [|split; vm_compute; reflexivity].
  apply (history_page _ [page7] 8 page8_continued (tb_state block7) block8_continued).
  - apply (history_page _ [] 7 page7 initial_tables block7).
    + apply history_start.
    + reflexivity.
    + intros t [<-|[]]. split; [vm_compute; reflexivity|]. eexists. reflexivity.
    + vm_compute. reflexivity.
  - reflexivity.
  - intros t [<-|[]]. split; [vm_compute; reflexivity|]. eexists. reflexivity.
  - vm_compute. reflexivity.
Qed.

(** C8 (header count and cell count differ after a merge by marker).  Page 7
    leaves the two-column TABLE R302.1 pending; page 8 holds a three-column
    grid labelled TABLE R302.1 (CONTINUED).  The table written has two
    column headers and a body row of three cells. *)
Lemma C8_merged_table_counterexample : ~ round_trip_as_specified.
Proof.
  intros H.
  assert (Hrun : table_run (fun pg _ => extracted_page pg) 9 (tb_state block8_continued)).
  { apply (run_page _ 8 page8_continued (tb_state block7) block8_continued).
    - apply (run_page _ 7 page7 initial_tables block7).
      + apply run_start.
      + reflexivity.
      + intros t [<-|[]]. split; [vm_compute; reflexivity|]. eexists. reflexivity.
      + vm_compute. reflexivity.
    - reflexivity.
    - intros t [<-|[]]. split; [vm_compute; reflexivity|]. eexists. reflexivity.
    - vm_compute. reflexivity. }
  specialize (H _ _ Hrun).
  assert (Hf : exists f rest, table_files (tb_state block8_continued) = f :: rest /\
             tf_json_columns f = ["Wall"; "Rating"] /\
             tf_json_rows f = [["Exterior"; "1h"]; ["Interior"; "2h"; "5ft"]]).
  { eexists _, _. split; [vm_compute; reflexivity|]. split; reflexivity. }
  destruct Hf as (f & rest & Hfiles & Hc & Hr). rewrite Hfiles in H.
  inversion H as [|? ? [_ Hrect] _]; subst.
  unfold rectangular in Hrect. rewrite Hc, Hr in Hrect.
  inversion Hrect as [|? ? _ Hrest]; subst.
  inversion Hrest as [|? ? Hlen _]; subst. simpl in Hlen. discriminate Hlen.
Qed.


(* ===================================================================== *)
(** * Part III: further properties of the code *)
(* ===================================================================== *)

(** ** Numbers: medians, percentiles and snapping *)

Section NumberFacts.

Lemma sorted_floats_length values :
  List.length (sorted_floats values) = List.length values.
Proof. unfold sorted_floats. apply Permutation_length, sorted_by_perm. Qed.

Lemma sorted_floats_nth values i :
  (i < List.length values)%nat -> In (nth i (sorted_floats values) 0%Q) values.
Proof.
  intros Hi. apply sorted_floats_In, nth_In. now rewrite sorted_floats_length.
Qed.

Lemma fold_Qmin_In : forall rest x, In (fold_left Qmin rest x) (x :: rest).
Proof.
  induction rest as [|y rest IH]; intros x; simpl; [now left|].
  destruct (IH (Qmin x y)) as [H|H].
  - rewrite <- H. unfold Qmin, GenericMinMax.gmin.
    destruct (x ?= y)%Q; [left|left|right; left]; reflexivity.
  - right. right. exact H.
Qed.

Lemma fold_Qmax_In : forall rest x, In (fold_left Qmax rest x) (x :: rest).
Proof.
  induction rest as [|y rest IH]; intros x; simpl; [now left|].
  destruct (IH (Qmax x y)) as [H|H].
  - rewrite <- H. unfold Qmax, GenericMinMax.gmax.
    destruct (x ?= y)%Q; [left|right; left|left]; reflexivity.
  - right. right. exact H.
Qed.


Lemma median_cases values :
  values <> [] ->
  exists m a b, median values = Return m /\ In a values /\ In b values /\
                (m = a \/ m = ((a + b) / 2)%Q).
Proof.
  intros Hne. unfold median. destruct values as [|v vs]; [congruence|].
  set (vals := v :: vs) in *.
  assert (Hlen : (0 < List.length vals)%nat) by (simpl; lia).
  rewrite sorted_floats_length.
  assert (Hmid : (List.length vals / 2 < List.length vals)%nat)
    by (apply Nat.div_lt; lia).
  pose proof (sorted_floats_nth vals _ Hmid) as Hin.
  assert (Hmid' : (List.length vals / 2 - 1 < List.length vals)%nat) by lia.
  pose proof (sorted_floats_nth vals _ Hmid') as Hin'.
  destruct (_ =? 1)%nat.
  - eexists _, _, _. split; [reflexivity|]. split; [exact Hin|]. split; [exact Hin|].
    left. reflexivity.
  - eexists _, _, _. split; [reflexivity|]. split; [exact Hin'|]. split; [exact Hin|].
    right. reflexivity.
Qed.

End NumberFacts.

(** X1.  The median of a non-empty list is computed without failure and lies
    between any lower and any upper bound of the values; the empty list is
    rejected with MEDIAN_EMPTY. *)
Theorem median_between_bounds (values : list Q) (lo hi : Q) :
  values <> [] ->
  Forall (fun v => lo <= v)%Q values ->
  Forall (fun v => v <= hi)%Q values ->
  (exists m, median values = Return m /\ (lo <= m)%Q /\ (m <= hi)%Q) /\
  (exists detail, median [] = Raise (format_error "MEDIAN_EMPTY" None detail)).
Proof.
  intros Hne Hlo Hhi. split; [|eexists; reflexivity].
  rewrite Forall_forall in Hlo, Hhi.
  destruct (median_cases values Hne) as (m & a & b & Hm & Ha & Hb & Hcase).
  apply list_elem_of_In in Ha, Hb.
  pose proof (Hlo _ Ha). pose proof (Hlo _ Hb).
  pose proof (Hhi _ Ha). pose proof (Hhi _ Hb).
  exists m. split; [exact Hm|]. destruct Hcase as [->| ->].
  - split; assumption.
  - split.
    + apply Qle_shift_div_l; [reflexivity|]. lra.
    + apply Qle_shift_div_r; [reflexivity|]. lra.
Qed.

Lemma median_between_bounds_witness :
  (exists m, median [3; 1; 2]%Q = Return m /\ (1 <= m)%Q /\ (m <= 3)%Q) /\
  (exists detail, median [] = Raise (format_error "MEDIAN_EMPTY" None detail)).
Proof.
  apply (median_between_bounds [3; 1; 2]%Q 1 3).
  - discriminate.
  - repeat constructor; discriminate.
  - repeat constructor; discriminate.
Defined.



Section RoundingFacts.

Lemma py_round_near x : (Qabs (inject_Z (py_round x) - x) <= 1 # 2)%Q.
Proof.
  unfold py_round.
  pose proof (Qfloor_le x) as Hlo. pose proof (Qlt_floor x) as Hhi.
  rewrite inject_Z_plus in Hhi. change (inject_Z 1) with 1%Q in Hhi.
  set (f := Qfloor x) in *.
  assert (Hup : (Qabs (inject_Z (f + 1) - x) <= 1 # 2)%Q <->
                (1 # 2 <= x - inject_Z f)%Q).
  { rewrite inject_Z_plus. change (inject_Z 1) with 1%Q.
    split; intros H.
    - apply Qabs_Qle_condition in H as [_ H]. lra.
    - apply Qabs_Qle_condition. split; lra. }
  destruct (Qlt_bool (x - inject_Z f) (1 # 2)) eqn:H1.
  { apply Qlt_bool_true in H1. apply Qabs_Qle_condition. split; lra. }
  apply Qlt_bool_false in H1.
  destruct (Qlt_bool (1 # 2) (x - inject_Z f)) eqn:H2; [now apply Hup|].
  apply Qlt_bool_false in H2.
  destruct (Z.even f); [|now apply Hup].
  apply Qabs_Qle_condition. split; lra.
Qed.

Lemma py_round_integer x n : x == inject_Z n -> py_round x = n.
Proof.
  intros Hx. unfold py_round. rewrite (Qfloor_comp _ _ Hx), Qfloor_Z.
  replace (Qlt_bool (x - inject_Z n) (1 # 2)) with true; [reflexivity|].
  symmetry. apply Qlt_bool_true. lra.
Qed.

Lemma mod_360_range x : (0 <= mod_360 x)%Q /\ (mod_360 x < 360)%Q.
Proof.
  unfold mod_360.
  pose proof (Qfloor_le (x / 360)) as Hlo. pose proof (Qlt_floor (x / 360)) as Hhi.
  rewrite inject_Z_plus in Hhi. change (inject_Z 1) with 1%Q in Hhi.
  set (f := inject_Z (Qfloor (x / 360))) in *.
  assert (Hx : x == 360 * (x / 360)) by (field).
  split; lra.
Qed.

Lemma point_in_some_bbox_existsb x y bboxes :
  point_in_some_bbox x y bboxes = existsb (point_in_bbox x y) bboxes.
Proof.
  induction bboxes as [|b rest IH]; simpl; [reflexivity|].
  rewrite IH. destruct (point_in_bbox x y b); reflexivity.
Qed.

Lemma count_points_from_spec bboxes : forall points count,
  count_points_from count points bboxes
  = (count + Z.of_nat (List.length
       (List.filter (fun p : Q * Q => existsb (point_in_bbox (fst p) (snd p)) bboxes)
                    points)))%Z.
Proof.
  induction points as [|[x y] rest IH]; intros count; simpl; [lia|].
  rewrite IH, point_in_some_bbox_existsb.
  destruct (existsb _ bboxes); simpl; lia.
Qed.

Lemma text_length_positive n : (0 < inject_Z (Z.max (Z.of_nat n) 1))%Q.
Proof. change 0%Q with (inject_Z 0). rewrite <- Zlt_Qlt. lia. Qed.

Lemma char_widths_positive words : Forall (fun v => 0 < v)%Q (char_widths words).
Proof.
  unfold char_widths. induction words as [|w rest IH]; simpl; [constructor|].
  apply Forall_app. split; [|exact IH].
  destruct (Word.text w) as [|c t]; [constructor|].
  match goal with |- context [Qlt_bool 0 ?v] => destruct (Qlt_bool 0 v) eqn:Hv end;
    [|constructor].
  constructor; [|constructor]. apply Qlt_bool_true in Hv. exact Hv.
Qed.

Lemma median_positive values :
  values <> [] -> Forall (fun v => 0 < v)%Q values ->
  exists m, median values = Return m /\ (0 < m)%Q.
Proof.
  intros Hne Hpos. rewrite Forall_forall in Hpos.
  destruct (median_cases values Hne) as (m & a & b & Hm & Ha & Hb & Hcase).
  apply list_elem_of_In in Ha, Hb. apply Hpos in Ha, Hb.
  exists m. split; [exact Hm|]. destruct Hcase as [->| ->]; [exact Ha|].
  apply Qlt_shift_div_l; [reflexivity|]. lra.
Qed.

End RoundingFacts.

(** X3.  [snap_value] returns a multiple of half a point that is at most a
    quarter of a point away from its argument, and snapping a snapped value
    changes nothing. *)
Theorem snap_value_nearest_half_point (value : Q) :
  (exists n : Z, snap_value value == inject_Z n * (1 # 2)) /\
  (Qabs (snap_value value - value) <= 1 # 4)%Q /\
  snap_value (snap_value value) == snap_value value.
Proof.
  unfold snap_value, RULING_SNAP_GRID.
  set (n := py_round (value / (1 # 2))).
  split; [exists n; reflexivity|]. split.
  - pose proof (py_round_near (value / (1 # 2))) as H. fold n in H.
    apply Qabs_Qle_condition in H as [H1 H2].
    assert (Hv : value / (1 # 2) == 2 * value) by field.
    apply Qabs_Qle_condition. split; lra.
  - rewrite (py_round_integer (inject_Z n * (1 # 2) / (1 # 2)) n); [reflexivity|].
    field.
Qed.

(** X4.  [angle_diff] is symmetric in its arguments and always lies between
    0 and 180 degrees. *)
Theorem angle_diff_symmetric_within_half_turn (a b : Q) :
  (0 <= angle_diff a b)%Q /\ (angle_diff a b <= 180)%Q /\
  angle_diff a b == angle_diff b a.
Proof.
  unfold angle_diff.
  destruct (mod_360_range (Qabs (a - b))) as [H0 H360].
  split; [|split].
  - apply Q.min_glb; lra.
  - destruct (Qlt_le_dec (mod_360 (Qabs (a - b))) 180) as [H|H].
    + eapply Qle_trans; [apply Q.le_min_l|]. lra.
    + eapply Qle_trans; [apply Q.le_min_r|]. lra.
  - rewrite (Qabs_Qminus a b). reflexivity.
Qed.

(** X5.  [count_points_in_bboxes] counts every point that lies in at least
    one box exactly once, however many boxes hold it; the count never exceeds
    the number of points and is 0 when there are no boxes. *)
Theorem count_points_in_bboxes_counts_once (points : list (Q * Q)) (bboxes : list BBox) :
  count_points_in_bboxes points bboxes
  = Z.of_nat (List.length
      (List.filter (fun p : Q * Q => existsb (point_in_bbox (fst p) (snd p)) bboxes)
                   points)) /\
  (0 <= count_points_in_bboxes points bboxes <= Z.of_nat (List.length points))%Z /\
  count_points_in_bboxes points [] = 0%Z.
Proof.
  assert (Heq : count_points_in_bboxes points bboxes
                = Z.of_nat (List.length
                    (List.filter (fun p : Q * Q =>
                       existsb (point_in_bbox (fst p) (snd p)) bboxes) points))).
  { unfold count_points_in_bboxes.
    destruct points as [|p rest]; [reflexivity|].
    destruct bboxes as [|b bs].
    - simpl. induction rest as [|q rest IH]; simpl; [reflexivity|exact IH].
    - cbn [is_nil orb]. rewrite count_points_from_spec. lia. }
  split; [exact Heq|]. split.
  - rewrite Heq. pose proof (filter_length_le
      (fun p : Q * Q => existsb (point_in_bbox (fst p) (snd p)) bboxes) points). lia.
  - unfold count_points_in_bboxes. destruct points; reflexivity.
Qed.

(** X6.  The median character width that [compute_char_metrics] returns is
    positive and the gap threshold is half of it; the function fails with
    CHAR_WIDTH_MISSING exactly when no word has a non-empty text and a
    positive width.  The width [median_char_width_for_words] returns is
    positive for every list of words. *)
Theorem char_width_always_positive (words : list Word.t) (page_num : Z) :
  match compute_char_metrics words page_num with
  | Return (median_width, gap_threshold) =>
      (0 < median_width)%Q /\ gap_threshold == median_width * (1 # 2) /\
      exists w, In w words /\ Word.text w <> "" /\ (Word.x0 w < Word.x1 w)%Q
  | Raise e =>
      (exists detail, e = format_error "CHAR_WIDTH_MISSING" (Some page_num) detail) /\
      Forall (fun w => Word.text w = "" \/ (Word.x1 w <= Word.x0 w)%Q) words
  end /\
  (0 < median_char_width_for_words words)%Q.
Proof.
  split.
  - unfold compute_char_metrics.
    destruct (char_widths words) as [|v vs] eqn:Hw.
    + split; [eexists; reflexivity|].
      unfold char_widths in Hw. apply Forall_forall. intros w Hin.
      apply list_elem_of_In in Hin.
      destruct (Word.text w) as [|c t] eqn:Ht; [left; reflexivity|right].
      induction words as [|w' rest IH]; [destruct Hin|].
      simpl in Hw. apply app_eq_nil in Hw as [Hw1 Hw2].
      destruct Hin as [->|Hin]; [|exact (IH Hw2 Hin)].
      rewrite Ht in Hw1.
      match type of Hw1 with context [Qlt_bool 0 ?v] =>
        destruct (Qlt_bool 0 v) eqn:Hv; [discriminate|] end.
      apply Qlt_bool_false in Hv.
      apply Qnot_lt_le. intros Hlt.
      eapply Qlt_not_le; [|exact Hv].
      apply Qlt_shift_div_l; [apply text_length_positive|lra].
    + pose proof (char_widths_positive words) as Hpos. rewrite Hw in Hpos.
      destruct (median_positive (v :: vs)) as (m & Hm & Hm0); [discriminate|exact Hpos|].
      rewrite Hm. cbn [mbind result_bind]. split; [exact Hm0|]. split; [reflexivity|].
      assert (Hin : In v (char_widths words)) by (rewrite Hw; now left).
      unfold char_widths in Hin. apply in_flat_map in Hin as (w & Hw1 & Hw2).
      exists w. split; [exact Hw1|].
      destruct (Word.text w) as [|c t] eqn:Ht; [destruct Hw2|].
      split; [discriminate|].
      match type of Hw2 with context [Qlt_bool 0 ?v] =>
        destruct (Qlt_bool 0 v) eqn:Hv; [|destruct Hw2] end.
      apply Qlt_bool_true in Hv.
      apply Qnot_le_lt. intros Hle.
      eapply Qlt_not_le; [exact Hv|].
      apply Qle_shift_div_r; [apply text_length_positive|lra].
  - unfold median_char_width_for_words. fold (char_widths words).
    destruct (char_widths words) as [|v vs] eqn:Hw; [reflexivity|].
    pose proof (char_widths_positive words) as Hpos. rewrite Hw in Hpos.
    destruct (median_positive (v :: vs)) as (m & Hm & Hm0); [discriminate|exact Hpos|].
    rewrite Hm. exact Hm0.
Qed.

(** ** Rotation of boxes *)

Section RotationOfBoxes.

Lemma fold_Qmin_le : forall rest x y, In y (x :: rest) -> (fold_left Qmin rest x <= y)%Q.
Proof.
  induction rest as [|z rest IH]; intros x y Hy; simpl.
  - destruct Hy as [->|[]]. apply Qle_refl.
  - destruct Hy as [->|[->|Hy]].
    + eapply Qle_trans; [apply IH; now left|]. apply Q.le_min_l.
    + eapply Qle_trans; [apply IH; now left|]. apply Q.le_min_r.
    + apply IH. now right.
Qed.

Lemma fold_Qmax_ge : forall rest x y, In y (x :: rest) -> (y <= fold_left Qmax rest x)%Q.
Proof.
  induction rest as [|z rest IH]; intros x y Hy; simpl.
  - destruct Hy as [->|[]]. apply Qle_refl.
  - destruct Hy as [->|[->|Hy]].
    + eapply Qle_trans; [|apply IH; now left]. apply Q.le_max_l.
    + eapply Qle_trans; [|apply IH; now left]. apply Q.le_max_r.
    + apply IH. now right.
Qed.

(** The least element of a non-empty list is its [min]. *)
Lemma min_of_least l m :
  In m l -> (forall y, In y l -> (m <= y)%Q) -> min_of l == m.
Proof.
  intros Hm Hle. destruct l as [|x rest]; [destruct Hm|].
  unfold min_of. apply Qle_antisym.
  - apply fold_Qmin_le, Hm.
  - apply Hle, fold_Qmin_In.
Qed.

Lemma max_of_greatest l m :
  In m l -> (forall y, In y l -> (y <= m)%Q) -> max_of l == m.
Proof.
  intros Hm Hle. destruct l as [|x rest]; [destruct Hm|].
  unfold max_of. apply Qle_antisym.
  - apply Hle, fold_Qmax_In.
  - apply fold_Qmax_ge, Hm.
Qed.

Lemma min_of_bounds l lo hi :
  l <> [] -> (forall y, In y l -> (lo <= y)%Q /\ (y <= hi)%Q) ->
  (lo <= min_of l)%Q /\ (min_of l <= hi)%Q.
Proof.
  intros Hne H. destruct l as [|x rest]; [congruence|]. apply H, fold_Qmin_In.
Qed.

Lemma max_of_bounds l lo hi :
  l <> [] -> (forall y, In y l -> (lo <= y)%Q /\ (y <= hi)%Q) ->
  (lo <= max_of l)%Q /\ (max_of l <= hi)%Q.
Proof.
  intros Hne H. destruct l as [|x rest]; [congruence|]. apply H, fold_Qmax_In.
Qed.

Lemma min_of_le_max_of l : l <> [] -> (min_of l <= max_of l)%Q.
Proof.
  intros Hne. destruct l as [|x rest]; [congruence|].
  eapply Qle_trans; [apply fold_Qmin_le|apply fold_Qmax_ge]; now left.
Qed.

Ltac in_four := simpl; intuition (subst; lra).

(** The four corners of a box whose sides are ordered. *)
Lemma min_of_corners a b : (a <= b)%Q ->
  min_of [a; b; b; a] == a /\ max_of [a; b; b; a] == b /\
  min_of [a; a; b; b] == a /\ max_of [a; a; b; b] == b /\
  min_of [b; b; a; a] == a /\ max_of [b; b; a; a] == b /\
  min_of [b; a; a; b] == a /\ max_of [b; a; a; b] == b.
Proof.
  intros Hab.
  repeat split;
    (apply min_of_least || apply max_of_greatest); in_four.
Qed.

Lemma rotate_bbox_ordered bbox width height rot :
  (bx0 bbox <= bx1 bbox)%Q -> (by0 bbox <= by1 bbox)%Q ->
  rot = 0%Z \/ rot = 90%Z \/ rot = 270%Z ->
  exists r, rotate_bbox bbox width height rot = Some r /\
    same_box r
      (if (rot =? 0)%Z then bbox
       else if (rot =? 90)%Z
       then {| bx0 := height - by1 bbox; by0 := bx0 bbox;
               bx1 := height - by0 bbox; by1 := bx1 bbox |}
       else {| bx0 := by0 bbox; by0 := width - bx1 bbox;
               bx1 := by1 bbox; by1 := width - bx0 bbox |}).
Proof.
  intros Hx Hy Hrot. destruct bbox as [a t b u]. cbn [bx0 by0 bx1 by1] in *.
  unfold rotate_bbox, rotate_point. cbn [bx0 by0 bx1 by1].
  destruct Hrot as [->|[->| ->]]; cbn [Z.eqb Pos.eqb]; cbn [fst snd];
    eexists; (split; [reflexivity|]); unfold same_box; cbn [bx0 by0 bx1 by1].
  - destruct (min_of_corners a b Hx) as (H1 & H2 & _).
    destruct (min_of_corners t u Hy) as (_ & _ & H3 & H4 & _).
    repeat split; assumption.
  - assert (Hh : (height - u <= height - t)%Q) by lra.
    destruct (min_of_corners _ _ Hh) as (_ & _ & _ & _ & H1 & H2 & _).
    destruct (min_of_corners a b Hx) as (H3 & H4 & _).
    repeat split; assumption.
  - assert (Hw : (width - b <= width - a)%Q) by lra.
    destruct (min_of_corners t u Hy) as (_ & _ & H1 & H2 & _).
    destruct (min_of_corners _ _ Hw) as (_ & _ & _ & _ & _ & _ & H3 & H4).
    repeat split; assumption.
Qed.

End RotationOfBoxes.

(** X7.  Rotating a box by 0, 90 or 270 degrees and rotating it back with
    [unrotate_bbox] gives the box again, and so does un-rotating first
    (coordinates compared as exact numbers). *)
Theorem unrotate_bbox_inverts_rotate_bbox (bbox : BBox) (width height : Q) (rot : Z) :
  (bx0 bbox <= bx1 bbox)%Q -> (by0 bbox <= by1 bbox)%Q ->
  rot = 0%Z \/ rot = 90%Z \/ rot = 270%Z ->
  (exists r, rotate_bbox bbox width height rot = Some r /\
             same_box (unrotate_bbox r width height rot) bbox) /\
  (exists o, rotate_bbox (unrotate_bbox bbox width height rot) width height rot = Some o /\
             same_box o bbox).
Proof.
  intros Hx Hy Hrot. split.
  - destruct (rotate_bbox_ordered bbox width height rot Hx Hy Hrot) as (r & Hr & Hsame).
    exists r. split; [exact Hr|].
    unfold unrotate_bbox, rotation_dimensions.
    destruct Hrot as [->|[->| ->]]; cbn [Z.eqb Pos.eqb orb] in *.
    + exact Hsame.
    + destruct Hsame as (H1 & H2 & H3 & H4). cbn [bx0 by0 bx1 by1] in *.
      destruct (rotate_bbox_ordered r height width 270) as (o & -> & Ho);
        [lra|lra|auto|].
      cbn [Z.eqb Pos.eqb] in Ho. destruct Ho as (G1 & G2 & G3 & G4).
      cbn [bx0 by0 bx1 by1] in *. unfold same_box. repeat split; lra.
    + destruct Hsame as (H1 & H2 & H3 & H4). cbn [bx0 by0 bx1 by1] in *.
      destruct (rotate_bbox_ordered r height width 90) as (o & -> & Ho);
        [lra|lra|auto|].
      cbn [Z.eqb Pos.eqb] in Ho. destruct Ho as (G1 & G2 & G3 & G4).
      cbn [bx0 by0 bx1 by1] in *. unfold same_box. repeat split; lra.
  - unfold unrotate_bbox, rotation_dimensions.
    destruct Hrot as [->|[->| ->]]; cbn [Z.eqb Pos.eqb orb fst snd] in *.
    + destruct (rotate_bbox_ordered bbox width height 0 Hx Hy) as (o & Ho & Hsame);
        [auto|]. exists o. split; [exact Ho|exact Hsame].
    + destruct (rotate_bbox_ordered bbox height width 270 Hx Hy) as (r & -> & Hr);
        [auto|].
      cbn [Z.eqb Pos.eqb] in Hr. destruct Hr as (H1 & H2 & H3 & H4).
      cbn [bx0 by0 bx1 by1] in *.
      destruct (rotate_bbox_ordered r width height 90) as (o & Ho & Hsame);
        [lra|lra|auto|].
      exists o. split; [exact Ho|].
      cbn [Z.eqb Pos.eqb] in Hsame. destruct Hsame as (G1 & G2 & G3 & G4).
      cbn [bx0 by0 bx1 by1] in *. unfold same_box. repeat split; lra.
    + destruct (rotate_bbox_ordered bbox height width 90 Hx Hy) as (r & -> & Hr);
        [auto|].
      cbn [Z.eqb Pos.eqb] in Hr. destruct Hr as (H1 & H2 & H3 & H4).
      cbn [bx0 by0 bx1 by1] in *.
      destruct (rotate_bbox_ordered r width height 270) as (o & Ho & Hsame);
        [lra|lra|auto|].
      exists o. split; [exact Ho|].
      cbn [Z.eqb Pos.eqb] in Hsame. destruct Hsame as (G1 & G2 & G3 & G4).
      cbn [bx0 by0 bx1 by1] in *. unfold same_box. repeat split; lra.
Qed.

Lemma unrotate_bbox_inverts_rotate_bbox_witness :
  let bbox := {| bx0 := 100; by0 := 200; bx1 := 300; by1 := 260 |} in
  (exists r, rotate_bbox bbox 612 792 90 = Some r /\
             same_box (unrotate_bbox r 612 792 90) bbox) /\
  (exists o, rotate_bbox (unrotate_bbox bbox 612 792 90) 612 792 90 = Some o /\
             same_box o bbox).
Proof.
  apply (unrotate_bbox_inverts_rotate_bbox
           {| bx0 := 100; by0 := 200; bx1 := 300; by1 := 260 |} 612 792 90).
  - simpl. lra.
  - simpl. lra.
  - right. left. reflexivity.
Defined.

(** X8.  [rotate_bbox] fails exactly for rotations other than 0, 90 and 270
    (180 included); when it succeeds the box it returns has ordered sides,
    whatever the order of the corners given, and a box on the page is mapped
    to a box on the page of the rotated dimensions. *)
Theorem rotate_bbox_normalises (bbox : BBox) (width height : Q) (rot : Z) :
  (rotate_bbox bbox width height rot = None <->
   rot <> 0%Z /\ rot <> 90%Z /\ rot <> 270%Z) /\
  (forall r, rotate_bbox bbox width height rot = Some r ->
     (bx0 r <= bx1 r)%Q /\ (by0 r <= by1 r)%Q /\
     (box_on_page bbox width height ->
      box_on_page r (fst (rotation_dimensions width height rot))
                    (snd (rotation_dimensions width height rot)))).
Proof.
  split.
  - unfold rotate_bbox, rotate_point.
    destruct (rot =? 0)%Z eqn:H0; [apply Z.eqb_eq in H0; split; [discriminate|lia]|].
    destruct (rot =? 90)%Z eqn:H90; [apply Z.eqb_eq in H90; split; [discriminate|lia]|].
    destruct (rot =? 270)%Z eqn:H270; [apply Z.eqb_eq in H270; split; [discriminate|lia]|].
    apply Z.eqb_neq in H0, H90, H270. split; [intros _; auto|reflexivity].
  - intros r Hr. unfold rotate_bbox in Hr.
    destruct (rotate_point (bx0 bbox) (by0 bbox) width height rot) as [p1|] eqn:E1;
      [|discriminate].
    destruct (rotate_point (bx1 bbox) (by0 bbox) width height rot) as [p2|] eqn:E2;
      [|discriminate].
    destruct (rotate_point (bx1 bbox) (by1 bbox) width height rot) as [p3|] eqn:E3;
      [|discriminate].
    destruct (rotate_point (bx0 bbox) (by1 bbox) width height rot) as [p4|] eqn:E4;
      [|discriminate].
    injection Hr as <-. cbn [bx0 by0 bx1 by1].
    split; [apply (min_of_le_max_of [fst p1; fst p2; fst p3; fst p4]); discriminate|].
    split; [apply (min_of_le_max_of [snd p1; snd p2; snd p3; snd p4]); discriminate|].
    intros (Ha & Hab & Hb & Ht & Htu & Hu).
    assert (Hpts : forall x y p, (0 <= x)%Q -> (x <= width)%Q -> (0 <= y)%Q ->
              (y <= height)%Q -> rotate_point x y width height rot = Some p ->
              ((0 <= fst p)%Q /\ (fst p <= fst (rotation_dimensions width height rot))%Q) /\
              ((0 <= snd p)%Q /\ (snd p <= snd (rotation_dimensions width height rot))%Q)).
    { intros x y p Hx0 Hx1 Hy0 Hy1 Hp. unfold rotate_point, rotation_dimensions in *.
      destruct (rot =? 0)%Z eqn:H0.
      { apply Z.eqb_eq in H0. subst rot. injection Hp as <-. simpl. lra. }
      destruct (rot =? 90)%Z eqn:H90.
      { injection Hp as <-. simpl. lra. }
      destruct (rot =? 270)%Z eqn:H270; [|discriminate].
      injection Hp as <-. simpl. lra. }
    assert (H1 : _) by (apply (Hpts (bx0 bbox) (by0 bbox) p1); [lra|lra|lra|lra|exact E1]).
    assert (H2 : _) by (apply (Hpts (bx1 bbox) (by0 bbox) p2); [lra|lra|lra|lra|exact E2]).
    assert (H3 : _) by (apply (Hpts (bx1 bbox) (by1 bbox) p3); [lra|lra|lra|lra|exact E3]).
    assert (H4 : _) by (apply (Hpts (bx0 bbox) (by1 bbox) p4); [lra|lra|lra|lra|exact E4]).
    set (W' := fst (rotation_dimensions width height rot)) in *.
    set (H' := snd (rotation_dimensions width height rot)) in *.
    assert (Hxs : forall y, In y [fst p1; fst p2; fst p3; fst p4] ->
              (0 <= y)%Q /\ (y <= W')%Q).
    { intros y [<-|[<-|[<-|[<-|[]]]]]; tauto. }
    assert (Hys : forall y, In y [snd p1; snd p2; snd p3; snd p4] ->
              (0 <= y)%Q /\ (y <= H')%Q).
    { intros y [<-|[<-|[<-|[<-|[]]]]]; tauto. }
    unfold box_on_page. cbn [bx0 by0 bx1 by1].
    change (Qmin (Qmin (Qmin p1.1 p2.1) p3.1) p4.1)
      with (min_of [fst p1; fst p2; fst p3; fst p4]).
    change (Qmax (Qmax (Qmax p1.1 p2.1) p3.1) p4.1)
      with (max_of [fst p1; fst p2; fst p3; fst p4]).
    change (Qmin (Qmin (Qmin p1.2 p2.2) p3.2) p4.2)
      with (min_of [snd p1; snd p2; snd p3; snd p4]).
    change (Qmax (Qmax (Qmax p1.2 p2.2) p3.2) p4.2)
      with (max_of [snd p1; snd p2; snd p3; snd p4]).
    pose proof (min_of_bounds [fst p1; fst p2; fst p3; fst p4] 0 W' ltac:(discriminate) Hxs).
    pose proof (max_of_bounds [fst p1; fst p2; fst p3; fst p4] 0 W' ltac:(discriminate) Hxs).
    pose proof (min_of_bounds [snd p1; snd p2; snd p3; snd p4] 0 H' ltac:(discriminate) Hys).
    pose proof (max_of_bounds [snd p1; snd p2; snd p3; snd p4] 0 H' ltac:(discriminate) Hys).
    pose proof (min_of_le_max_of [fst p1; fst p2; fst p3; fst p4] ltac:(discriminate)).
    pose proof (min_of_le_max_of [snd p1; snd p2; snd p3; snd p4] ltac:(discriminate)).
    tauto.
Qed.

(** ** Positions and lines *)

Section MergedPositions.
Variable tolerance : Q.
Hypothesis tolerance_nonneg : (0 <= tolerance)%Q.

Lemma merge_positions_fixed : forall values last,
  StronglySorted (fun a b => (a + tolerance < b)%Q) values ->
  Forall (fun p => (last + tolerance < p)%Q) values ->
  merge_positions tolerance last values = values.
Proof.
  induction values as [|value rest IH]; intros last Hs Hlast; [reflexivity|].
  inversion Hs as [|? ? Hs' Hall]; subst.
  inversion Hlast as [|? ? Hlv _]; subst.
  cbn [merge_positions].
  replace (Qlt_bool tolerance (Qabs (value - last))) with true.
  - f_equal. apply IH; assumption.
  - symmetry. apply Qlt_bool_true.
    assert (Habs : Qabs (value - last) == value - last) by (apply Qabs_pos; lra).
    rewrite Habs. lra.
Qed.

Lemma unique_sorted_positions_fixed values :
  StronglySorted (fun a b => (a + tolerance < b)%Q) values ->
  unique_sorted_positions values tolerance = values.
Proof.
  intros Hs. unfold unique_sorted_positions.
  rewrite sorted_floats_id.
  - destruct values as [|first rest]; [reflexivity|].
    inversion Hs; subst. f_equal. apply merge_positions_fixed; assumption.
  - eapply StronglySorted_weaken; [|exact Hs]. intros a b Hab. simpl in Hab. lra.
Qed.

End MergedPositions.

(** X9.  [unique_sorted_positions] is idempotent for a tolerance that is not
    negative: merging the merged positions again changes nothing.  It returns
    no position only when it is given none. *)
Theorem unique_sorted_positions_idempotent (values : list Q) (tolerance : Q) :
  (0 <= tolerance)%Q ->
  unique_sorted_positions (unique_sorted_positions values tolerance) tolerance
  = unique_sorted_positions values tolerance /\
  (unique_sorted_positions values tolerance = [] <-> values = []).
Proof.
  intros Htol. split.
  - apply unique_sorted_positions_fixed; [exact Htol|].
    apply (unique_sorted_positions_spec tolerance Htol values).
  - unfold unique_sorted_positions.
    pose proof (sorted_floats_length values) as Hlen.
    destruct (sorted_floats values) as [|first rest]; split; intros H.
    + destruct values; [reflexivity|discriminate].
    + reflexivity.
    + discriminate.
    + subst values. discriminate.
Qed.

Lemma unique_sorted_positions_idempotent_witness :
  unique_sorted_positions (unique_sorted_positions [0; 50; 51; 100]%Q 1) 1
  = unique_sorted_positions [0; 50; 51; 100]%Q 1 /\
  (unique_sorted_positions [0; 50; 51; 100]%Q 1 = [] <-> [0; 50; 51; 100]%Q = []).
Proof.
  apply (unique_sorted_positions_idempotent [0; 50; 51; 100]%Q 1). discriminate.
Defined.

Lemma StronglySorted_snoc {A} (R : A -> A -> Prop) l x :
  StronglySorted R l -> Forall (fun y => R y x) l -> StronglySorted R (l ++ [x])%list.
Proof.
  induction 1 as [|a l Hs IH Hall]; intros Hx; simpl; [repeat constructor|].
  inversion Hx as [|? ? Hax Hrest]; subst.
  constructor; [apply IH; exact Hrest|].
  apply Forall_app. split; [exact Hall|]. constructor; [exact Hax|constructor].
Qed.

Lemma StronglySorted_reverse {A} (R : A -> A -> Prop) l :
  StronglySorted R l -> StronglySorted (fun a b => R b a) (reverse l).
Proof.
  induction 1 as [|a l Hs IH Hall]; [rewrite reverse_nil; constructor|].
  rewrite reverse_cons. apply StronglySorted_snoc; [exact IH|].
  rewrite Forall_forall in *. intros b Hb. apply Hall. now apply elem_of_reverse.
Qed.

Section LineGrouping.
Variable y_tolerance : Q.
Hypothesis y_tolerance_nonneg : (0 <= y_tolerance)%Q.

Lemma word_top_x0_lt_asym x y :
  word_top_x0_lt x y = true -> word_top_x0_lt y x = false.
Proof.
  unfold word_top_x0_lt. intros H.
  destruct (Qeq_bool (Word.top x) (Word.top y)) eqn:E.
  - apply Qeq_bool_iff in E.
    replace (Qeq_bool (Word.top y) (Word.top x)) with true
      by (symmetry; apply Qeq_bool_iff; lra).
    cbn [negb] in *. apply Qlt_bool_true in H. apply Qlt_bool_false. lra.
  - replace (Qeq_bool (Word.top y) (Word.top x)) with false.
    + cbn [negb] in *. apply Qlt_bool_true in H. apply Qlt_bool_false. lra.
    + symmetry. apply not_true_is_false. intros E'.
      apply Qeq_bool_iff in E'. apply Qeq_bool_neq in E. lra.
Qed.

(** [x] is not ranked above [y]: its key [(top, x0)] is not greater. *)
Lemma word_not_above_iff x y :
  not_above word_top_x0_lt x y <->
  (Word.top x < Word.top y)%Q \/
  (Word.top x == Word.top y /\ (Word.x0 x <= Word.x0 y)%Q).
Proof.
  unfold not_above, word_top_x0_lt.
  destruct (Qeq_bool (Word.top y) (Word.top x)) eqn:E; cbn [negb].
  - apply Qeq_bool_iff in E. rewrite Qlt_bool_false. split.
    + intros H. right. split; [lra|exact H].
    + intros [H|[_ H]]; [lra|exact H].
  - apply Qeq_bool_neq in E. rewrite Qlt_bool_false. split.
    + intros H. left. apply Qnot_le_lt. intros H'. apply E. lra.
    + intros [H|[H _]]; [lra|]. exfalso. apply E. lra.
Qed.

Lemma word_not_above_trans x y z :
  not_above word_top_x0_lt x y -> not_above word_top_x0_lt y z ->
  not_above word_top_x0_lt x z.
Proof. rewrite !word_not_above_iff. intros [H1|[H1 H1']] [H2|[H2 H2']]; lra. Qed.

Lemma sorted_words_tops words :
  StronglySorted (fun a b => (Word.top a <= Word.top b)%Q)
    (sorted_by word_top_x0_lt words).
Proof.
  eapply StronglySorted_weaken;
    [|apply (sorted_by_sorted word_top_x0_lt word_top_x0_lt_asym word_not_above_trans)].
  intros a b H. apply word_not_above_iff in H. lra.
Qed.

(** The lines under construction, the most recent first: their tops
    decrease by more than the tolerance. *)
Let tops_apart (acc : list RawLine) : Prop :=
  StronglySorted (fun a b => (rl_top b + y_tolerance < rl_top a)%Q) acc.

Lemma fold_Qmin_snoc l x y : fold_left Qmin (l ++ [y])%list x = Qmin (fold_left Qmin l x) y.
Proof. now rewrite fold_left_app. Qed.

Lemma fold_Qmax_snoc l x y : fold_left Qmax (l ++ [y])%list x = Qmax (fold_left Qmax l x) y.
Proof. now rewrite fold_left_app. Qed.

Lemma min_of_snoc l y : l <> [] -> min_of (l ++ [y])%list = Qmin (min_of l) y.
Proof. destruct l as [|x l]; [congruence|]. intros _. apply fold_Qmin_snoc. Qed.

Lemma max_of_snoc l y : l <> [] -> max_of (l ++ [y])%list = Qmax (max_of l) y.
Proof. destruct l as [|x l]; [congruence|]. intros _. apply fold_Qmax_snoc. Qed.

Lemma line_hull_new w :
  line_hull y_tolerance
    {| rl_top := Word.top w; rl_bottom := Word.bottom w; rl_x0 := Word.x0 w;
       rl_x1 := Word.x1 w; rl_words := [w] |}.
Proof.
  unfold line_hull. cbn. split; [eexists _, _; split; reflexivity|].
  split; [|repeat split]. constructor; [|constructor]. lra.
Qed.

Lemma line_hull_add cur w :
  line_hull y_tolerance cur ->
  (rl_top cur <= Word.top w)%Q ->
  Qlt_bool y_tolerance (Qabs (Word.top w - rl_top cur)) = false ->
  line_hull y_tolerance
    {| rl_top := rl_top cur; rl_bottom := Qmax (rl_bottom cur) (Word.bottom w);
       rl_x0 := Qmin (rl_x0 cur) (Word.x0 w); rl_x1 := Qmax (rl_x1 cur) (Word.x1 w);
       rl_words := (rl_words cur ++ [w])%list |}.
Proof.
  intros ((first & rest & Hw & Htop) & Hall & Hx0 & Hx1 & Hb) Hle Hnear.
  apply Qlt_bool_false in Hnear.
  assert (Habs : Qabs (Word.top w - rl_top cur) == Word.top w - rl_top cur)
    by (apply Qabs_pos; lra).
  rewrite Habs in Hnear.
  unfold line_hull. cbn [rl_top rl_bottom rl_x0 rl_x1 rl_words].
  assert (Hne : forall f : Word.t -> Q, map f (rl_words cur) <> [])
    by (intros f; rewrite Hw; discriminate).
  split; [exists first, (rest ++ [w])%list; rewrite Hw; split; [reflexivity|exact Htop]|].
  split; [apply Forall_app; split; [exact Hall|constructor; [lra|constructor]]|].
  rewrite !map_app. cbn [map].
  rewrite min_of_snoc, !max_of_snoc by apply Hne.
  rewrite Hx0, Hx1, Hb. repeat split.
Qed.

Lemma group_lines_spec : forall words acc,
  StronglySorted (fun a b => (Word.top a <= Word.top b)%Q) words ->
  tops_apart acc ->
  Forall (line_hull y_tolerance) acc ->
  (forall cur older, acc = cur :: older ->
     Forall (fun w => (rl_top cur <= Word.top w)%Q) words) ->
  let lines := group_lines y_tolerance acc words in
  StronglySorted (fun a b => (rl_top a + y_tolerance < rl_top b)%Q) lines /\
  Forall (line_hull y_tolerance) lines /\
  concat (map rl_words lines) ≡ₚ (concat (map rl_words (reverse acc)) ++ words)%list.
Proof.
  induction words as [|w rest IH]; intros acc Hsorted Hacc Hhull Hcur; cbn [group_lines].
  - cbv zeta. split; [|split].
    + apply (StronglySorted_reverse _ _ Hacc).
    + rewrite Forall_forall in *. intros l Hl. apply Hhull. now apply elem_of_reverse.
    + now rewrite app_nil_r.
  - inversion Hsorted as [|? ? Hsorted' Hw]; subst.
    destruct acc as [|cur older].
    + edestruct (IH [{| rl_top := Word.top w; rl_bottom := Word.bottom w;
                        rl_x0 := Word.x0 w; rl_x1 := Word.x1 w; rl_words := [w] |}])
        as (H1 & H2 & H3).
      * exact Hsorted'.
      * constructor; constructor.
      * constructor; [apply line_hull_new|constructor].
      * intros c o [= <- <-]. exact Hw.
      * split; [exact H1|]. split; [exact H2|]. rewrite H3. reflexivity.
    + pose proof (Hcur cur older eq_refl) as Hge.
      inversion Hge as [|? ? Hcw Hcrest]; subst.
      inversion Hacc as [|? ? Hacc' Hall]; subst.
      inversion Hhull as [|? ? Hc Hhull']; subst.
      destruct (Qlt_bool y_tolerance (Qabs (Word.top w - rl_top cur))) eqn:Hgap.
      * apply Qlt_bool_true in Hgap.
        assert (Habs : Qabs (Word.top w - rl_top cur) == Word.top w - rl_top cur)
          by (apply Qabs_pos; lra).
        rewrite Habs in Hgap.
        edestruct (IH ({| rl_top := Word.top w; rl_bottom := Word.bottom w;
                          rl_x0 := Word.x0 w; rl_x1 := Word.x1 w; rl_words := [w] |}
                       :: cur :: older)) as (H1 & H2 & H3).
        -- exact Hsorted'.
        -- constructor; [exact Hacc|]. constructor; [cbn; lra|].
           eapply Forall_impl; [exact Hall|]. cbn. intros b Hb. lra.
        -- constructor; [apply line_hull_new|exact Hhull].
        -- intros c o [= <- <-]. exact Hw.
        -- split; [exact H1|]. split; [exact H2|]. rewrite H3.
           rewrite (reverse_cons (cur :: older)), map_app, concat_app. cbn.
           rewrite <- app_assoc. reflexivity.
      * edestruct (IH ({| rl_top := rl_top cur;
                          rl_bottom := Qmax (rl_bottom cur) (Word.bottom w);
                          rl_x0 := Qmin (rl_x0 cur) (Word.x0 w);
                          rl_x1 := Qmax (rl_x1 cur) (Word.x1 w);
                          rl_words := (rl_words cur ++ [w])%list |} :: older))
          as (H1 & H2 & H3).
        -- exact Hsorted'.
        -- constructor; [exact Hacc'|exact Hall].
        -- constructor; [apply line_hull_add; assumption|exact Hhull'].
        -- intros c o [= <- <-]. exact Hcrest.
        -- split; [exact H1|]. split; [exact H2|]. rewrite H3.
           rewrite !reverse_cons, !map_app, !concat_app. cbn.
           rewrite !app_nil_r, <- !app_assoc. reflexivity.
Qed.

Lemma raw_lines_spec words :
  let lines := raw_lines words y_tolerance in
  StronglySorted (fun a b => (rl_top a + y_tolerance < rl_top b)%Q) lines /\
  Forall (line_hull y_tolerance) lines /\
  concat (map rl_words lines) ≡ₚ words.
Proof.
  destruct (group_lines_spec (sorted_by word_top_x0_lt words) [])
    as (H1 & H2 & H3).
  - apply sorted_words_tops.
  - constructor.
  - constructor.
  - discriminate.
  - split; [exact H1|]. split; [exact H2|].
    unfold raw_lines. rewrite H3. cbn. apply sorted_by_perm.
Qed.

End LineGrouping.

Lemma StronglySorted_map {A B} (R : B -> B -> Prop) (f : A -> B) l :
  StronglySorted (fun a b => R (f a) (f b)) l -> StronglySorted R (map f l).
Proof.
  induction 1 as [|a l Hs IH Hall]; simpl; constructor; [exact IH|].
  apply Forall_map. exact Hall.
Qed.

(** X10.  The lines [words_to_lines] returns are ordered from the top of the
    page down, the tops of two consecutive lines are more than the tolerance
    apart, and no line has an empty text. *)
Theorem words_to_lines_tops_apart (words : list Word.t)
    (y_tolerance gap_threshold median_char_width : Q) :
  (0 <= y_tolerance)%Q ->
  let lines := words_to_lines words y_tolerance gap_threshold median_char_width in
  StronglySorted (fun a b : Line => (top a + y_tolerance < top b)%Q) lines /\
  Forall (fun l : Line => text l <> "") lines.
Proof.
  intros Htol lines. subst lines. unfold words_to_lines. split.
  - apply StronglySorted_filter, StronglySorted_map. cbn [finish_line top].
    apply (raw_lines_spec y_tolerance Htol words).
  - apply Forall_forall. intros l Hl. apply list_elem_of_In, filter_In in Hl as [_ Hl].
    intros E. rewrite E in Hl. discriminate Hl.
Qed.

Lemma words_to_lines_tops_apart_witness :
  let lines := words_to_lines sample_grid_words 3 1 5 in
  StronglySorted (fun a b : Line => (top a + 3 < top b)%Q) lines /\
  Forall (fun l : Line => text l <> "") lines.
Proof.
  apply (words_to_lines_tops_apart sample_grid_words 3 1 5). discriminate.
Defined.

(** X11.  The first loop of [words_to_lines] puts every word into exactly one
    line, and every line it returns is built from a non-empty group of words
    of the input: the words start within the tolerance below the line's top,
    the line's sides and bottom are the extremes of the group, and its text
    joins the group from left to right. *)
Theorem words_to_lines_groups_words (words : list Word.t)
    (y_tolerance gap_threshold median_char_width : Q) :
  (0 <= y_tolerance)%Q ->
  concat (map rl_words (raw_lines words y_tolerance)) ≡ₚ words /\
  forall line,
    In line (words_to_lines words y_tolerance gap_threshold median_char_width) ->
    exists group,
      group <> [] /\
      (forall w, In w group -> In w words /\ (top line <= Word.top w)%Q /\
                                (Word.top w <= top line + y_tolerance)%Q) /\
      x0 line = min_of (map Word.x0 group) /\
      x1 line = max_of (map Word.x1 group) /\
      bottom line = max_of (map Word.bottom group) /\
      text line = join_words_with_spacing (sorted_by word_x0_lt group)
                    gap_threshold median_char_width.
Proof.
  intros Htol.
  destruct (raw_lines_spec y_tolerance Htol words) as (_ & Hhull & Hperm).
  split; [exact Hperm|].
  intros line Hline. unfold words_to_lines in Hline.
  apply filter_In in Hline as [Hline _]. apply in_map_iff in Hline as (l & <- & Hl).
  fold (raw_lines words y_tolerance) in Hl.
  rewrite Forall_forall in Hhull. apply list_elem_of_In in Hl.
  destruct (Hhull l Hl) as ((first & rest & Hw & Htop) & Hall & Hx0 & Hx1 & Hb).
  exists (rl_words l). cbn [finish_line top x0 x1 bottom text].
  split; [rewrite Hw; discriminate|].
  split; [|repeat split; assumption].
  intros w Hw'. rewrite Forall_forall in Hall. apply list_elem_of_In in Hw'.
  split; [|apply Hall, Hw'].
  apply list_elem_of_In. rewrite <- Hperm.
  apply list_elem_of_In, in_concat. exists (rl_words l).
  split; [|apply list_elem_of_In; exact Hw'].
  apply in_map, list_elem_of_In, Hl.
Qed.

Lemma words_to_lines_groups_words_witness :
  concat (map rl_words (raw_lines sample_grid_words 3)) ≡ₚ sample_grid_words /\
  forall line,
    In line (words_to_lines sample_grid_words 3 1 5) ->
    exists group,
      group <> [] /\
      (forall w, In w group -> In w sample_grid_words /\ (top line <= Word.top w)%Q /\
                                (Word.top w <= top line + 3)%Q) /\
      x0 line = min_of (map Word.x0 group) /\
      x1 line = max_of (map Word.x1 group) /\
      bottom line = max_of (map Word.bottom group) /\
      text line = join_words_with_spacing (sorted_by word_x0_lt group) 1 5.
Proof.
  apply (words_to_lines_groups_words sample_grid_words 3 1 5). discriminate.
Defined.

(** ** Column split: the geometry *)

Section SplitGeometryFacts.

Lemma column_split_geometry_staged words page_width page_num table_bboxes :
  column_split_geometry words page_width page_num table_bboxes
  = column_split_stages words page_width page_num table_bboxes.
Proof.
  unfold column_split_geometry, column_split_stages, initial_gap.
  destruct (is_nil words); [reflexivity|].
  cbv beta zeta delta [fallback_gap recentre split_clusters gap_scan off_center
                       left_cluster_of right_cluster_of].
  destruct (negb (is_nil (List.filter (fun w => Qlt_bool (Word.x0 w) (page_width / 2)) words))
            && is_nil (List.filter (fun w => Qlt_bool (page_width / 2) (Word.x0 w)) words)).
  { reflexivity. }
  destruct (negb (is_nil (List.filter (fun w => Qlt_bool (page_width / 2) (Word.x0 w)) words))
            && is_nil (List.filter (fun w => Qlt_bool (Word.x0 w) (page_width / 2)) words));
    reflexivity.
Qed.

Lemma scan_gaps_inv : forall ws s,
  gap_inv (gs_best_left s, gs_best_right s, gs_best_gap s, None) ->
  let s' := scan_gaps ws s in
  gap_inv (gs_best_left s', gs_best_right s', gs_best_gap s', None).
Proof.
  induction ws as [|w rest IH]; intros s Hs; [exact Hs|].
  cbn [scan_gaps]. apply IH. unfold gap_inv in *.
  cbn [gs_best_left gs_best_right gs_best_gap].
  destruct (Qlt_bool (gs_best_gap s) (Word.x0 w - gs_max_x1 s)); [reflexivity|exact Hs].
Qed.

Lemma gap_scan_inv words center :
  let s := gap_scan words center in
  gap_inv (gs_best_left s, gs_best_right s, gs_best_gap s, None).
Proof.
  unfold gap_scan. cbv zeta. destruct (sorted_by word_x0_lt _); [exact I|].
  apply scan_gaps_inv. exact I.
Qed.

Lemma max_of_filter_lt (f : Word.t -> bool) (key : Word.t -> Q) (bound : Q) words :
  (forall w, f w = true -> (key w < bound)%Q) ->
  List.filter f words <> [] ->
  (max_of (map key (List.filter f words)) < bound)%Q.
Proof.
  intros Hf Hne.
  destruct (List.filter f words) as [|x rest] eqn:E; [congruence|].
  assert (Hin : In (max_of (map key (x :: rest))) (map key (x :: rest)))
    by apply fold_Qmax_In.
  apply in_map_iff in Hin as (w & <- & Hw).
  rewrite <- E in Hw. apply filter_In in Hw as [_ Hw]. now apply Hf.
Qed.

Lemma min_of_filter_gt (f : Word.t -> bool) (key : Word.t -> Q) (bound : Q) words :
  (forall w, f w = true -> (bound < key w)%Q) ->
  List.filter f words <> [] ->
  (bound < min_of (map key (List.filter f words)))%Q.
Proof.
  intros Hf Hne.
  destruct (List.filter f words) as [|x rest] eqn:E; [congruence|].
  assert (Hin : In (min_of (map key (x :: rest))) (map key (x :: rest)))
    by apply fold_Qmin_In.
  apply in_map_iff in Hin as (w & <- & Hw).
  rewrite <- E in Hw. apply filter_In in Hw as [_ Hw]. now apply Hf.
Qed.

Lemma max_of_filter_le (f : Word.t -> bool) (key : Word.t -> Q) (bound : Q) words :
  (forall w, f w = true -> (key w <= bound)%Q) ->
  List.filter f words <> [] ->
  (max_of (map key (List.filter f words)) <= bound)%Q.
Proof.
  intros Hf Hne.
  destruct (List.filter f words) as [|x rest] eqn:E; [congruence|].
  assert (Hin : In (max_of (map key (x :: rest))) (map key (x :: rest)))
    by apply fold_Qmax_In.
  apply in_map_iff in Hin as (w & <- & Hw).
  rewrite <- E in Hw. apply filter_In in Hw as [_ Hw]. now apply Hf.
Qed.

Lemma min_of_filter_ge (f : Word.t -> bool) (key : Word.t -> Q) (bound : Q) words :
  (forall w, f w = true -> (bound <= key w)%Q) ->
  List.filter f words <> [] ->
  (bound <= min_of (map key (List.filter f words)))%Q.
Proof.
  intros Hf Hne.
  destruct (List.filter f words) as [|x rest] eqn:E; [congruence|].
  assert (Hin : In (min_of (map key (x :: rest))) (map key (x :: rest)))
    by apply fold_Qmin_In.
  apply in_map_iff in Hin as (w & <- & Hw).
  rewrite <- E in Hw. apply filter_In in Hw as [_ Hw]. now apply Hf.
Qed.

Lemma is_nil_false {A} (l : list A) : is_nil l = false -> l <> [].
Proof. destruct l; [discriminate|discriminate]. Qed.

Lemma is_nil_true {A} (l : list A) : is_nil l = true -> l = [].
Proof. destruct l; [reflexivity|discriminate]. Qed.

Lemma overlap_impossible words s :
  negb (is_nil (List.filter (fun w => Qlt_bool (Word.x1 w) s) words))
  && negb (is_nil (List.filter (fun w => Qlt_bool s (Word.x0 w)) words))
  && negb (Qlt_bool (max_of (map Word.x1
                       (List.filter (fun w => Qlt_bool (Word.x1 w) s) words))) s
           && Qlt_bool s (min_of (map Word.x0
                       (List.filter (fun w => Qlt_bool s (Word.x0 w)) words))))
  = false.
Proof.
  destruct (is_nil (List.filter (fun w => Qlt_bool (Word.x1 w) s) words)) eqn:E1;
    [reflexivity|].
  destruct (is_nil (List.filter (fun w => Qlt_bool s (Word.x0 w)) words)) eqn:E2;
    [reflexivity|].
  apply is_nil_false in E1, E2. cbn [negb andb].
  apply negb_false_iff, andb_true_iff. split; apply Qlt_bool_true.
  - apply max_of_filter_lt; [|exact E1]. intros w Hx. now apply Qlt_bool_true in Hx.
  - apply min_of_filter_gt; [|exact E2]. intros w Hx. now apply Qlt_bool_true in Hx.
Qed.

Lemma initial_gap_inv words center :
  let choice := initial_gap words center (gap_scan words center) in
  gap_inv choice /\ (snd choice <> None -> one_sided words center).
Proof.
  unfold initial_gap, one_sided. cbv zeta.
  destruct (is_nil (left_cluster_of words center)) eqn:EL;
    destruct (is_nil (right_cluster_of words center)) eqn:ER;
    cbn [negb andb snd].
  - split; [apply gap_scan_inv|congruence].
  - apply is_nil_true in EL. split; [reflexivity|intros _; right; exact EL].
  - apply is_nil_true in ER. split; [reflexivity|intros _; left; exact ER].
  - split; [apply gap_scan_inv|congruence].
Qed.

Lemma fallback_gap_inv words center choice :
  gap_inv choice -> (snd choice <> None -> one_sided words center) ->
  let choice' := fallback_gap words center choice in
  gap_inv choice' /\ (snd choice' <> None -> one_sided words center).
Proof.
  destruct choice as [[[bl br] g] ss]. intros Hinv Hside.
  unfold fallback_gap, one_sided in *. cbv zeta. cbn [snd] in *.
  destruct (no_gap bl br g); [|split; assumption].
  destruct (is_nil (left_cluster_of words center)) eqn:EL;
    destruct (is_nil (right_cluster_of words center)) eqn:ER;
    cbn [negb andb snd].
  - split; assumption.
  - apply is_nil_true in EL. split; [reflexivity|intros _; right; exact EL].
  - apply is_nil_true in ER. split; [reflexivity|intros _; left; exact ER].
  - split; [reflexivity|exact Hside].
Qed.

Lemma half_between (a b : Q) : (a < b)%Q -> (a <= (a + b) / 2)%Q /\ ((a + b) / 2 <= b)%Q.
Proof.
  intros H. split.
  - apply Qle_shift_div_l; [reflexivity|lra].
  - apply Qle_shift_div_r; [reflexivity|lra].
Qed.

(** The check that ends the recomputation of an off-center split. *)
Lemma recentre_check words W n (t : Q * Q * Q * bool) :
  (let '(s, bl', br', _) := t in (bl' <= s)%Q /\ (s <= br')%Q /\ (bl' < br')%Q) ->
  match (let '(split_x', best_left', best_right', relax) := t in
         if off_center W split_x'
         then Raise (format_error "COLUMN_SPLIT_OFFCENTER" (Some n)
                       "Split too far from center.")
         else Return (split_x', best_left', best_right', relax)) with
  | Return (s, bl', br', relax) =>
      (bl' <= s)%Q /\ (s <= br')%Q /\ (bl' < br')%Q /\
      ((Qabs (s - W / 2) <= W * SPLIT_CENTER_TOLERANCE_RATIO)%Q
       \/ one_sided words (W / 2))
  | Raise e =>
      exists detail, e = format_error "COLUMN_SPLIT_OFFCENTER" (Some n) detail
  end.
Proof.
  destruct t as [[[s bl'] br'] relax]. intros (H1 & H2 & H3).
  destruct (off_center W s) eqn:Hs; [eexists; reflexivity|].
  repeat split; try assumption. left. unfold off_center in Hs.
  now apply Qlt_bool_false in Hs.
Qed.

Lemma recentre_spec words W n bl br ss :
  (bl < br)%Q -> (ss <> None -> one_sided words (W / 2)) ->
  match recentre words W n bl br ss with
  | Return (s, bl', br', relax) =>
      (bl' <= s)%Q /\ (s <= br')%Q /\ (bl' < br')%Q /\
      ((Qabs (s - W / 2) <= W * SPLIT_CENTER_TOLERANCE_RATIO)%Q \/ one_sided words (W / 2))
  | Raise e => exists detail, e = format_error "COLUMN_SPLIT_OFFCENTER" (Some n) detail
  end.
Proof.
  intros Hlt Hside. unfold recentre. cbv zeta.
  destruct (half_between bl br Hlt) as [Hh1 Hh2].
  destruct ss as [side|]; cbn [andb].
  { repeat split; try assumption. right. apply Hside. discriminate. }
  destruct (off_center W ((bl + br) / 2)) eqn:Hoff.
  2:{ repeat split; try assumption. left. unfold off_center in Hoff.
      now apply Qlt_bool_false in Hoff. }
  apply recentre_check.
  destruct (is_nil (left_cluster_of words (W / 2))) eqn:EL;
    destruct (is_nil (right_cluster_of words (W / 2))) eqn:ER;
    cbn [negb andb]; try (repeat split; assumption).
  destruct (Qlt_bool _ _) eqn:Hlr.
  { apply Qlt_bool_true in Hlr. destruct (half_between _ _ Hlr). repeat split; assumption. }
  set (center := (W / 2)%Q) in *.
  set (left_words := List.filter (fun w => Qle_bool (Word.x1 w) center) words).
  set (right_words := List.filter (fun w => Qle_bool center (Word.x0 w)) words).
  assert (Hdefault : (center - GUTTER_TOLERANCE <= center)%Q /\
                     (center <= center + GUTTER_TOLERANCE)%Q /\
                     (center - GUTTER_TOLERANCE < center + GUTTER_TOLERANCE)%Q)
    by (unfold GUTTER_TOLERANCE; lra).
  destruct (is_nil left_words) eqn:ELW; [exact Hdefault|].
  destruct (is_nil right_words) eqn:ERW; [exact Hdefault|].
  cbn [negb andb].
  destruct (Qlt_bool (max_of (map Word.x1 left_words)) _) eqn:Hlw; [|exact Hdefault].
  apply Qlt_bool_true in Hlw. apply is_nil_false in ELW, ERW.
  split; [|split; [|exact Hlw]].
  - apply max_of_filter_le; [|exact ELW]. intros w Hx. now apply Qle_bool_iff in Hx.
  - apply min_of_filter_ge; [|exact ERW]. intros w Hx. now apply Qle_bool_iff in Hx.
Qed.

Lemma split_clusters_spec words n tbs s bl br relax :
  match split_clusters words n tbs s bl br relax with
  | Return g =>
      sg_split_x g = s /\ (sg_best_left g <= bl)%Q /\ (br <= sg_best_right g)%Q /\
      sg_relax_cross_check g = relax
  | Raise e =>
      exists detail, e = format_error "COLUMN_SPLIT_CLUSTER_MISSING" (Some n) detail
  end.
Proof.
  unfold split_clusters. cbv zeta.
  destruct (_ && _); [eexists; reflexivity|].
  destruct (_ && _); [eexists; reflexivity|].
  destruct (_ && _); [eexists; reflexivity|].
  rewrite overlap_impossible.
  cbn [sg_split_x sg_best_left sg_best_right sg_relax_cross_check].
  split; [reflexivity|]. split; [|split; [|reflexivity]].
  - destruct (_ && Qlt_bool _ bl) eqn:E; [|apply Qle_refl].
    apply andb_true_iff in E as [_ E]. apply Qlt_bool_true in E. lra.
  - destruct (_ && Qlt_bool br _) eqn:E; [|apply Qle_refl].
    apply andb_true_iff in E as [_ E]. apply Qlt_bool_true in E. lra.
Qed.

Lemma column_split_geometry_cases words W n tbs :
  match column_split_geometry words W n tbs with
  | Return g => words <> [] /\ split_in_gutter words W g
  | Raise e => exists rule detail,
      e = format_error rule (Some n) detail /\ In rule geometry_rules
  end.
Proof.
  rewrite column_split_geometry_staged. unfold column_split_stages.
  destruct (is_nil words) eqn:Hw; [eexists _, _; split; [reflexivity|simpl; tauto]|].
  apply is_nil_false in Hw. cbv zeta.
  destruct (initial_gap_inv words (W / 2)) as [HA1 HA2].
  destruct (fallback_gap_inv words (W / 2) _ HA1 HA2) as [HB1 HB2].
  destruct (fallback_gap words (W / 2) _) as [[[bl br] g] ss].
  cbn [snd] in HB2. unfold gap_inv in HB1.
  destruct bl as [bl|], br as [br|];
    try (eexists _, _; split; [reflexivity|simpl; tauto]).
  destruct (Qle_bool g 0) eqn:Hg; [eexists _, _; split; [reflexivity|simpl; tauto]|].
  apply Qle_bool_false in Hg. subst g.
  destruct (_ && _); [eexists _, _; split; [reflexivity|simpl; tauto]|].
  assert (Hlt : (bl < br)%Q) by lra.
  pose proof (recentre_spec words W n bl br ss Hlt HB2) as Hrec.
  destruct (recentre words W n bl br ss) as [[[[s bl'] br'] relax]|e].
  2:{ destruct Hrec as [detail ->]. eexists _, _; split; [reflexivity|simpl; tauto]. }
  cbn [mbind result_bind].
  destruct Hrec as (H1 & H2 & H3 & H4).
  pose proof (split_clusters_spec words n tbs s bl' br' relax) as Hcl.
  destruct (split_clusters words n tbs s bl' br' relax) as [geo|e].
  2:{ destruct Hcl as [detail ->]. eexists _, _; split; [reflexivity|simpl; tauto]. }
  destruct Hcl as (G1 & G2 & G3 & _).
  split; [exact Hw|]. unfold split_in_gutter. rewrite G1.
  split; [lra|]. split; [lra|]. split; [lra|]. exact H4.
Qed.

End SplitGeometryFacts.

(** X12.  [detect_column_split] fails only under the rules
    COLUMN_SPLIT_MISSING, COLUMN_SPLIT_COMPETING, COLUMN_SPLIT_OFFCENTER,
    COLUMN_SPLIT_CLUSTER_MISSING and COLUMN_SPLIT_CROSS, always naming the
    page: its check for COLUMN_SPLIT_OVERLAP can never fire, because the two
    clusters it compares with the split are the words left and right of it.
    A page without words fails with COLUMN_SPLIT_MISSING. *)
Theorem detect_column_split_never_overlap (words : list Word.t) (page_width : Q)
    (page_num : Z) (median_char_width : Q) (table_bboxes : list BBox)
    (e : RuntimeError) :
  detect_column_split words page_width page_num median_char_width table_bboxes
  = Raise e ->
  (exists rule detail,
     e = format_error rule (Some page_num) detail /\
     In rule (geometry_rules ++ ["COLUMN_SPLIT_CROSS"])%list /\
     rule <> "COLUMN_SPLIT_OVERLAP") /\
  (words = [] -> rule_of e = Some "COLUMN_SPLIT_MISSING").
Proof.
  intros H. unfold detect_column_split in H.
  pose proof (column_split_geometry_cases words page_width page_num table_bboxes) as Hg.
  destruct (column_split_geometry words page_width page_num table_bboxes) as [g|e'] eqn:Hgeo.
  - destruct Hg as [Hne _]. cbn [mbind result_bind] in H.
    split; [|intros ->; congruence].
    assert (Hc : forall ws, cross_split_check g median_char_width table_bboxes
                   page_num ws = Raise e ->
                 exists detail, e = format_error "COLUMN_SPLIT_CROSS" (Some page_num) detail).
    { induction ws as [|w rest IH]; cbn [cross_split_check]; [discriminate|].
      destruct (_ && _); [intros [= <-]; eexists; reflexivity|exact IH]. }
    destruct (cross_split_check g median_char_width table_bboxes page_num words)
      as [[]|e'] eqn:Hcross; [discriminate|].
    injection H as ->. destruct (Hc words Hcross) as [detail ->].
    eexists _, _. split; [reflexivity|]. split; [simpl; tauto|discriminate].
  - cbn [mbind result_bind] in H. injection H as ->.
    destruct Hg as (rule & detail & -> & Hin). split.
    + exists rule, detail. split; [reflexivity|]. split.
      * apply in_or_app. left. exact Hin.
      * intros ->. simpl in Hin. intuition discriminate.
    + intros ->. unfold column_split_geometry in Hgeo. cbn [is_nil] in Hgeo.
      injection Hgeo as <- _. reflexivity.
Qed.

Lemma detect_column_split_never_overlap_witness :
  (exists rule detail,
     format_error "COLUMN_SPLIT_MISSING" (Some 4%Z)
       "No body words available to detect column split."
     = format_error rule (Some 4%Z) detail /\
     In rule (geometry_rules ++ ["COLUMN_SPLIT_CROSS"])%list /\
     rule <> "COLUMN_SPLIT_OVERLAP") /\
  ([] = @nil Word.t ->
   rule_of (format_error "COLUMN_SPLIT_MISSING" (Some 4%Z)
              "No body words available to detect column split.")
   = Some "COLUMN_SPLIT_MISSING").
Proof.
  apply (detect_column_split_never_overlap [] 600 4 5 []). reflexivity.
Defined.

(** X13.  When [detect_column_split] returns, the page has words, the split
    lies inside the gutter it returns, the gutter is not empty, and the split
    is within 15 percent of the page width of the center of the page unless
    the page is single-sided (no word starts right of the center, or none
    left of it). *)
Theorem detect_column_split_inside_gutter (words : list Word.t) (page_width : Q)
    (page_num : Z) (median_char_width : Q) (table_bboxes : list BBox)
    (split_x gutter_left gutter_right : Q) :
  detect_column_split words page_width page_num median_char_width table_bboxes
  = Return (split_x, gutter_left, gutter_right) ->
  words <> [] /\
  (gutter_left <= split_x)%Q /\ (split_x <= gutter_right)%Q /\
  (gutter_left < gutter_right)%Q /\
  ((Qabs (split_x - page_width / 2) <= page_width * SPLIT_CENTER_TOLERANCE_RATIO)%Q \/
   one_sided words (page_width / 2)).
Proof.
  intros H. unfold detect_column_split in H.
  pose proof (column_split_geometry_cases words page_width page_num table_bboxes) as Hg.
  destruct (column_split_geometry words page_width page_num table_bboxes) as [g|e'];
    [|discriminate].
  cbn [mbind result_bind] in H.
  destruct (cross_split_check g median_char_width table_bboxes page_num words);
    [|discriminate].
  cbn [mbind result_bind] in H. injection H as <- <- <-.
  destruct Hg as [Hne Hgut]. split; [exact Hne|exact Hgut].
Qed.

Lemma detect_column_split_inside_gutter_witness :
  crossing_words <> [] /\
  (280 <= 600 # 2)%Q /\ (600 # 2 <= 320)%Q /\ (280 < 320)%Q /\
  ((Qabs ((600 # 2) - 600 / 2) <= 600 * SPLIT_CENTER_TOLERANCE_RATIO)%Q \/
   one_sided crossing_words (600 / 2)).
Proof.
  apply (detect_column_split_inside_gutter crossing_words 600 4 5 [] (600 # 2) 280 320).
  vm_compute. reflexivity.
Defined.

(** ** Page ranges *)

Section PageRangeFacts.

Lemma py_range_cons a b : (a < b)%Z -> py_range a b = a :: py_range (a + 1) b.
Proof.
  intros Hab. unfold py_range.
  replace (Z.to_nat (b - a)) with (S (Z.to_nat (b - (a + 1)))) by lia.
  cbn [seq map]. f_equal; [lia|].
  rewrite <- seq_shift, map_map. apply map_ext. intros i. lia.
Qed.

Lemma py_range_nil a b : (b <= a)%Z -> py_range a b = [].
Proof. intros H. unfold py_range. now replace (Z.to_nat (b - a)) with 0%nat by lia. Qed.

Lemma last_py_range : forall n a d, List.last (py_range a (a + Z.of_nat (S n))) d
                                    = (a + Z.of_nat n)%Z.
Proof.
  induction n as [|n IH]; intros a d.
  - rewrite py_range_cons by lia. rewrite py_range_nil by lia. simpl. lia.
  - rewrite py_range_cons by lia.
    replace (a + Z.of_nat (S (S n)))%Z with ((a + 1) + Z.of_nat (S n))%Z by lia.
    pose proof (IH (a + 1)%Z d) as H.
    destruct (py_range (a + 1) (a + 1 + Z.of_nat (S n))) as [|x l] eqn:E.
    + rewrite py_range_cons in E by lia. discriminate.
    + cbn [List.last]. cbn [List.last] in H. rewrite H. lia.
Qed.

Lemma format_pdf_pages_of_range a b :
  (a <= b)%Z ->
  format_pdf_pages (py_range a (b + 1))
  = Return (if (a =? b)%Z then Py.str_of_int a
            else Py.str_of_int a ++ en_dash ++ Py.str_of_int b).
Proof.
  intros Hab. unfold format_pdf_pages.
  rewrite py_range_cons by lia. rewrite <- py_range_cons by lia.
  assert (Hlast : List.last (py_range a (b + 1)) a = b).
  { replace (b + 1)%Z with (a + Z.of_nat (S (Z.to_nat (b - a))))%Z by lia.
    rewrite last_py_range. lia. }
  rewrite Hlast. unfold list_Z_eqb.
  rewrite bool_decide_eq_true_2 by reflexivity. cbn [negb].
  rewrite py_range_length.
  destruct (a =? b)%Z eqn:E.
  - apply Z.eqb_eq in E. subst b.
    replace (Z.to_nat (a + 1 - a)) with 1%nat by lia. reflexivity.
  - apply Z.eqb_neq in E.
    replace (Z.to_nat (b + 1 - a) =? 1)%nat with false; [reflexivity|].
    symmetry. apply Nat.eqb_neq. lia.
Qed.

End PageRangeFacts.

(** X14.  [format_pdf_pages] succeeds exactly on the ascending runs of
    consecutive page numbers: it renders the run from [a] to [b] as [a] when
    it has one page and as [a], an en dash and [b] otherwise; every other list
    is rejected under the rule PDF_PAGE_RANGE. *)
Theorem format_pdf_pages_consecutive_runs (pages : list Z) :
  (forall s, format_pdf_pages pages = Return s <->
     exists a b, (a <= b)%Z /\ pages = py_range a (b + 1) /\
       s = if (a =? b)%Z then Py.str_of_int a
           else Py.str_of_int a ++ en_dash ++ Py.str_of_int b) /\
  (forall e, format_pdf_pages pages = Raise e -> rule_of e = Some "PDF_PAGE_RANGE").
Proof.
  split.
  - intros s. split.
    + intros H. pose proof H as H0. unfold format_pdf_pages in H.
      destruct pages as [|first rest]; [discriminate|].
      remember (first :: rest) as pages eqn:Hpages.
      remember (List.last pages first) as b eqn:Hb.
      destruct (list_Z_eqb pages (py_range first (b + 1))) eqn:E; [|discriminate].
      unfold list_Z_eqb in E. apply bool_decide_eq_true_1 in E.
      assert (Hab : (first <= b)%Z).
      { destruct (Z_le_gt_dec first b) as [Hle|Hgt]; [exact Hle|].
        rewrite py_range_nil in E by lia. congruence. }
      exists first, b. split; [exact Hab|]. split; [exact E|].
      rewrite E, (format_pdf_pages_of_range first b Hab) in H0.
      now injection H0 as <-.
    + intros (a & b & Hab & -> & ->). now apply format_pdf_pages_of_range.
  - intros e H. unfold format_pdf_pages in H.
    destruct pages as [|first rest]; [injection H as <-; reflexivity|].
    destruct (negb _); [injection H as <-; reflexivity|].
    destruct (_ =? _)%nat; discriminate.
Qed.

(** ** Section files *)

Section SectionFiles.

Lemma flush_entry_file entry rest st st' :
  flush_entry entry rest st = Return st' ->
  exists pages,
    st' = {| section_stack := rest;
             section_occurrences := section_occurrences st;
             sections_extracted := (sections_extracted st + 1)%Z;
             section_files :=
               (section_files st ++ [{| sf_section_id := id entry;
                                        sf_chapter := chapter entry;
                                        sf_pdf_page := pages;
                                        sf_body := lines entry |}])%list |}.
Proof.
  unfold flush_entry, write_section. intros H.
  destruct (format_pdf_pages _) as [pages|e]; [|discriminate].
  cbn [mbind result_bind] in H. injection H as <-. exists pages. reflexivity.
Qed.

Lemma sections_inv_pop entry rest st st' :
  sections_inv st -> section_stack st = entry :: rest ->
  flush_entry entry rest st = Return st' -> sections_inv st'.
Proof.
  intros [(Hnd & Hocc & Hcount) (Hfiles & Hstack)] Hst Hf.
  apply flush_entry_file in Hf as [pages ->].
  unfold sections_inv, written_once, bodies_start_with_heading, section_ids in *.
  cbn [section_stack section_occurrences sections_extracted section_files].
  rewrite Hst in *. cbn [map] in *.
  rewrite map_app, length_app. cbn [map List.length sf_section_id].
  rewrite <- app_assoc. cbn [app].
  inversion Hstack as [|? ? Hentry Hrest]; subst.
  repeat split; try assumption.
  - lia.
  - apply Forall_app. split; [exact Hfiles|]. constructor; [exact Hentry|constructor].
Qed.

Lemma sections_inv_flush_deeper candidate_id new_depth : forall stack st st',
  section_stack st = stack -> sections_inv st ->
  flush_deeper candidate_id new_depth stack st = Return st' ->
  sections_inv st' /\ section_occurrences st' = section_occurrences st.
Proof.
  induction stack as [|entry rest IH]; intros st st' Hst Hinv H; simpl in H.
  - injection H as <-. auto.
  - destruct (_ && _).
    + apply bind_Return_inv in H as (st1 & Hf & H).
      pose proof (sections_inv_pop _ _ _ _ Hinv Hst Hf) as Hinv1.
      apply flush_entry_inv in Hf as [Hr Hocc].
      destruct (IH st1 st' Hr Hinv1 H) as (H1 & H2).
      rewrite <- Hocc. auto.
    + injection H as <-. auto.
Qed.

Lemma sections_inv_line pg st line st' :
  sections_inv st -> section_line pg st line = Return st' -> sections_inv st'.
Proof.
  intros Hinv H. unfold section_line in H.
  destruct (sp_is_toc_page pg); [injection H as <-; exact Hinv|].
  destruct (parse_section_marker_line (text line)) as [marker_id|].
  { destruct (section_stack st) as [|entry rest] eqn:Hst.
    - injection H as <-. exact Hinv.
    - eapply sections_inv_pop; eauto. }
  destruct (parse_true_section_heading (text line)) as [candidate_id|] eqn:Hparse.
  - destruct (_ || _); [discriminate|].
    destruct (match section_stack st with [] => false | _ => _ end); [discriminate|].
    apply bind_Return_inv in H as (st1 & Hf & H).
    apply sections_inv_flush_deeper in Hf as [[(Hnd & Hocc & Hcount) (Hfiles & Hstack)] _];
      auto.
    destruct (section_occurrences st1 !! candidate_id) as [prev|] eqn:Hlook;
      [discriminate|].
    injection H as <-.
    unfold sections_inv, written_once, bodies_start_with_heading, section_ids in *.
    cbn [section_stack section_occurrences sections_extracted section_files map id lines].
    assert (Hfresh : candidate_id ∉
              (map sf_section_id (section_files st1) ++ map id (section_stack st1))%list).
    { intros Hin. rewrite Forall_forall in Hocc. apply Hocc in Hin.
      rewrite Hlook in Hin. destruct Hin; discriminate. }
    repeat split.
    + apply NoDup_app in Hnd as (Hnd1 & Hdis & Hnd2).
      apply NoDup_app. split; [exact Hnd1|]. split.
      * intros x Hx Hx'. apply elem_of_cons in Hx' as [->|Hx'].
        -- apply Hfresh. apply elem_of_app. now left.
        -- exact (Hdis x Hx Hx').
      * constructor; [|exact Hnd2]. intros Hin. apply Hfresh.
        apply elem_of_app. now right.
    + apply Forall_app. apply Forall_app in Hocc as [Hocc1 Hocc2].
      assert (Hkeep : forall i, is_Some (section_occurrences st1 !! i) ->
                is_Some (<[candidate_id := sp_page_num pg]> (section_occurrences st1) !! i)).
      { intros i [v Hv]. destruct (decide (candidate_id = i)) as [->|Hne].
        - rewrite lookup_insert_eq. eauto.
        - rewrite lookup_insert_ne by exact Hne. eauto. }
      split.
      * eapply Forall_impl; [exact Hocc1|]. exact Hkeep.
      * constructor; [rewrite lookup_insert_eq; eauto|].
        eapply Forall_impl; [exact Hocc2|]. exact Hkeep.
    + exact Hcount.
    + exact Hfiles.
    + constructor; [|exact Hstack].
      exists (text line), []. cbn. repeat split; [exact Hparse|constructor].
  - destruct (is_spanning_reference (role line)); [injection H as <-; exact Hinv|].
    destruct (_ || _); [injection H as <-; exact Hinv|].
    destruct (section_stack st) as [|entry rest] eqn:Hst.
    + injection H as <-. exact Hinv.
    + injection H as <-.
      destruct Hinv as [(Hnd & Hocc & Hcount) (Hfiles & Hstack)].
      unfold sections_inv, written_once, bodies_start_with_heading, section_ids in *.
      rewrite Hst in *.
      cbn [section_stack section_occurrences sections_extracted section_files map id lines]
        in *.
      repeat split; try assumption.
      inversion Hstack as [|? ? (heading & body & Hb & Hh & Hnone) Hrest]; subst.
      constructor; [|exact Hrest].
      exists heading, (body ++ [text line])%list. cbn [id lines]. rewrite Hb.
      repeat split; [exact Hh|].
      apply Forall_app. split; [exact Hnone|]. constructor; [exact Hparse|constructor].
Qed.

Lemma sections_inv_reachable st : section_reachable st -> sections_inv st.
Proof.
  induction 1 as [|pg st line st' _ IH H|entry rest st st' _ IH Hst H].
  - unfold sections_inv, written_once, bodies_start_with_heading, section_ids. cbn.
    repeat split; constructor.
  - eapply sections_inv_line; eauto.
  - eapply sections_inv_pop; eauto.
Qed.

End SectionFiles.

(** X15.  In every state of the traversal no section id has been written
    twice and no written id is still open; every written or open id is
    registered in [section_occurrences], and the counter
    [sections_extracted] is the number of files written. *)
Theorem section_files_written_once (st : SectionState) :
  section_reachable st ->
  NoDup (map sf_section_id (section_files st)) /\
  NoDup (map id (section_stack st)) /\
  (forall f e, In f (section_files st) -> In e (section_stack st) ->
     sf_section_id f <> id e) /\
  (forall f, In f (section_files st) ->
     is_Some (section_occurrences st !! sf_section_id f)) /\
  sections_extracted st = Z.of_nat (List.length (section_files st)).
Proof.
  intros Hreach.
  destruct (sections_inv_reachable st Hreach) as [(Hnd & Hocc & Hcount) _].
  unfold section_ids in *. apply NoDup_app in Hnd as (Hnd1 & Hdis & Hnd2).
  split; [exact Hnd1|]. split; [exact Hnd2|]. split; [|split; [|exact Hcount]].
  - intros f e Hf He Heq. apply (Hdis (sf_section_id f)).
    + apply list_elem_of_In, in_map, Hf.
    + rewrite Heq. apply list_elem_of_In, in_map, He.
  - intros f Hf. apply Forall_app in Hocc as [Hocc _].
    rewrite Forall_forall in Hocc. apply Hocc, list_elem_of_In, in_map, Hf.
Qed.

Lemma section_files_written_once_witness :
  NoDup (map sf_section_id (section_files sample_sections)) /\
  NoDup (map id (section_stack sample_sections)) /\
  (forall f e, In f (section_files sample_sections) ->
     In e (section_stack sample_sections) -> sf_section_id f <> id e) /\
  (forall f, In f (section_files sample_sections) ->
     is_Some (section_occurrences sample_sections !! sf_section_id f)) /\
  sections_extracted sample_sections
  = Z.of_nat (List.length (section_files sample_sections)).
Proof.
  apply (section_files_written_once sample_sections).
  apply (section_lines_reachable sample_page sample_lines initial_sections).
  - apply reach_initial.
  - vm_compute. reflexivity.
Defined.

(** X16.  In every state of the traversal the text of every section file,
    and of every section still open, starts with the heading line that
    opened the section, which parses to the section's own id, and none of
    its other lines parses as a section heading. *)
Theorem section_text_starts_with_heading (st : SectionState) :
  section_reachable st ->
  Forall (fun f => heading_first (sf_section_id f) (sf_body f)) (section_files st) /\
  Forall (fun e => heading_first (id e) (lines e)) (section_stack st).
Proof.
  intros Hreach. destruct (sections_inv_reachable st Hreach) as [_ H]. exact H.
Qed.

Lemma section_text_starts_with_heading_witness :
  Forall (fun f => heading_first (sf_section_id f) (sf_body f))
         (section_files sample_sections) /\
  Forall (fun e => heading_first (id e) (lines e)) (section_stack sample_sections).
Proof.
  apply (section_text_starts_with_heading sample_sections).
  apply (section_lines_reachable sample_page sample_lines initial_sections).
  - apply reach_initial.
  - vm_compute. reflexivity.
Defined.

(** X17.  The final flush writes every open section, innermost first, each
    with its own id, chapter, lines and page range, counts it and leaves no
    section open; it succeeds whenever no open section ends before it
    starts. *)
Theorem flush_all_writes_every_open_section (st : SectionState) :
  Forall (fun e => (start_page e <= end_page e)%Z) (section_stack st) ->
  exists st',
    flush_all (section_stack st) st = Return st' /\
    section_stack st' = [] /\
    section_files st'
    = (section_files st ++ map file_of_entry (section_stack st))%list /\
    sections_extracted st'
    = (sections_extracted st + Z.of_nat (List.length (section_stack st)))%Z /\
    section_occurrences st' = section_occurrences st.
Proof.
  remember (section_stack st) as stack eqn:Hstack. symmetry in Hstack.
  revert st Hstack.
  induction stack as [|entry rest IH]; intros st Hstack Hpages.
  - exists st. cbn. rewrite app_nil_r. repeat split; [exact Hstack|lia].
  - inversion Hpages as [|? ? Hentry Hrest]; subst.
    cbn [flush_all]. unfold flush_entry, write_section.
    rewrite (format_pdf_pages_of_range _ _ Hentry). cbn [mbind result_bind].
    match goal with |- context [flush_all rest ?s] => set (st1 := s) end.
    destruct (IH st1 eq_refl Hrest) as (st' & Hflush & Hempty & Hfiles & Hcount & Hocc).
    exists st'. split; [exact Hflush|]. split; [exact Hempty|].
    subst st1. cbn [section_files sections_extracted section_occurrences] in *.
    split; [|split; [|exact Hocc]].
    + rewrite Hfiles, <- app_assoc. reflexivity.
    + rewrite Hcount. cbn [List.length]. lia.
Qed.

Lemma flush_all_writes_every_open_section_witness :
  exists st',
    flush_all (section_stack sample_sections) sample_sections = Return st' /\
    section_stack st' = [] /\
    section_files st'
    = (section_files sample_sections
       ++ map file_of_entry (section_stack sample_sections))%list /\
    sections_extracted st'
    = (sections_extracted sample_sections
       + Z.of_nat (List.length (section_stack sample_sections)))%Z /\
    section_occurrences st' = section_occurrences sample_sections.
Proof.
  apply (flush_all_writes_every_open_section sample_sections).
  vm_compute. repeat constructor; discriminate.
Defined.

(** ** Failures of the page loop *)

Section LoopFailures.

Lemma message_names_page rule n detail :
  Py.contains ("PDF_PAGE=" ++ Py.str_of_int n)
    (message (format_error rule (Some n) detail)) = true.
Proof.
  apply contains_iff. exists ("RULE=" ++ rule ++ " "), (" detail=" ++ detail).
  cbn [message page_text]. rewrite !append_assoc. reflexivity.
Qed.

Lemma ensure_error_context_spec e n :
  let e' := ensure_error_context e n in
  Py.contains ("PDF_PAGE=" ++ Py.str_of_int n) (message e') = true /\
  is_Some (rule_of e') /\
  ensure_error_context e' n = e'.
Proof.
  cbv zeta. destruct e as [rule p detail|m]; cbn [ensure_error_context].
  - destruct (Py.contains ("PDF_PAGE=" ++ Py.str_of_int n)
                (message (format_error rule p detail))) eqn:E.
    + split; [exact E|]. split; [cbn; eauto|].
      cbn [ensure_error_context]. now rewrite E.
    + split; [apply message_names_page|]. split; [cbn; eauto|].
      apply ensure_error_context_same_page.
  - split; [apply message_names_page|]. split; [cbn; eauto|].
    apply ensure_error_context_same_page.
Qed.

Lemma process_pages_failure : forall pages st e,
  process_pages pages st = Raise e ->
  exists before pg after st0,
    pages = (before ++ pg :: after)%list /\
    process_pages before st = Return st0 /\
    process_page pg st0 = Raise e.
Proof.
  induction pages as [|pg rest IH]; intros st e H; [discriminate|].
  cbn [process_pages] in H.
  destruct (process_page pg st) as [st1|e1] eqn:Hpage.
  - cbn [mbind result_bind] in H.
    destruct (IH st1 e H) as (before & pg' & after & st0 & -> & Hb & Hp).
    exists (pg :: before), pg', after, st0. split; [reflexivity|].
    split; [|exact Hp]. cbn [process_pages]. rewrite Hpage. exact Hb.
  - cbn [mbind result_bind] in H. injection H as <-.
    exists [], pg, rest, st. repeat split. exact Hpage.
Qed.

End LoopFailures.

(** X18.  A failure of the page loop is the failure of one page, after the
    pages before it were processed without failure; its message carries a
    rule and names that page ([PDF_PAGE=<page>]), and passing it through
    [ensure_error_context] for the same page again changes nothing. *)
Theorem page_loop_failure_names_page (pages : list PageInput) (st : DocState)
    (e : RuntimeError) :
  process_pages pages st = Raise e ->
  exists before pg after st0,
    pages = (before ++ pg :: after)%list /\
    process_pages before st = Return st0 /\
    process_page pg st0 = Raise e /\
    let page_num := tp_page_num (pi_tables pg) in
    Py.contains ("PDF_PAGE=" ++ Py.str_of_int page_num) (message e) = true /\
    is_Some (rule_of e) /\
    ensure_error_context e page_num = e.
Proof.
  intros H. destruct (process_pages_failure pages st e H)
    as (before & pg & after & st0 & Hpages & Hb & Hp).
  exists before, pg, after, st0. split; [exact Hpages|]. split; [exact Hb|].
  split; [exact Hp|]. unfold process_page in Hp.
  destruct (page_body pg st0) as [st1|e0]; [discriminate|].
  injection Hp as <-. apply ensure_error_context_spec.
Qed.

(** X19.  Over pages whose header and footer text is ASCII, the page loop
    fails under the rule AMENDMENT_SCAN only if the header text joined to the
    footer text of the failing page holds one of the keywords as a whole
    word: no other part of a page raises that rule. *)
Theorem amendment_failure_only_from_keyword (pages : list PageInput) (st : DocState)
    (e : RuntimeError) :
  Forall (fun pg => Py.isascii (pi_header_text_snippet pg ++ " "
                                ++ pi_footer_text_snippet pg) = true) pages ->
  process_pages pages st = Raise e ->
  rule_of e = Some "AMENDMENT_SCAN" ->
  exists pg kw,
    In pg pages /\ In kw AMENDMENT_KEYWORDS /\
    whole_word_match kw (pi_header_text_snippet pg ++ " " ++ pi_footer_text_snippet pg).
Proof.
  intros _ H Hrule. destruct (process_pages_failure pages st e H)
    as (before & pg & after & st0 & -> & _ & Hp).
  assert (Hscan : is_Some (Re.re_search AMENDMENT_RE
            (pi_header_text_snippet pg ++ " " ++ pi_footer_text_snippet pg))).
  { destruct (Re.re_search AMENDMENT_RE _) as [m|] eqn:Hm; [eauto|].
    exfalso. apply (process_page_other_failure pg st0 e); [|exact Hp|exact Hrule].
    unfold scan_for_amendment_indicators. now rewrite Hm. }
  apply amendment_search_iff in Hscan as (kw & Hkw & Hmatch).
  exists pg, kw. split; [|split; assumption].
  apply in_or_app. right. now left.
Qed.

Lemma page_loop_failure_names_page_witness :
  process_pages [amended_page] initial_document = Raise amended_failure /\
  exists before pg after st0,
    [amended_page] = (before ++ pg :: after)%list /\
    process_pages before initial_document = Return st0 /\
    process_page pg st0 = Raise amended_failure /\
    let page_num := tp_page_num (pi_tables pg) in
    Py.contains ("PDF_PAGE=" ++ Py.str_of_int page_num) (message amended_failure) = true /\
    is_Some (rule_of amended_failure) /\
    ensure_error_context amended_failure page_num = amended_failure.
Proof.
  split; [vm_compute; reflexivity|].
  apply (page_loop_failure_names_page [amended_page] initial_document amended_failure).
  vm_compute. reflexivity.
Defined.

Lemma amendment_failure_only_from_keyword_witness :
  process_pages [amended_page] initial_document = Raise amended_failure /\
  rule_of amended_failure = Some "AMENDMENT_SCAN" /\
  exists pg kw,
    In pg [amended_page] /\ In kw AMENDMENT_KEYWORDS /\
    whole_word_match kw (pi_header_text_snippet pg ++ " " ++ pi_footer_text_snippet pg).
Proof.
  split; [vm_compute; reflexivity|]. split; [reflexivity|].
  apply (amendment_failure_only_from_keyword [amended_page] initial_document
           amended_failure).
  - repeat constructor.
  - vm_compute. reflexivity.
  - reflexivity.
Defined.

(** ** Text of a line, character widths, depth of an id, header position *)

Section LineText.

Lemma remove_spaces_app s t :
  remove_spaces (s ++ t) = remove_spaces s ++ remove_spaces t.
Proof.
  induction s as [|c s IH]; simpl; [reflexivity|].
  rewrite IH. now destruct (Py.isspace c).
Qed.

Lemma remove_spaces_spaces n : remove_spaces (Py.spaces n) = "".
Proof. induction n as [|n IH]; simpl; [reflexivity|exact IH]. Qed.

Lemma join_words_from_text gap_threshold median_char_width : forall words prev_x1,
  remove_spaces (join_words_from prev_x1 words gap_threshold median_char_width)
  = remove_spaces (String.concat "" (map Word.text words)).
Proof.
  assert (Hconcat : forall l t,
            remove_spaces (String.concat "" (t :: l))
            = remove_spaces t ++ remove_spaces (String.concat "" l)).
  { intros l t. destruct l as [|u l]; simpl.
    - clear. induction (remove_spaces t) as [|c r IH]; simpl; [reflexivity|].
      now rewrite <- IH.
    - now rewrite remove_spaces_app. }
  induction words as [|w rest IH]; intros prev_x1; [reflexivity|].
  cbn [join_words_from map]. rewrite Hconcat, !remove_spaces_app, IH.
  replace (remove_spaces _) with "" at 1; [reflexivity|].
  destruct prev_x1 as [p|]; [|reflexivity].
  destruct (Qlt_bool _ _); [|reflexivity]. now rewrite remove_spaces_spaces.
Qed.

Lemma count_digit_runs_app s t : forall in_run,
  count_digit_runs in_run (s ++ String "." t)
  = (count_digit_runs in_run s + count_digit_runs false t)%Z.
Proof.
  induction s as [|c s IH]; intros in_run; simpl; [reflexivity|].
  destruct (Py.isdigit c); rewrite IH; lia.
Qed.

Lemma count_digit_runs_digits d : forall in_run,
  Forall (fun c => Py.isdigit c = true) (list_ascii_of_string d) ->
  count_digit_runs in_run d
  = match d with
    | EmptyString => 0%Z
    | _ => if in_run then 0%Z else 1%Z
    end.
Proof.
  induction d as [|c d IH]; intros in_run Hall; simpl; [reflexivity|].
  simpl in Hall. inversion Hall as [|? ? Hc Hd]; subst. rewrite Hc.
  rewrite (IH true Hd). destruct d, in_run; reflexivity.
Qed.

End LineText.

(** [median_char_width_for_words] never returns a width that is zero or
    negative, whatever the words (without a usable word it returns 1.0), so
    the division by it never fails. *)
Theorem median_char_width_for_words_positive (words : list Word.t) :
  (0 < median_char_width_for_words words)%Q.
Proof.
  unfold median_char_width_for_words.
  match goal with |- context [median ?l] => set (widths := l) end.
  assert (Hpos : Forall (fun v => 0 < v)%Q widths).
  { subst widths. induction words as [|w rest IH]; simpl; [constructor|].
    apply Forall_app. split; [|exact IH].
    destruct (Word.text w) as [|c t]; [constructor|].
    match goal with |- context [Qlt_bool 0 ?v] => destruct (Qlt_bool 0 v) eqn:Hv end;
      [|constructor].
    constructor; [|constructor]. apply Qlt_bool_true in Hv. exact Hv. }
  destruct widths as [|v rest] eqn:E; [reflexivity|].
  destruct (median_positive (v :: rest) ltac:(discriminate) Hpos) as (m & -> & Hm).
  exact Hm.
Qed.

(** X20.  [join_words_with_spacing] only puts spaces between the words: with
    the white space taken out, its result is the texts of the words in their
    order, with the white space taken out. *)
Theorem join_words_with_spacing_keeps_text (words : list Word.t)
    (gap_threshold median_char_width : Q) :
  remove_spaces (join_words_with_spacing words gap_threshold median_char_width)
  = remove_spaces (String.concat "" (map Word.text words)).
Proof. apply join_words_from_text. Qed.

(** X21.  The depth of a section id grows by one with every dotted numeric
    component: the id of a subsection, [parent.digits], is exactly one level
    deeper than its parent. *)
Theorem section_id_depth_of_subsection (parent digits : string) :
  digits <> "" ->
  Forall (fun c => Py.isdigit c = true) (list_ascii_of_string digits) ->
  section_id_depth (parent ++ "." ++ digits) = (section_id_depth parent + 1)%Z.
Proof.
  intros Hne Hdigits. unfold section_id_depth.
  change ("." ++ digits) with (String "." digits).
  rewrite count_digit_runs_app, (count_digit_runs_digits digits false Hdigits).
  destruct digits; [contradiction|reflexivity].
Qed.

Lemma section_id_depth_of_subsection_witness :
  section_id_depth ("R301.2" ++ "." ++ "14") = (section_id_depth "R301.2" + 1)%Z.
Proof.
  apply (section_id_depth_of_subsection "R301.2" "14").
  - discriminate.
  - repeat constructor.
Defined.

(** X22.  A line that passes [is_header_position] and is not in the right
    column also passes [is_header_position_any]: the tolerance of the latter
    is never less than [COLUMN_MARGIN_TOLERANCE]. *)
Theorem is_header_position_implies_any (line : Line) (column_bounds : ColumnBounds) :
  column line <> Some right ->
  is_header_position line column_bounds = true ->
  (COLUMN_MARGIN_TOLERANCE <= header_position_tolerance column_bounds)%Q /\
  is_header_position_any line column_bounds = true.
Proof.
  intros Hcol Hpos.
  assert (Htol : (COLUMN_MARGIN_TOLERANCE <= header_position_tolerance column_bounds)%Q).
  { unfold header_position_tolerance.
    destruct (page_median_char_width column_bounds) as [cw|]; [|apply Qle_refl].
    apply Q.le_max_l. }
  split; [exact Htol|].
  unfold is_header_position in Hpos. apply Qle_bool_iff in Hpos.
  unfold is_header_position_any.
  destruct (column line) as [[]|]; try contradiction;
    apply Qle_bool_iff; eapply Qle_trans; eauto.
Qed.

Lemma is_header_position_implies_any_witness :
  (COLUMN_MARGIN_TOLERANCE <= header_position_tolerance margin_bounds)%Q /\
  is_header_position_any margin_line margin_bounds = true.
Proof.
  apply (is_header_position_implies_any margin_line margin_bounds).
  - discriminate.
  - vm_compute. reflexivity.
Defined.

(** ** Merging of the ruling lines *)

Section MergedRulings.

Lemma Qmax_ge_l a b : (a <= Qmax a b)%Q.
Proof. apply Q.le_max_l. Qed.

Lemma Qmax_ge_r a b : (b <= Qmax a b)%Q.
Proof. apply Q.le_max_r. Qed.

Lemma merge_horizontal_spec : forall items current,
  Forall (fun l => r_x0 current <= r_x0 l)%Q items ->
  StronglySorted (fun a b => r_x0 a <= r_x0 b)%Q items ->
  let out := merge_horizontal current items in
  Forall (fun m => r_x0 current <= r_x0 m)%Q out /\
  StronglySorted (fun a b => RULING_JOIN_TOLERANCE < r_x0 b - r_x1 a)%Q out /\
  Forall (fun l => exists m, In m out /\ (r_x0 m <= r_x0 l)%Q /\ (r_x1 l <= r_x1 m)%Q)
         (current :: items).
Proof.
  induction items as [|line rest IH]; intros current Hge Hsorted; cbn zeta.
  - cbn [merge_horizontal]. split; [repeat constructor; apply Qle_refl|].
    split; [repeat constructor|].
    repeat constructor. exists current. split; [now left|]. split; apply Qle_refl.
  - inversion Hge as [|? ? Hline Hrest]; subst.
    inversion Hsorted as [|? ? Hs Hall]; subst.
    cbn [merge_horizontal].
    destruct (Qle_bool (r_x0 line - r_x1 current) RULING_JOIN_TOLERANCE) eqn:Hjoin.
    + set (current' := {| r_x0 := r_x0 current; r_top := r_top current;
                          r_x1 := Qmax (r_x1 current) (r_x1 line);
                          r_bottom := r_bottom current |}).
      destruct (IH current' Hrest Hs) as (Hout & Hsep & Hcov).
      split; [exact Hout|]. split; [exact Hsep|].
      inversion Hcov as [|? ? (m & Hm & Hm0 & Hm1) Hcov']; subst.
      cbn [r_x0 r_x1 current'] in Hm0, Hm1.
      pose proof (Qmax_ge_l (r_x1 current) (r_x1 line)).
      pose proof (Qmax_ge_r (r_x1 current) (r_x1 line)).
      constructor; [exists m; repeat split; [exact Hm|lra|lra]|].
      constructor; [exists m; repeat split; [exact Hm|lra|lra]|exact Hcov'].
    + apply Qle_bool_false in Hjoin.
      assert (Hrest' : Forall (fun l => r_x0 line <= r_x0 l)%Q rest) by exact Hall.
      destruct (IH line Hrest' Hs) as (Hout & Hsep & Hcov).
      split; [|split].
      * constructor; [apply Qle_refl|].
        eapply Forall_impl; [exact Hout|]. intros m Hm. cbn beta in *. lra.
      * constructor; [exact Hsep|].
        eapply Forall_impl; [exact Hout|]. intros m Hm. cbn beta in *. lra.
      * constructor.
        { exists current. split; [now left|]. split; apply Qle_refl. }
        eapply Forall_impl; [exact Hcov|].
        intros l (m & Hm & H0 & H1). exists m. split; [now right|]. now split.
Qed.

Lemma merge_horizontal_tops (P : Ruling -> Prop) : forall items current,
  (forall a v, P a ->
     P {| r_x0 := r_x0 a; r_top := r_top a; r_x1 := v; r_bottom := r_bottom a |}) ->
  P current -> Forall P items -> Forall P (merge_horizontal current items).
Proof.
  induction items as [|line rest IH]; intros current Hset Hc Hall; cbn [merge_horizontal].
  - repeat constructor. exact Hc.
  - inversion Hall as [|? ? Hline Hrest]; subst.
    destruct (Qle_bool _ _).
    + apply IH; [exact Hset|apply Hset, Hc|exact Hrest].
    + constructor; [exact Hc|]. apply IH; assumption.
Qed.

Lemma merge_vertical_spec : forall items current,
  Forall (fun l => r_top current <= r_top l)%Q items ->
  StronglySorted (fun a b => r_top a <= r_top b)%Q items ->
  let out := merge_vertical current items in
  Forall (fun m => r_top current <= r_top m)%Q out /\
  StronglySorted (fun a b => RULING_JOIN_TOLERANCE < r_top b - r_bottom a)%Q out /\
  Forall (fun l => exists m, In m out /\ (r_top m <= r_top l)%Q
                             /\ (r_bottom l <= r_bottom m)%Q)
         (current :: items).
Proof.
  induction items as [|line rest IH]; intros current Hge Hsorted; cbn zeta.
  - cbn [merge_vertical]. split; [repeat constructor; apply Qle_refl|].
    split; [repeat constructor|].
    repeat constructor. exists current. split; [now left|]. split; apply Qle_refl.
  - inversion Hge as [|? ? Hline Hrest]; subst.
    inversion Hsorted as [|? ? Hs Hall]; subst.
    cbn [merge_vertical].
    destruct (Qle_bool (r_top line - r_bottom current) RULING_JOIN_TOLERANCE) eqn:Hjoin.
    + set (current' := {| r_x0 := r_x0 current; r_top := r_top current;
                          r_x1 := r_x1 current;
                          r_bottom := Qmax (r_bottom current) (r_bottom line) |}).
      destruct (IH current' Hrest Hs) as (Hout & Hsep & Hcov).
      split; [exact Hout|]. split; [exact Hsep|].
      inversion Hcov as [|? ? (m & Hm & Hm0 & Hm1) Hcov']; subst.
      cbn [r_top r_bottom current'] in Hm0, Hm1.
      pose proof (Qmax_ge_l (r_bottom current) (r_bottom line)).
      pose proof (Qmax_ge_r (r_bottom current) (r_bottom line)).
      constructor; [exists m; repeat split; [exact Hm|lra|lra]|].
      constructor; [exists m; repeat split; [exact Hm|lra|lra]|exact Hcov'].
    + apply Qle_bool_false in Hjoin.
      assert (Hrest' : Forall (fun l => r_top line <= r_top l)%Q rest) by exact Hall.
      destruct (IH line Hrest' Hs) as (Hout & Hsep & Hcov).
      split; [|split].
      * constructor; [apply Qle_refl|].
        eapply Forall_impl; [exact Hout|]. intros m Hm. cbn beta in *. lra.
      * constructor; [exact Hsep|].
        eapply Forall_impl; [exact Hout|]. intros m Hm. cbn beta in *. lra.
      * constructor.
        { exists current. split; [now left|]. split; apply Qle_refl. }
        eapply Forall_impl; [exact Hcov|].
        intros l (m & Hm & H0 & H1). exists m. split; [now right|]. now split.
Qed.

Lemma merge_vertical_xs (P : Ruling -> Prop) : forall items current,
  (forall a v, P a ->
     P {| r_x0 := r_x0 a; r_top := r_top a; r_x1 := r_x1 a; r_bottom := v |}) ->
  P current -> Forall P items -> Forall P (merge_vertical current items).
Proof.
  induction items as [|line rest IH]; intros current Hset Hc Hall; cbn [merge_vertical].
  - repeat constructor. exact Hc.
  - inversion Hall as [|? ? Hline Hrest]; subst.
    destruct (Qle_bool _ _).
    + apply IH; [exact Hset|apply Hset, Hc|exact Hrest].
    + constructor; [exact Hc|]. apply IH; assumption.
Qed.


(** The dict [grouped]: its keys are pairwise different and every line sits
    under its own key. *)
Variable key_field : Ruling -> Q.

Let distinct (keys : list Q) : Prop :=
  StronglySorted (fun a b => ~ (a == b)%Q) keys.

Let keyed (g : list (Q * list Ruling)) : Prop :=
  Forall (fun p => Forall (fun l => (key_field l == fst p)%Q) (snd p)) g.

Let holds (g : list (Q * list Ruling)) (l : Ruling) : Prop :=
  exists p, In p g /\ In l (snd p).

Lemma group_append_keys key line : forall g,
  map fst (group_append key line g) = map fst g \/
  (map fst (group_append key line g) = (map fst g ++ [key])%list /\
   Forall (fun k => ~ (k == key)%Q) (map fst g)).
Proof.
  induction g as [|[k items] rest IH]; cbn [group_append].
  - right. split; [reflexivity|constructor].
  - destruct (Qeq_bool k key) eqn:E; [left; reflexivity|].
    cbn [map fst]. destruct IH as [->|[-> Hall]]; [left; reflexivity|].
    right. split; [reflexivity|]. constructor; [|exact Hall].
    intros Hk. apply Qeq_bool_iff in Hk. congruence.
Qed.

Lemma group_append_distinct key line g :
  distinct (map fst g) -> distinct (map fst (group_append key line g)).
Proof.
  intros Hd. destruct (group_append_keys key line g) as [->|[-> Hall]]; [exact Hd|].
  apply StronglySorted_snoc; assumption.
Qed.

Lemma group_append_keyed line : forall g,
  keyed g -> keyed (group_append (key_field line) line g).
Proof.
  induction g as [|[k items] rest IH]; intros Hk; cbn [group_append].
  - constructor; [|constructor]. constructor; [|constructor]. apply Qeq_refl.
  - inversion Hk as [|? ? Hhead Hrest]; subst.
    destruct (Qeq_bool k (key_field line)) eqn:E.
    + constructor; [|exact Hrest]. cbn [fst snd] in *.
      apply Forall_app. split; [exact Hhead|]. repeat constructor.
      apply Qeq_bool_iff in E. now symmetry.
    + constructor; [exact Hhead|]. apply IH, Hrest.
Qed.

Lemma group_append_keeps key line l : forall g,
  holds g l -> holds (group_append key line g) l.
Proof.
  induction g as [|[k items] rest IH]; intros (p & Hp & Hl); [destruct Hp|].
  cbn [group_append]. destruct (Qeq_bool k key).
  - destruct Hp as [<-|Hp].
    + exists (k, (items ++ [line])%list). split; [now left|].
      cbn [snd] in *. apply in_or_app. now left.
    + exists p. split; [now right|exact Hl].
  - destruct Hp as [<-|Hp].
    + exists (k, items). split; [now left|exact Hl].
    + destruct (IH (ex_intro _ p (conj Hp Hl))) as (p' & Hp' & Hl').
      exists p'. split; [now right|exact Hl'].
Qed.

Lemma group_append_adds key line : forall g, holds (group_append key line g) line.
Proof.
  induction g as [|[k items] rest IH]; cbn [group_append].
  - exists (key, [line]). split; now left.
  - destruct (Qeq_bool k key).
    + exists (k, (items ++ [line])%list). split; [now left|].
      cbn [snd]. apply in_or_app. right. now left.
    + destruct IH as (p & Hp & Hl). exists p. split; [now right|exact Hl].
Qed.

Lemma grouped_spec : forall rulings g,
  distinct (map fst g) -> keyed g ->
  let g' := fold_left (fun g line => group_append (key_field line) line g) rulings g in
  distinct (map fst g') /\ keyed g' /\
  (forall l, holds g l \/ In l rulings -> holds g' l).
Proof.
  induction rulings as [|line rest IH]; intros g Hd Hk; cbn [fold_left]; cbn zeta.
  - split; [exact Hd|]. split; [exact Hk|]. intros l [H|[]]. exact H.
  - destruct (IH (group_append (key_field line) line g)
                (group_append_distinct _ _ _ Hd) (group_append_keyed _ _ Hk))
      as (Hd' & Hk' & Hholds).
    split; [exact Hd'|]. split; [exact Hk'|].
    intros l [H|[<-|H]]; apply Hholds.
    + left. apply group_append_keeps, H.
    + left. apply group_append_adds.
    + right. exact H.
Qed.

Lemma group_items_of k items : forall g,
  distinct (map fst g) -> In (k, items) g -> group_items k g = items.
Proof.
  induction g as [|[k0 items0] rest IH]; intros Hd Hin; [destruct Hin|].
  cbn [map fst] in Hd. inversion Hd as [|? ? Hd' Hall]; subst.
  cbn [group_items]. destruct (Qeq_bool k0 k) eqn:E.
  - destruct Hin as [Heq|Hin]; [now inversion Heq|].
    exfalso. apply Qeq_bool_iff in E. rewrite Forall_forall in Hall.
    apply (Hall k); [|exact E]. apply list_elem_of_In.
    change k with (fst (k, items)). now apply in_map.
  - destruct Hin as [Heq|Hin].
    + inversion Heq; subst. assert (Qeq_bool k k = true) by (apply Qeq_bool_iff, Qeq_refl).
      congruence.
    + apply IH; assumption.
Qed.

Lemma insert_sorted_strict x : forall l,
  StronglySorted Qlt l -> Forall (fun y => ~ (y == x)%Q) l ->
  StronglySorted Qlt (insert_sorted Qlt_bool x l).
Proof.
  induction l as [|y l IH]; intros Hs Hne; cbn [insert_sorted]; [repeat constructor|].
  inversion Hs as [|? ? Hs' Hall]; subst. inversion Hne as [|? ? Hy Hne']; subst.
  destruct (Qlt_bool y x) eqn:E.
  - apply Qlt_bool_true in E. constructor; [apply IH; assumption|].
    rewrite Forall_forall. intros z Hz.
    rewrite (insert_sorted_perm Qlt_bool x l) in Hz.
    apply list_elem_of_In in Hz. destruct Hz as [<-|Hz]; [exact E|].
    rewrite Forall_forall in Hall. apply Hall, list_elem_of_In, Hz.
  - apply Qlt_bool_false in E.
    assert (Hxy : (x < y)%Q).
    { apply Qle_lt_or_eq in E as [E|E]; [exact E|]. exfalso. apply Hy. now symmetry. }
    constructor; [exact Hs|]. constructor; [exact Hxy|].
    eapply Forall_impl; [exact Hall|]. intros z Hz. cbn beta in *. lra.
Qed.

Lemma sorted_floats_strict : forall keys,
  distinct keys -> StronglySorted Qlt (sorted_floats keys).
Proof.
  unfold sorted_floats. induction keys as [|k rest IH]; intros Hd; cbn; [constructor|].
  inversion Hd as [|? ? Hd' Hall]; subst.
  apply insert_sorted_strict; [apply IH, Hd'|].
  rewrite Forall_forall in Hall |- *. intros y Hy Hyk.
  rewrite (sorted_by_perm Qlt_bool rest) in Hy.
  apply (Hall y Hy). now symmetry.
Qed.

Lemma StronglySorted_app_intro {A} (R : A -> A -> Prop) l1 l2 :
  StronglySorted R l1 -> StronglySorted R l2 ->
  (forall a b, In a l1 -> In b l2 -> R a b) ->
  StronglySorted R (l1 ++ l2)%list.
Proof.
  intros H1 H2 H12. induction H1 as [|a l1 Hs IH Hall]; cbn; [exact H2|].
  constructor.
  - apply IH. intros x y Hx Hy. apply H12; [now right|exact Hy].
  - apply Forall_app. split; [exact Hall|].
    rewrite Forall_forall. intros y Hy. apply H12; [now left|].
    apply list_elem_of_In, Hy.
Qed.

Lemma StronglySorted_flat_map {A B} (R : A -> A -> Prop) (S : B -> B -> Prop)
    (f : A -> list B) l :
  StronglySorted R l ->
  (forall a, In a l -> StronglySorted S (f a)) ->
  (forall a b x y, In a l -> In b l -> R a b -> In x (f a) -> In y (f b) -> S x y) ->
  StronglySorted S (flat_map f l).
Proof.
  intros Hs. induction Hs as [|a l Hs IH Hall]; intros Hin Hcross; cbn; [constructor|].
  apply StronglySorted_app_intro.
  - apply Hin. now left.
  - apply IH.
    + intros b Hb. apply Hin. now right.
    + intros b c x y Hb Hc. apply Hcross; now right.
  - intros x y Hx Hy. apply in_flat_map in Hy as (b & Hb & Hy).
    rewrite Forall_forall in Hall.
    apply (Hcross a b x y); [now left|now right| |exact Hx|exact Hy].
    apply Hall, list_elem_of_In, Hb.
Qed.


Lemma StronglySorted_within {A} (R S : A -> A -> Prop) (P : A -> Prop) l :
  StronglySorted R l -> Forall P l ->
  (forall a b, P a -> P b -> R a b -> S a b) ->
  StronglySorted S l.
Proof.
  intros Hs HP HRS. induction Hs as [|a l Hs IH Hall]; [constructor|].
  inversion HP as [|? ? Ha Hl]; subst. constructor; [apply IH, Hl|].
  rewrite Forall_forall in Hall, Hl |- *. intros b Hb.
  apply HRS; [exact Ha|apply Hl, Hb|apply Hall, Hb].
Qed.

Lemma ruling_lt_asym (f : Ruling -> Q) x y :
  Qlt_bool (f x) (f y) = true -> Qlt_bool (f y) (f x) = false.
Proof.
  intros H. apply Qlt_bool_true in H. apply Qlt_bool_false. lra.
Qed.

Lemma ruling_not_above_trans (f : Ruling -> Q) x y z :
  not_above (fun a b => Qlt_bool (f a) (f b)) x y ->
  not_above (fun a b => Qlt_bool (f a) (f b)) y z ->
  not_above (fun a b => Qlt_bool (f a) (f b)) x z.
Proof.
  unfold not_above. intros H1 H2.
  apply Qlt_bool_false in H1, H2. apply Qlt_bool_false. lra.
Qed.

Lemma horizontal_group_spec items k :
  Forall (fun l => r_top l == k)%Q items ->
  let out :=
    match sorted_by (fun a b => Qlt_bool (r_x0 a) (r_x0 b)) items with
    | [] => []
    | first :: rest => merge_horizontal first rest
    end in
  Forall (fun m => r_top m == k)%Q out /\
  StronglySorted (fun a b => RULING_JOIN_TOLERANCE < r_x0 b - r_x1 a)%Q out /\
  Forall (fun l => exists m, In m out /\ (r_x0 m <= r_x0 l)%Q /\ (r_x1 l <= r_x1 m)%Q)
         items.
Proof.
  intros Hk. cbn zeta.
  pose proof (sorted_by_perm (fun a b => Qlt_bool (r_x0 a) (r_x0 b)) items) as Hperm.
  pose proof (sorted_by_sorted (fun a b => Qlt_bool (r_x0 a) (r_x0 b))
                (ruling_lt_asym r_x0) (ruling_not_above_trans r_x0) items) as Hs.
  set (sorted := sorted_by (fun a b => Qlt_bool (r_x0 a) (r_x0 b)) items) in *.
  assert (Hs' : StronglySorted (fun a b => r_x0 a <= r_x0 b)%Q sorted).
  { eapply StronglySorted_weaken; [|exact Hs]. intros a b Hab.
    unfold not_above in Hab. now apply Qlt_bool_false in Hab. }
  assert (Hk' : Forall (fun l => r_top l == k)%Q sorted) by (rewrite Hperm; exact Hk).
  assert (Hback : forall P : Ruling -> Prop, Forall P sorted -> Forall P items).
  { intros P HP. rewrite <- Hperm. exact HP. }
  clearbody sorted. clear Hperm Hs Hk.
  destruct sorted as [|first rest].
  { split; [constructor|]. split; [constructor|]. apply Hback. constructor. }
  inversion Hs' as [|? ? Hrest Hfirst]; subst.
  inversion Hk' as [|? ? Hk1 Hk2]; subst.
  destruct (merge_horizontal_spec rest first Hfirst Hrest) as (_ & Hsep & Hcov).
  split; [|split; [exact Hsep|apply Hback, Hcov]].
  apply (merge_horizontal_tops (fun m => r_top m == k)%Q); auto.
Qed.

Lemma vertical_group_spec items k :
  Forall (fun l => r_x0 l == k)%Q items ->
  let out :=
    match sorted_by (fun a b => Qlt_bool (r_top a) (r_top b)) items with
    | [] => []
    | first :: rest => merge_vertical first rest
    end in
  Forall (fun m => r_x0 m == k)%Q out /\
  StronglySorted (fun a b => RULING_JOIN_TOLERANCE < r_top b - r_bottom a)%Q out /\
  Forall (fun l => exists m, In m out /\ (r_top m <= r_top l)%Q
                             /\ (r_bottom l <= r_bottom m)%Q)
         items.
Proof.
  intros Hk. cbn zeta.
  pose proof (sorted_by_perm (fun a b => Qlt_bool (r_top a) (r_top b)) items) as Hperm.
  pose proof (sorted_by_sorted (fun a b => Qlt_bool (r_top a) (r_top b))
                (ruling_lt_asym r_top) (ruling_not_above_trans r_top) items) as Hs.
  set (sorted := sorted_by (fun a b => Qlt_bool (r_top a) (r_top b)) items) in *.
  assert (Hs' : StronglySorted (fun a b => r_top a <= r_top b)%Q sorted).
  { eapply StronglySorted_weaken; [|exact Hs]. intros a b Hab.
    unfold not_above in Hab. now apply Qlt_bool_false in Hab. }
  assert (Hk' : Forall (fun l => r_x0 l == k)%Q sorted) by (rewrite Hperm; exact Hk).
  assert (Hback : forall P : Ruling -> Prop, Forall P sorted -> Forall P items).
  { intros P HP. rewrite <- Hperm. exact HP. }
  clearbody sorted. clear Hperm Hs Hk.
  destruct sorted as [|first rest].
  { split; [constructor|]. split; [constructor|]. apply Hback. constructor. }
  inversion Hs' as [|? ? Hrest Hfirst]; subst.
  inversion Hk' as [|? ? Hk1 Hk2]; subst.
  destruct (merge_vertical_spec rest first Hfirst Hrest) as (_ & Hsep & Hcov).
  split; [|split; [exact Hsep|apply Hback, Hcov]].
  apply (merge_vertical_xs (fun m => r_x0 m == k)%Q); auto.
Qed.

(** The groups of a key field, as [merge_collinear_lines] builds and reads
    them. *)
Lemma groups_spec lines :
  let g := fold_left (fun g line => group_append (key_field line) line g) lines [] in
  StronglySorted Qlt (sorted_floats (map fst g)) /\
  (forall k, In k (sorted_floats (map fst g)) ->
     Forall (fun l => key_field l == k)%Q (group_items k g)) /\
  (forall l, In l lines ->
     exists k, In k (sorted_floats (map fst g)) /\ In l (group_items k g)).
Proof.
  cbn zeta.
  destruct (grouped_spec lines [] ltac:(constructor) ltac:(constructor))
    as (Hd & Hk & Hholds).
  set (g := fold_left _ lines []) in *.
  split; [apply sorted_floats_strict, Hd|]. split.
  - intros k Hin. apply sorted_floats_In, in_map_iff in Hin as ([k' items] & <- & Hp).
    cbn [fst]. rewrite (group_items_of k' items g Hd Hp).
    unfold keyed in Hk. rewrite Forall_forall in Hk.
    apply (Hk (k', items)), list_elem_of_In, Hp.
  - intros l Hl. destruct (Hholds l (or_intror Hl)) as ([k items] & Hp & Hin).
    exists k. split.
    + apply sorted_floats_In. change k with (fst (k, items)). now apply in_map.
    + now rewrite (group_items_of k items g Hd Hp).
Qed.

End MergedRulings.

(** X23.  [merge_collinear_lines] loses no part of a ruling: every line it is
    given lies within a line it returns, on the same [top] for the
    orientation "h" and on the same [x0] for any other orientation. *)
Theorem merge_collinear_lines_covers (lines : list Ruling) (line : Ruling) :
  In line lines ->
  (exists m, In m (merge_collinear_lines lines "h") /\ covered_h line m) /\
  (exists m, In m (merge_collinear_lines lines "v") /\ covered_v line m).
Proof.
  intros Hline. split.
  - unfold merge_collinear_lines. cbn [String.eqb Ascii.eqb Bool.eqb andb].
    destruct (groups_spec r_top lines) as (_ & Hkeys & Hholds).
    destruct (Hholds line Hline) as (k & Hk & Hin).
    destruct (horizontal_group_spec _ k (Hkeys k Hk)) as (Htop & _ & Hcov).
    rewrite Forall_forall in Hcov.
    destruct (Hcov line ltac:(apply list_elem_of_In, Hin)) as (m & Hm & H0 & H1).
    exists m. split.
    + apply in_flat_map. exists k. split; [exact Hk|exact Hm].
    + unfold covered_h. split; [|split; assumption].
      rewrite Forall_forall in Htop. rewrite (Htop m ltac:(apply list_elem_of_In, Hm)).
      specialize (Hkeys k Hk). rewrite Forall_forall in Hkeys.
      symmetry. apply Hkeys, list_elem_of_In, Hin.
  - unfold merge_collinear_lines. cbn [String.eqb Ascii.eqb Bool.eqb andb].
    destruct (groups_spec r_x0 lines) as (_ & Hkeys & Hholds).
    destruct (Hholds line Hline) as (k & Hk & Hin).
    destruct (vertical_group_spec _ k (Hkeys k Hk)) as (Htop & _ & Hcov).
    rewrite Forall_forall in Hcov.
    destruct (Hcov line ltac:(apply list_elem_of_In, Hin)) as (m & Hm & H0 & H1).
    exists m. split.
    + apply in_flat_map. exists k. split; [exact Hk|exact Hm].
    + unfold covered_v. split; [|split; assumption].
      rewrite Forall_forall in Htop. rewrite (Htop m ltac:(apply list_elem_of_In, Hm)).
      specialize (Hkeys k Hk). rewrite Forall_forall in Hkeys.
      symmetry. apply Hkeys, list_elem_of_In, Hin.
Qed.

Lemma merge_collinear_lines_covers_witness :
  (exists m, In m (merge_collinear_lines sample_rulings "h")
             /\ covered_h sample_ruling m) /\
  (exists m, In m (merge_collinear_lines sample_rulings "v")
             /\ covered_v sample_ruling m).
Proof.
  apply (merge_collinear_lines_covers sample_rulings sample_ruling).
  right. now left.
Defined.

(** X24.  The lines [merge_collinear_lines] returns are ordered and kept
    apart: for the orientation "h", a later line is on a greater [top], or on
    the same [top] and starts more than [RULING_JOIN_TOLERANCE] behind the
    end of the earlier one; for any other orientation the same holds with
    [x0] for [top] and [top], [bottom] for [x0], [x1]. *)
Theorem merge_collinear_lines_apart (lines : list Ruling) :
  StronglySorted apart_h (merge_collinear_lines lines "h") /\
  StronglySorted apart_v (merge_collinear_lines lines "v").
Proof.
  split.
  - unfold merge_collinear_lines. cbn [String.eqb Ascii.eqb Bool.eqb andb].
    destruct (groups_spec r_top lines) as (Hsorted & Hkeys & _).
    eapply StronglySorted_flat_map; [exact Hsorted| |].
    + intros k Hk.
      destruct (horizontal_group_spec _ k (Hkeys k Hk)) as (Htop & Hsep & _).
      eapply StronglySorted_within; [exact Hsep|exact Htop|].
      intros a b Ha Hb Hab. right. split; [|exact Hab]. cbn beta in *.
      now rewrite Ha, Hb.
    + intros k1 k2 a b Hk1 Hk2 Hlt Ha Hb.
      destruct (horizontal_group_spec _ k1 (Hkeys k1 Hk1)) as (Htop1 & _ & _).
      destruct (horizontal_group_spec _ k2 (Hkeys k2 Hk2)) as (Htop2 & _ & _).
      rewrite Forall_forall in Htop1, Htop2.
      left. rewrite (Htop1 a ltac:(apply list_elem_of_In, Ha)).
      rewrite (Htop2 b ltac:(apply list_elem_of_In, Hb)). exact Hlt.
  - unfold merge_collinear_lines. cbn [String.eqb Ascii.eqb Bool.eqb andb].
    destruct (groups_spec r_x0 lines) as (Hsorted & Hkeys & _).
    eapply StronglySorted_flat_map; [exact Hsorted| |].
    + intros k Hk.
      destruct (vertical_group_spec _ k (Hkeys k Hk)) as (Htop & Hsep & _).
      eapply StronglySorted_within; [exact Hsep|exact Htop|].
      intros a b Ha Hb Hab. right. split; [|exact Hab]. cbn beta in *.
      now rewrite Ha, Hb.
    + intros k1 k2 a b Hk1 Hk2 Hlt Ha Hb.
      destruct (vertical_group_spec _ k1 (Hkeys k1 Hk1)) as (Htop1 & _ & _).
      destruct (vertical_group_spec _ k2 (Hkeys k2 Hk2)) as (Htop2 & _ & _).
      rewrite Forall_forall in Htop1, Htop2.
      left. rewrite (Htop1 a ltac:(apply list_elem_of_In, Ha)).
      rewrite (Htop2 b ltac:(apply list_elem_of_In, Hb)). exact Hlt.
Qed.

(** ** The run as a whole *)

Section WholeRun.

Lemma registered_pop entry rest st st' :
  registered_ids_known st -> section_stack st = entry :: rest ->
  flush_entry entry rest st = Return st' -> registered_ids_known st'.
Proof.
  intros Hreg Hst Hf. apply flush_entry_file in Hf as [pages ->].
  unfold registered_ids_known, section_ids in *.
  cbn [section_stack section_occurrences section_files].
  intros i Hi. specialize (Hreg i Hi). rewrite Hst in Hreg. cbn [map] in Hreg.
  rewrite map_app. cbn [map sf_section_id]. rewrite <- app_assoc. exact Hreg.
Qed.

Lemma registered_flush_deeper candidate_id new_depth : forall stack st st',
  section_stack st = stack -> registered_ids_known st ->
  flush_deeper candidate_id new_depth stack st = Return st' ->
  registered_ids_known st'.
Proof.
  induction stack as [|entry rest IH]; intros st st' Hst Hreg H; simpl in H.
  - injection H as <-. exact Hreg.
  - destruct (_ && _).
    + apply bind_Return_inv in H as (st1 & Hf & H).
      pose proof (registered_pop _ _ _ _ Hreg Hst Hf) as Hreg1.
      apply flush_entry_inv in Hf as [Hr Hocc].
      exact (IH st1 st' Hr Hreg1 H).
    + injection H as <-. exact Hreg.
Qed.

Lemma registered_line pg st line st' :
  registered_ids_known st -> section_line pg st line = Return st' ->
  registered_ids_known st'.
Proof.
  intros Hreg H. unfold section_line in H.
  destruct (sp_is_toc_page pg); [injection H as <-; exact Hreg|].
  destruct (parse_section_marker_line (text line)) as [marker_id|].
  { destruct (section_stack st) as [|entry rest] eqn:Hst.
    - injection H as <-. exact Hreg.
    - eapply registered_pop; eauto. }
  destruct (parse_true_section_heading (text line)) as [candidate_id|] eqn:Hparse.
  - destruct (_ || _); [discriminate|].
    destruct (match section_stack st with [] => false | _ => _ end); [discriminate|].
    apply bind_Return_inv in H as (st1 & Hf & H).
    apply registered_flush_deeper in Hf; auto.
    destruct (section_occurrences st1 !! candidate_id) as [prev|] eqn:Hlook;
      [discriminate|].
    injection H as <-. unfold registered_ids_known, section_ids in *.
    cbn [section_stack section_occurrences section_files map id].
    intros i Hi. apply in_or_app.
    destruct (decide (candidate_id = i)) as [->|Hne]; [right; now left|].
    rewrite lookup_insert_ne in Hi by exact Hne.
    apply Hf, in_app_or in Hi as [Hi|Hi]; [now left|right; now right].
  - destruct (is_spanning_reference (role line)); [injection H as <-; exact Hreg|].
    destruct (_ || _); [injection H as <-; exact Hreg|].
    destruct (section_stack st) as [|entry rest] eqn:Hst.
    + injection H as <-. exact Hreg.
    + injection H as <-. unfold registered_ids_known, section_ids in *.
      rewrite Hst in Hreg.
      cbn [section_stack section_occurrences section_files map id] in *. exact Hreg.
Qed.

Lemma registered_reachable st : section_reachable st -> registered_ids_known st.
Proof.
  induction 1 as [|pg st line st' _ IH H|entry rest st st' _ IH Hst H].
  - intros i [v Hv]. cbn in Hv. rewrite lookup_empty in Hv. discriminate.
  - eapply registered_line; eauto.
  - eapply registered_pop; eauto.
Qed.

Lemma process_pages_reachable : forall pages st st',
  section_reachable (ds_sections st) ->
  process_pages pages st = Return st' ->
  section_reachable (ds_sections st').
Proof.
  induction pages as [|pg rest IH]; intros st st' Hr H; cbn [process_pages] in H.
  - injection H as <-. exact Hr.
  - apply bind_Return_inv in H as (st1 & Hpage & H).
    apply (IH st1 st'); [|exact H].
    unfold process_page in Hpage.
    destruct (page_body pg st) as [st2|e] eqn:Hbody; [|discriminate].
    injection Hpage as <-. unfold page_body in Hbody.
    apply bind_Return_inv in Hbody as (u & _ & Hbody).
    apply bind_Return_inv in Hbody as (tb & _ & Hbody).
    apply bind_Return_inv in Hbody as (sections & Hlines & Hbody).
    injection Hbody as <-. cbn [ds_sections].
    eapply section_lines_reachable; [exact Hr|exact Hlines].
Qed.

Lemma flush_all_reachable : forall stack st st',
  section_reachable st -> section_stack st = stack ->
  flush_all stack st = Return st' ->
  section_reachable st' /\ section_stack st' = [].
Proof.
  induction stack as [|entry rest IH]; intros st st' Hr Hst H; cbn [flush_all] in H.
  - injection H as <-. auto.
  - apply bind_Return_inv in H as (st1 & Hf & H).
    apply (IH st1 st'); [eapply reach_flush; eauto| |exact H].
    apply flush_entry_inv in Hf as [Hs _]. exact Hs.
Qed.

End WholeRun.

(** X25.  When the run over the pages returns, no section is open and no
    table is pending; every section id registered in [section_occurrences]
    has exactly one file and every file belongs to a registered id; the
    counter [sections_extracted] is the number of files, and the text of
    every file starts with the heading of its own id and holds no other
    section heading. *)
Theorem run_document_one_file_per_section (pages : list PageInput) (st : DocState) :
  run_document pages = Return st ->
  let sections := ds_sections st in
  section_stack sections = [] /\
  pending_table (ds_tables st) = None /\
  NoDup (map sf_section_id (section_files sections)) /\
  (forall i, is_Some (section_occurrences sections !! i)
             <-> In i (map sf_section_id (section_files sections))) /\
  sections_extracted sections = Z.of_nat (List.length (section_files sections)) /\
  Forall (fun f => heading_first (sf_section_id f) (sf_body f))
         (section_files sections).
Proof.
  intros H. unfold run_document in H.
  apply bind_Return_inv in H as (st1 & Hpages & H).
  apply bind_Return_inv in H as (u & Hend & H).
  apply bind_Return_inv in H as (sections & Hflush & H).
  injection H as <-. cbn [ds_sections ds_tables].
  assert (Hr1 : section_reachable (ds_sections st1)).
  { eapply process_pages_reachable; [|exact Hpages]. apply reach_initial. }
  destruct (flush_all_reachable _ _ _ Hr1 eq_refl Hflush) as [Hr Hstack].
  destruct (sections_inv_reachable _ Hr) as [(Hnd & Hocc & Hcount) (Hfiles & _)].
  pose proof (registered_reachable _ Hr) as Hreg.
  unfold registered_ids_known, section_ids in *. rewrite Hstack in *.
  cbn [map] in *. rewrite app_nil_r in *.
  split; [reflexivity|]. split.
  { unfold end_of_document in Hend.
    destruct (pending_table (ds_tables st1)); [discriminate|reflexivity]. }
  split; [exact Hnd|]. split; [|split; assumption].
  intros i. split; [apply Hreg|]. intros Hi.
  rewrite Forall_forall in Hocc. apply Hocc, list_elem_of_In, Hi.
Qed.

Lemma run_document_one_file_per_section_witness :
  run_document [text_page] = Return text_run /\
  section_stack (ds_sections text_run) = [] /\
  pending_table (ds_tables text_run) = None /\
  NoDup (map sf_section_id (section_files (ds_sections text_run))) /\
  (forall i, is_Some (section_occurrences (ds_sections text_run) !! i)
             <-> In i (map sf_section_id (section_files (ds_sections text_run)))) /\
  sections_extracted (ds_sections text_run)
  = Z.of_nat (List.length (section_files (ds_sections text_run))) /\
  Forall (fun f => heading_first (sf_section_id f) (sf_body f))
         (section_files (ds_sections text_run)).
Proof.
  assert (H : run_document [text_page] = Return text_run) by (vm_compute; reflexivity).
  split; [exact H|]. apply (run_document_one_file_per_section [text_page] text_run H).
Defined.

(** ** The counter of the tables *)

Section TableCounter.







End TableCounter.


